(** * Galsim_JAX: the training objective, the schedule and the checkpoint policy

    A shallow embedding of [galsim_jax/utils.py] and of the two training
    scripts [scripts/VAE_Resnet_train_C.py] and [scripts/VAE_SD_C.py].

    Numbers.  JAX arrays hold floating-point values; the development reads
    them as exact rationals ([Q]), so that every statement below is about
    the arithmetic the code writes down, for finite values, and says
    nothing about rounding, infinities or NaN.  Integers (steps, indices)
    are [Z] or [nat].

    Collaborators.  The network modules, the PSF convolution, the
    distributions of TensorFlow Probability, the optimizer of optax and the
    dataset are not part of these three files: they are Section variables,
    and a theorem of a Section holds for every choice of them. *)

From Stdlib Require Import String Ascii.
From Stdlib Require Import ZArith NArith QArith Qabs Bool Lia Arith List.
From Stdlib.Strings Require Import Byte.
From Stdlib Require Import DecimalString.
Import ListNotations.

Local Open Scope Z_scope.

#[local] Set Warnings "-notation-for-abbreviation".

(** ** Exceptions and the result of a fallible call *)

Inductive exn : Type :=
| NotImplementedError
| ZeroDivisionError
| ValueError
| ShapeError
| UnboundLocalError
| FileNotFoundError
| NoCheckpointAvailable
| MalformedCheckpoint
| CheckpointShapeMismatch.

Inductive result (A : Type) : Type :=
| Ok (a : A)
| Raise (e : exn).

Arguments Ok {A} a.
Arguments Raise {A} e.

Definition bind {A B : Type} (r : result A) (k : A -> result B) : result B :=
  match r with
  | Ok a => k a
  | Raise e => Raise e
  end.

Notation "x <- r ;; k" := (bind r (fun x => k))
  (at level 61, r at next level, right associativity).
Notation "' p <- r ;; k" := (bind r (fun x => let p := x in k))
  (at level 61, p pattern, r at next level, right associativity).

(** [x in l] for strings. *)
Definition mem_string (x : string) (l : list string) : bool :=
  existsb (String.eqb x) l.

(** ** Rational helpers *)

Definition Qltb (a b : Q) : bool :=
  (Qnum a * QDen b <? Qnum b * QDen a)%Z.

Definition Qsum (l : list Q) : Q := fold_right Qplus 0%Q l.

(** [jnp.mean]: the sum over the number of elements. *)
Definition Qmean (l : list Q) : Q :=
  (Qsum l / inject_Z (Z.of_nat (length l)))%Q.

(** * [galsim_jax/utils.py] *)

Module Utils.

(** [jnp.sum] of a boolean array: the number of [True] entries. *)
Definition jnp_sum_bool (l : list bool) : nat :=
  length (filter (fun b => b) l).

(** [jnp.take(values, index)] for an index that is not negative; outside
    the array JAX fills with NaN, which is [None] here. *)
Definition jnp_take (values : list Q) (index : nat) : option Q :=
  nth_error values index.

Definition steps_per_epoch : Z := 12000 / 28.

Definition boundaries : list Z :=
  map (fun e => e * steps_per_epoch) [40; 100; 160].

Definition values : list Q := [1; 1 # 10; 1 # 100; 1 # 1000]%Q.

(** [current_epoch] is computed by the source and never used. *)
Definition lr_schedule (step : Z) : option Q :=
  let current_epoch := (inject_Z step / inject_Z steps_per_epoch)%Q in
  let index := jnp_sum_bool (map (fun b => b <? step) boundaries) in
  jnp_take values index.

(** The keys of the dictionary of [get_activation_fn]. *)
Definition activation_functions : list string :=
  ["linear"; "relu"; "relu6"; "elu"; "gelu"; "prelu"; "leaky_relu";
   "hardtanh"; "sigmoid"; "tanh"; "log_sigmoid"; "softplus"; "softsign";
   "swish"]%string.

(** [get_activation_fn]: the entry of the dictionary, which the name
    stands for here; a name that is not a key raises. *)
Definition get_activation_fn (name : string) : result string :=
  if negb (mem_string name activation_functions) then Raise ValueError
  else Ok name.

(** The keys of the dictionary of [get_optimizer] and [new_optimizer]. *)
Definition optimizer_names : list string := ["adam"; "adamw"; "adafactor"]%string.

(** [optax.cosine_decay_schedule(init_value, decay_steps, alpha)]: optax
    raises [ValueError] unless [decay_steps] is positive; the schedule, a
    cosine, is given by its three arguments here. *)
Definition cosine_decay_schedule (init_value : Q) (decay_steps : Z) (alpha : Q)
  : result (Q * Z * Q) :=
  if 0 <? decay_steps then Ok (init_value, decay_steps, alpha)
  else Raise ValueError.

(** [new_optimizer]: it builds the cosine schedule first, and then the
    optimizer of that name on the schedule, which the name stands for here;
    a name that is not a key raises. *)
Definition new_optimizer (name : string) (init_lr alpha : Q) (total_steps : Z)
  : result string :=
  schedule <- cosine_decay_schedule init_lr total_steps alpha ;;
  if negb (mem_string name optimizer_names) then Raise ValueError
  else Ok name.

End Utils.


(** * The parameter tree and its byte format *)

Module Tree.

(** A numeric tensor as it is stored: element type, shape and the raw
    bytes of its elements.  Equality of two tensors is equality of every
    bit of their data. *)
Record tensor : Type := {
  dtype : string;
  shape : list N;
  data : list byte
}.

(** The Parameter Tree: a nested mapping from layer or module name to
    tensors.  The pair of encoder and decoder trees of
    [VAE_Resnet_train_C.py] is the mapping with the two names "0" and "1". *)
#[local] Set Warnings "-register-all".
Inductive ptree : Type :=
| Leaf (t : tensor)
| Dict (items : list (string * ptree)).

#[local] Set Warnings "register-all".

Definition byte_of_N (n : N) : byte :=
  match Byte.of_N n with
  | Some b => b
  | None => x00
  end.

(** Lengths are written base 128, low digit first, the high bit of a byte
    saying that another digit follows. *)
Fixpoint encode_varint_fuel (fuel : nat) (n : N) : list byte :=
  match fuel with
  | O => [byte_of_N (n mod 128)]
  | S fuel' =>
      if (n <? 128)%N then [byte_of_N n]
      else byte_of_N (128 + n mod 128) :: encode_varint_fuel fuel' (n / 128)
  end.

Definition encode_varint (n : N) : list byte :=
  encode_varint_fuel (N.to_nat (N.size n)) n.

Fixpoint decode_varint (bs : list byte) : result (N * list byte) :=
  match bs with
  | [] => Raise MalformedCheckpoint
  | b :: rest =>
      let v := Byte.to_N b in
      if (v <? 128)%N then Ok (v, rest)
      else
        '(hi, rest') <- decode_varint rest ;;
        Ok ((v - 128) + 128 * hi, rest')%N
  end.

Definition encode_bytes (bs : list byte) : list byte :=
  encode_varint (N.of_nat (length bs)) ++ bs.

Fixpoint take_bytes (n : nat) (bs : list byte) : result (list byte * list byte) :=
  match n with
  | O => Ok ([], bs)
  | S n' =>
      match bs with
      | [] => Raise MalformedCheckpoint
      | b :: rest =>
          '(front, back) <- take_bytes n' rest ;;
          Ok (b :: front, back)
      end
  end.

Definition decode_bytes (bs : list byte) : result (list byte * list byte) :=
  '(n, rest) <- decode_varint bs ;;
  take_bytes (N.to_nat n) rest.

Definition encode_string (s : string) : list byte :=
  encode_bytes (list_byte_of_string s).

Definition decode_string (bs : list byte) : result (string * list byte) :=
  '(raw, rest) <- decode_bytes bs ;;
  Ok (string_of_list_byte raw, rest).

Fixpoint encode_dims (dims : list N) : list byte :=
  match dims with
  | [] => []
  | d :: ds => encode_varint d ++ encode_dims ds
  end.

Fixpoint decode_dims (count : nat) (bs : list byte) : result (list N * list byte) :=
  match count with
  | O => Ok ([], bs)
  | S count' =>
      '(d, rest) <- decode_varint bs ;;
      '(ds, rest') <- decode_dims count' rest ;;
      Ok (d :: ds, rest')
  end.

Definition encode_tensor (t : tensor) : list byte :=
  encode_string (dtype t)
  ++ encode_varint (N.of_nat (length (shape t))) ++ encode_dims (shape t)
  ++ encode_bytes (data t).

Definition decode_tensor (bs : list byte) : result (tensor * list byte) :=
  '(ty, r1) <- decode_string bs ;;
  '(rank, r2) <- decode_varint r1 ;;
  '(dims, r3) <- decode_dims (N.to_nat rank) r2 ;;
  '(raw, r4) <- decode_bytes r3 ;;
  Ok ({| dtype := ty; shape := dims; data := raw |}, r4).

Definition tag_leaf : byte := x00.
Definition tag_dict : byte := x01.

(** Modelled from the spec: the byte format of a checkpoint, which the
    source takes from [flax.serialization] ([msgpack_serialize] of
    [to_state_dict]); section 6 asks for a length-prefixed serialization of
    the nested Parameter Tree.  Every node starts with a tag; a mapping then
    gives its number of entries and, for each entry, the name and the
    subtree; a tensor gives its element type, shape and raw bytes. *)
Fixpoint encode (t : ptree) : list byte :=
  match t with
  | Leaf x => tag_leaf :: encode_tensor x
  | Dict items =>
      tag_dict :: encode_varint (N.of_nat (length items))
      ++ (fix encode_items (l : list (string * ptree)) : list byte :=
            match l with
            | [] => []
            | (k, v) :: rest => encode_string k ++ encode v ++ encode_items rest
            end) items
  end.

(** Modelled from the spec: [flax.serialization.from_bytes], which section
    4.6 describes as deserializing into a structure matching the template,
    failing with a shape mismatch when the stored tree's structure
    disagrees.  The reader follows the template: where the template has a
    mapping the bytes must hold a mapping with the same names in the same
    order, where it has a tensor they must hold a tensor. *)
Fixpoint decode (template : ptree) (bs : list byte) : result (ptree * list byte) :=
  match bs with
  | [] => Raise MalformedCheckpoint
  | tag :: body =>
      match template with
      | Leaf _ =>
          if Byte.eqb tag tag_leaf then
            '(x, rest) <- decode_tensor body ;;
            Ok (Leaf x, rest)
          else Raise CheckpointShapeMismatch
      | Dict items =>
          if Byte.eqb tag tag_dict then
            '(n, r1) <- decode_varint body ;;
            if (n =? N.of_nat (length items))%N then
              '(its, r2) <-
                (fix decode_items (l : list (string * ptree)) (bs : list byte)
                   : result (list (string * ptree) * list byte) :=
                   match l with
                   | [] => Ok ([], bs)
                   | (k, tmpl) :: l' =>
                       '(k', b1) <- decode_string bs ;;
                       if String.eqb k k' then
                         '(v, b2) <- decode tmpl b1 ;;
                         '(vs, b3) <- decode_items l' b2 ;;
                         Ok ((k', v) :: vs, b3)
                       else Raise CheckpointShapeMismatch
                   end) items r1 ;;
              Ok (Dict its, r2)
            else Raise CheckpointShapeMismatch
          else Raise CheckpointShapeMismatch
      end
  end.

Definition from_bytes (template : ptree) (bs : list byte) : result ptree :=
  '(t, rest) <- decode template bs ;;
  match rest with
  | [] => Ok t
  | _ :: _ => Raise MalformedCheckpoint
  end.

(** The entries of a mapping, as [encode] writes them. *)
Fixpoint encode_items (l : list (string * ptree)) : list byte :=
  match l with
  | [] => []
  | (k, v) :: rest => encode_string k ++ encode v ++ encode_items rest
  end.

(** The entries of a mapping, as [decode] reads them along a template. *)
Fixpoint decode_items (l : list (string * ptree)) (bs : list byte)
  : result (list (string * ptree) * list byte) :=
  match l with
  | [] => Ok ([], bs)
  | (k, tmpl) :: l' =>
      '(k', b1) <- decode_string bs ;;
      if String.eqb k k' then
        '(v, b2) <- decode tmpl b1 ;;
        '(vs, b3) <- decode_items l' b2 ;;
        Ok ((k', v) :: vs, b3)
      else Raise CheckpointShapeMismatch
  end.

(** Two trees have the same structure when they have the same names at
    the same places; the tensors at the leaves may differ. *)
Fixpoint same_structure (a b : ptree) : bool :=
  match a, b with
  | Leaf _, Leaf _ => true
  | Dict ia, Dict ib =>
      (fix same_items (la lb : list (string * ptree)) : bool :=
         match la, lb with
         | [], [] => true
         | (ka, va) :: ra, (kb, vb) :: rb =>
             String.eqb ka kb && same_structure va vb && same_items ra rb
         | _, _ => false
         end) ia ib
  | _, _ => false
  end.

(** The entries of two mappings, as [same_structure] compares them. *)
Fixpoint same_items (la lb : list (string * ptree)) : bool :=
  match la, lb with
  | [], [] => true
  | (ka, va) :: ra, (kb, vb) :: rb =>
      String.eqb ka kb && same_structure va vb && same_items ra rb
  | _, _ => false
  end.

End Tree.

(** * The checkpoint store of [galsim_jax/utils.py] *)

(** What [utils.py] imports from [flax.serialization]: the bytes of a
    state, [msgpack_serialize (to_state_dict state)], and [from_bytes],
    which restores a state from bytes along a template. *)
Class Serialization (State : Type) : Type := {
  msgpack_serialize_state_dict : State -> list byte;
  from_bytes : State -> list byte -> result State
}.

#[export] Instance ptree_serialization : Serialization Tree.ptree := {
  msgpack_serialize_state_dict := Tree.encode;
  from_bytes := Tree.from_bytes
}.

(** The list [[params_enc, params_dec]] of [VAE_Resnet_train_C.py] is
    stored as the mapping with the names "0" and "1". *)
Definition pair_to_tree (p : Tree.ptree * Tree.ptree) : Tree.ptree :=
  Tree.Dict [("0"%string, fst p); ("1"%string, snd p)].

Definition pair_from_bytes (template : Tree.ptree * Tree.ptree)
  (bs : list byte) : result (Tree.ptree * Tree.ptree) :=
  t <- Tree.from_bytes (pair_to_tree template) bs ;;
  match t with
  | Tree.Dict [(_, a); (_, b)] => Ok (a, b)
  | _ => Raise CheckpointShapeMismatch
  end.

#[export] Instance pair_serialization
  : Serialization (Tree.ptree * Tree.ptree) := {
  msgpack_serialize_state_dict := fun p => Tree.encode (pair_to_tree p);
  from_bytes := pair_from_bytes
}.

Module Store.

(** The local files: the content of each path that has been written. *)
Definition file_system : Type := list (string * list byte).

Fixpoint read_file (path : string) (fs : file_system) : option (list byte) :=
  match fs with
  | [] => None
  | (p, content) :: rest =>
      if String.eqb p path then Some content else read_file path rest
  end.

(** [open(path, "wb")] followed by [write]: the file holds the new content
    and nothing of the old one. *)
Definition write_file (path : string) (content : list byte) (fs : file_system)
  : file_system :=
  (path, content)
    :: filter (fun entry => negb (String.eqb (fst entry) path)) fs.

(** One logged version of an artifact of the experiment tracker. *)
Record Artifact : Type := {
  art_name : string;
  art_type : string;
  art_files : list (string * list byte);
  art_aliases : list string
}.

Record store : Type := {
  run_id : string;
  files : file_system;
  artifacts : list Artifact   (* the logged versions, the newest first *)
}.

Definition slash : ascii := "/"%char.

(** [os.path.basename]: what follows the last slash. *)
Fixpoint basename_from (path acc : string) : string :=
  match path with
  | EmptyString => acc
  | String c rest =>
      if Ascii.eqb c slash then basename_from rest EmptyString
      else basename_from rest (acc ++ String c EmptyString)
  end.

Definition basename (path : string) : string := basename_from path EmptyString.

(** [str(step)] of a Python integer. *)
Definition str_of_int (step : Z) : string :=
  NilZero.string_of_int (Z.to_int step).

(** [wandb.Artifact(name, type=...)]: an artifact with no file yet. *)
Definition new_artifact (name type : string) : Artifact :=
  {| art_name := name; art_type := type; art_files := []; art_aliases := [] |}.

(** [artifact.add_file(path)]: the artifact takes the content the local
    file has now, under the file's base name. *)
Definition add_file (art : Artifact) (path : string) (fs : file_system)
  : result Artifact :=
  match read_file path fs with
  | None => Raise FileNotFoundError
  | Some content =>
      Ok {| art_name := art_name art;
            art_type := art_type art;
            art_files := (basename path, content) :: art_files art;
            art_aliases := art_aliases art |}
  end.

Definition drop_aliases (aliases : list string) (name : string) (old : Artifact)
  : Artifact :=
  if String.eqb (art_name old) name then
    {| art_name := art_name old;
       art_type := art_type old;
       art_files := art_files old;
       art_aliases :=
         filter (fun a => negb (mem_string a aliases)) (art_aliases old) |}
  else old.

(** [wandb.log_artifact(artifact, aliases=...)]: a new version that carries
    the aliases; an alias names one version of an artifact, so the older
    versions of the same artifact lose the aliases given to the new one. *)
Definition log_artifact (art : Artifact) (aliases : list string) (w : store)
  : store :=
  {| run_id := run_id w;
     files := files w;
     artifacts :=
       {| art_name := art_name art;
          art_type := art_type art;
          art_files := art_files art;
          art_aliases := aliases |}
       :: map (drop_aliases aliases (art_name art)) (artifacts w) |}.

(** [wandb.use_artifact(name:alias)]: the version of the artifact that
    carries the alias; without one the tracker raises. *)
Fixpoint use_artifact (name alias : string) (arts : list Artifact)
  : result Artifact :=
  match arts with
  | [] => Raise NoCheckpointAvailable
  | a :: rest =>
      if String.eqb (art_name a) name && mem_string alias (art_aliases a)
      then Ok a
      else use_artifact name alias rest
  end.

Definition checkpoint_name (w : store) : string :=
  (run_id w ++ "-checkpoint")%string.

Section Checkpoint.
Context {State : Type} `{Serialization State}.

Definition save_checkpoint (ckpt_path : string) (state : State) (step : Z)
  (w : store) : result store :=
  let w1 :=
    {| run_id := run_id w;
       files := write_file ckpt_path (msgpack_serialize_state_dict state)
                  (files w);
       artifacts := artifacts w |} in
  let artifact := new_artifact (checkpoint_name w1) "model" in
  artifact <- add_file artifact ckpt_path (files w1) ;;
  Ok (log_artifact artifact ["best"; "step_" ++ str_of_int step]%string w1).

Definition load_checkpoint (ckpt_file : string) (state : State) (w : store)
  : result State :=
  artifact <- use_artifact (checkpoint_name w) "best" (artifacts w) ;;
  (* artifact.download() and os.path.join(artifact_dir, ckpt_file) *)
  match read_file ckpt_file (art_files artifact) with
  | None => Raise FileNotFoundError
  | Some byte_data => from_bytes state byte_data
  end.

(** The version of the artifact that a call of [save_checkpoint] logs, and
    the store the call leaves (see [StoreFacts.save_checkpoint_Ok]). *)
Definition saved_artifact (ckpt_path : string) (state : State) (step : Z)
  (w : store) : Artifact :=
  {| art_name := checkpoint_name w;
     art_type := "model";
     art_files := [(basename ckpt_path, msgpack_serialize_state_dict state)];
     art_aliases := ["best"; "step_" ++ str_of_int step]%string |}.

Definition saved_store (ckpt_path : string) (state : State) (step : Z)
  (w : store) : store :=
  {| run_id := run_id w;
     files := write_file ckpt_path (msgpack_serialize_state_dict state)
                (files w);
     artifacts :=
       saved_artifact ckpt_path state step w
       :: map (drop_aliases ["best"; "step_" ++ str_of_int step]%string
                 (checkpoint_name w)) (artifacts w) |}.
End Checkpoint.

End Store.


(** * Tensors *)

(** A tensor is the list of its elements (its shape flattened); a batch of
    tensors is the list of its examples, along the leading dimension.  The
    operands of an elementwise operation have the same shape in the two
    scripts; operands with different numbers of elements are a [ShapeError]
    here, and broadcasting is not modelled. *)
Definition tensor : Type := list Q.

Fixpoint zip_with {A B C : Type} (f : A -> B -> C) (xs : list A) (ys : list B)
  : list C :=
  match xs, ys with
  | x :: xs', y :: ys' => f x y :: zip_with f xs' ys'
  | _, _ => []
  end.

Definition elementwise (f : Q -> Q -> Q) (a b : tensor) : result tensor :=
  if (length a =? length b)%nat then Ok (zip_with f a b) else Raise ShapeError.

(** [jax.vmap] of a function of two and of three batched arguments: one
    call per example; the leading dimensions must agree. *)
Definition vmap2 {A B C : Type} (f : A -> B -> C) (xs : list A) (ys : list B)
  : result (list C) :=
  if (length xs =? length ys)%nat then Ok (zip_with f xs ys)
  else Raise ShapeError.

Fixpoint sequence {A : Type} (l : list (result A)) : result (list A) :=
  match l with
  | [] => Ok []
  | r :: rest =>
      a <- r ;;
      others <- sequence rest ;;
      Ok (a :: others)
  end.

Definition vmap3 {A B C D : Type} (f : A -> B -> C -> result D)
  (xs : list A) (ys : list B) (zs : list C) : result (list D) :=
  if ((length xs =? length ys) && (length ys =? length zs))%nat
  then sequence (zip_with (fun x yz => f x (fst yz) (snd yz)) xs
                   (zip_with pair ys zs))
  else Raise ShapeError.

(** * The training loop of the two scripts *)

(** How a run of [main] ends: it completes, or an exception stops it; in
    both cases with the state reached. *)
Inductive outcome (S : Type) : Type :=
| Done (s : S)
| Crashed (e : exn) (s : S).

Arguments Done {S} s.
Arguments Crashed {S} e s.

Definition state_of {S : Type} (o : outcome S) : S :=
  match o with
  | Done s => s
  | Crashed _ s => s
  end.

(** [min(l)] and [l.index(min(l))] of Python: the first smallest entry and
    its position. *)
Fixpoint list_min (x : Q) (l : list Q) : Q :=
  match l with
  | [] => x
  | y :: rest => list_min (if Qltb y x then y else x) rest
  end.

Fixpoint list_index (x : Q) (l : list Q) : nat :=
  match l with
  | [] => O
  | y :: rest => if Qeq_bool y x then O else S (list_index x rest)
  end.

Definition checkpoint_file : string := "checkpoint.msgpack".

Module Training.

Section Loop.
Context {Params : Type} `{Serialization Params}.
Variables OptState Key Batch Grads Updates : Type.

(** [jax.random.split]. *)
Variable random_split : Key -> Key * Key.
(** The training iterator [dset]: [train_stream i] is what the [i]-th call
    of [next(dset)] returns; the stream repeats and never ends. *)
Variable train_stream : nat -> Batch.
(** The held-out split, which every evaluation reads from its start. *)
Variable test_split : list Batch.
(** [loss_fn] of the script, and its gradient in the parameters, which
    [jax.value_and_grad] computes next to the value. *)
Variable loss_fn : Params -> Key -> Batch -> Q -> result (Q * Q).
Variable loss_grad : Params -> Key -> Batch -> Q -> Grads.
(** [optimizer.update] and [optax.apply_updates]. *)
Variable optimizer_update : Grads -> OptState -> Params -> Updates * OptState.
Variable apply_updates : Params -> Updates -> Params.
(** [FLAGS.reg_value]. *)
Variable reg_value : Q.
(** The activation threshold of the checkpoint: [Some 1] in
    [VAE_Resnet_train_C.py] ([if best_eval_loss < 1:]); [None] in
    [VAE_SD_C.py], where the line is a comment and every new best loss is
    saved. *)
Variable activation_threshold : option Q.

Record train_state : Type := {
  st_params : Params;
  st_opt_state : OptState;
  st_rng : Key;
  st_rng_1 : Key;
  st_pulled : nat;                 (* calls of [next(dset)] so far *)
  st_losses : list Q;
  st_log_liks : list Q;
  st_losses_test : list (option Q);  (* [None] is NaN, the mean of no loss *)
  st_losses_test_step : list Z;
  st_log_liks_test : list Q;
  st_best_eval_loss : Q;
  st_store : Store.store
}.

(** Single SGD update step. *)
Definition update (params : Params) (rng_key : Key) (opt_state : OptState)
  (batch : Batch) : result (Q * Q * Params * OptState) :=
  '(loss, log_likelihood) <- loss_fn params rng_key batch reg_value ;;
  let grads := loss_grad params rng_key batch reg_value in
  let '(updates, new_opt_state) := optimizer_update grads opt_state params in
  let new_params := apply_updates params updates in
  Ok (loss, log_likelihood, new_params, new_opt_state).

(** [if best_eval_loss < 1:] where the script has the line. *)
Definition below_activation_threshold (best_eval_loss : Q) : bool :=
  match activation_threshold with
  | Some threshold => Qltb best_eval_loss threshold
  | None => true
  end.

(** The block "Saving best checkpoint" of the loop body, on the loss and
    the parameters the step has just obtained from [update]. *)
Definition save_best_checkpoint (loss : Q) (params : Params) (step : Z)
  (best_eval_loss : Q) (w : Store.store) : result (Q * Store.store) :=
  if Qltb loss best_eval_loss then
    let best_eval_loss := loss in
    if below_activation_threshold best_eval_loss then
      w' <- Store.save_checkpoint checkpoint_file params step w ;;
      Ok (best_eval_loss, w')
    else Ok (best_eval_loss, w)
  else Ok (best_eval_loss, w).

(** The block applied along a trace of losses, each with the parameters
    its step has obtained, from step [step] on. *)
Fixpoint checkpoints_on_trace (trace : list (Q * Params)) (step : Z)
  (best_eval_loss : Q) (w : Store.store) : result (Q * Store.store) :=
  match trace with
  | [] => Ok (best_eval_loss, w)
  | (loss, params) :: rest =>
      '(best_eval_loss, w) <-
        save_best_checkpoint loss params step best_eval_loss w ;;
      checkpoints_on_trace rest (step + 1) best_eval_loss w
  end.

(** The loop over the held-out split: the random key is split and
    [loss_fn] is called once per batch; the parameters are only read. *)
Fixpoint eval_batches (params : Params) (batches : list Batch)
  (rng rng_1 : Key) (for_list_mean : list Q) (last_log_lik : option Q)
  : result (Key * Key * list Q * option Q) :=
  match batches with
  | [] => Ok (rng, rng_1, for_list_mean, last_log_lik)
  | img :: rest =>
      let '(rng, rng_1) := random_split rng in
      '(loss_test, log_likelihood_test) <-
        loss_fn params rng_1 img reg_value ;;
      eval_batches params rest rng rng_1 (for_list_mean ++ [loss_test])
        (Some log_likelihood_test)
  end.

Definition set_eval (s : train_state) (rng rng_1 : Key)
  (losses_test : list (option Q)) (losses_test_step : list Z)
  (log_liks_test : list Q)
  : train_state :=
  {| st_params := st_params s;
     st_opt_state := st_opt_state s;
     st_rng := rng;
     st_rng_1 := rng_1;
     st_pulled := st_pulled s;
     st_losses := st_losses s;
     st_log_liks := st_log_liks s;
     st_losses_test := losses_test;
     st_losses_test_step := losses_test_step;
     st_log_liks_test := log_liks_test;
     st_best_eval_loss := st_best_eval_loss s;
     st_store := st_store s |}.

(** "Calculating the loss for all the test images".  On an empty split
    [np.mean] of no loss is NaN, which is appended with the step, and the
    loop has bound no [log_likelihood_test]: appending it raises. *)
Definition evaluate (step : Z) (s : train_state) : outcome train_state :=
  match eval_batches (st_params s) test_split (st_rng s) (st_rng_1 s) [] None with
  | Raise e => Crashed e s
  | Ok (rng, rng_1, for_list_mean, None) =>
      Crashed UnboundLocalError
        (set_eval s rng rng_1 (st_losses_test s ++ [None])
           (st_losses_test_step s ++ [step]) (st_log_liks_test s))
  | Ok (rng, rng_1, for_list_mean, Some log_likelihood_test) =>
      Done (set_eval s rng rng_1
              (st_losses_test s ++ [Some (Qmean for_list_mean)])
              (st_losses_test_step s ++ [step])
              (st_log_liks_test s ++ [log_likelihood_test]))
  end.

(** The body of [for step in range(1, config.steps + 1)]. *)
Definition train_step (steps : Z) (step : Z) (s : train_state)
  : outcome train_state :=
  let '(rng, rng_1) := random_split (st_rng s) in
  let batch_im := train_stream (st_pulled s) in
  let pulled := {|
    st_params := st_params s;
    st_opt_state := st_opt_state s;
    st_rng := rng;
    st_rng_1 := rng_1;
    st_pulled := S (st_pulled s);
    st_losses := st_losses s;
    st_log_liks := st_log_liks s;
    st_losses_test := st_losses_test s;
    st_losses_test_step := st_losses_test_step s;
    st_log_liks_test := st_log_liks_test s;
    st_best_eval_loss := st_best_eval_loss s;
    st_store := st_store s |} in
  match update (st_params s) rng_1 (st_opt_state s) batch_im with
  | Raise e => Crashed e pulled
  | Ok (loss, log_likelihood, params, opt_state) =>
      let updated best w := {|
        st_params := params;
        st_opt_state := opt_state;
        st_rng := rng;
        st_rng_1 := rng_1;
        st_pulled := S (st_pulled s);
        st_losses := st_losses s ++ [loss];
        st_log_liks := st_log_liks s ++ [log_likelihood];
        st_losses_test := st_losses_test s;
        st_losses_test_step := st_losses_test_step s;
        st_log_liks_test := st_log_liks_test s;
        st_best_eval_loss := best;
        st_store := w |} in
      match save_best_checkpoint loss params step
              (st_best_eval_loss s) (st_store s) with
      | Raise e => Crashed e (updated loss (st_store s))
      | Ok (best_eval_loss, w) =>
          let s' := updated best_eval_loss w in
          (* [step % (config.steps // 50) == 0] *)
          let cadence := steps / 50 in
          if cadence =? 0 then Crashed ZeroDivisionError s'
          else if step mod cadence =? 0 then evaluate step s'
          else Done s'
      end
  end.

Fixpoint run_steps (steps : Z) (range : list Z) (s : train_state)
  : outcome train_state :=
  match range with
  | [] => Done s
  | step :: rest =>
      match train_step steps step s with
      | Done s' => run_steps steps rest s'
      | Crashed e s' => Crashed e s'
      end
  end.

(** [range(1, steps + 1)]. *)
Definition step_range (steps : Z) : list Z :=
  map Z.of_nat (seq 1 (Z.to_nat steps)).

Definition training_loop (steps : Z) (s : train_state) : outcome train_state :=
  run_steps steps (step_range steps) s.

Definition set_params (s : train_state) (params : Params) : train_state :=
  {| st_params := params;
     st_opt_state := st_opt_state s;
     st_rng := st_rng s;
     st_rng_1 := st_rng_1 s;
     st_pulled := st_pulled s;
     st_losses := st_losses s;
     st_log_liks := st_log_liks s;
     st_losses_test := st_losses_test s;
     st_losses_test_step := st_losses_test_step s;
     st_log_liks_test := st_log_liks_test s;
     st_best_eval_loss := st_best_eval_loss s;
     st_store := st_store s |}.

(** What [main] reports after the loop: the parameters it goes on with,
    and the steps of the smallest loss and log-likelihood. *)
Record report : Type := {
  final_params : Params;
  best_step : nat;
  best_step_log : nat
}.

(** [min(losses)] and [losses.index(loss_min) + 1]; [min] of an empty list
    raises. *)
Definition best_step_of (l : list Q) : result nat :=
  match l with
  | [] => Raise ValueError
  | x :: rest => Ok (list_index (list_min x rest) l + 1)%nat
  end.

(** The end of [main], up to the summary of the best steps.
    [reload_best] says whether the script runs
    [params = load_checkpoint("checkpoint.msgpack", params)]: it does in
    [VAE_Resnet_train_C.py]; in [VAE_SD_C.py] the line is a comment. *)
Definition finalize (reload_best : bool) (s : train_state) : result report :=
  params <-
    (if reload_best
     then Store.load_checkpoint checkpoint_file (st_params s) (st_store s)
     else Ok (st_params s)) ;;
  best_step <- best_step_of (st_losses s) ;;
  best_step_log <- best_step_of (st_log_liks s) ;;
  Ok {| final_params := params;
        best_step := best_step;
        best_step_log := best_step_log |}.

(** The loop and the end of [main], from the state the setup has built. *)
Definition run (reload_best : bool) (steps : Z) (s0 : train_state)
  : outcome train_state * option (result report) :=
  match training_loop steps s0 with
  | Done s => (Done s, Some (finalize reload_best s))
  | Crashed e s => (Crashed e s, None)
  end.

(** ** What the statements about the loop speak of *)

(** What the call of [update] in the step from state [s] returns. *)
Definition step_update (s : train_state)
  : result (Q * Q * Params * OptState) :=
  update (st_params s) (snd (random_split (st_rng s))) (st_opt_state s)
    (train_stream (st_pulled s)).

(** The best loss and the store after the checkpoint block. *)
Definition best_after (loss best : Q) : Q :=
  if Qltb loss best then loss else best.

Definition store_after (loss : Q) (params : Params) (step : Z) (best : Q)
  (w : Store.store) : Store.store :=
  if Qltb loss best && below_activation_threshold loss
  then Store.saved_store checkpoint_file params step w
  else w.

(** What a step whose [update] has returned leaves in the state. *)
Record step_effect (step : Z) (s : train_state) (loss ll : Q)
  (params : Params) (opt_state : OptState) (s' : train_state) : Prop := {
  eff_params : st_params s' = params;
  eff_opt_state : st_opt_state s' = opt_state;
  eff_pulled : st_pulled s' = S (st_pulled s);
  eff_losses : st_losses s' = st_losses s ++ [loss];
  eff_log_liks : st_log_liks s' = st_log_liks s ++ [ll];
  eff_best : st_best_eval_loss s' = best_after loss (st_best_eval_loss s);
  eff_store :
    st_store s'
    = store_after loss params step (st_best_eval_loss s) (st_store s)
}.

(** The artifact holds the parameters as they are after the update of a
    step whose loss, computed by [loss_fn] on the parameters before the
    update, was [loss]. *)
Definition post_update_checkpoint (loss : Q) (a : Store.Artifact) : Prop :=
  exists (params : Params) (rng_key : Key) (opt_state : OptState)
         (batch : Batch) (log_likelihood : Q),
    loss_fn params rng_key batch reg_value = Ok (loss, log_likelihood) /\
    Store.art_files a =
    [(checkpoint_file,
      msgpack_serialize_state_dict
        (apply_updates params
           (fst (optimizer_update
                   (loss_grad params rng_key batch reg_value)
                   opt_state params))))].

(** The checkpoints of a state: every logged version is the checkpoint of
    a recorded loss, and the newest one carries the alias "best" and is the
    checkpoint of the best loss. *)
Record checkpoints_ok (s : train_state) : Prop := {
  ok_all :
    Forall (fun a => exists loss,
                In loss (st_losses s) /\ post_update_checkpoint loss a)
      (Store.artifacts (st_store s));
  ok_head :
    match Store.artifacts (st_store s) with
    | [] => True
    | a :: _ =>
        Store.art_name a = Store.checkpoint_name (st_store s) /\
        mem_string "best" (Store.art_aliases a) = true /\
        below_activation_threshold (st_best_eval_loss s) = true /\
        post_update_checkpoint (st_best_eval_loss s) a
    end
}.

End Loop.

Arguments st_params {Params OptState Key} t.
Arguments st_opt_state {Params OptState Key} t.
Arguments st_rng {Params OptState Key} t.
Arguments st_rng_1 {Params OptState Key} t.
Arguments st_pulled {Params OptState Key} t.
Arguments st_losses {Params OptState Key} t.
Arguments st_log_liks {Params OptState Key} t.
Arguments st_losses_test {Params OptState Key} t.
Arguments st_losses_test_step {Params OptState Key} t.
Arguments st_log_liks_test {Params OptState Key} t.
Arguments st_best_eval_loss {Params OptState Key} t.
Arguments st_store {Params OptState Key} t.

End Training.

(** * [scripts/VAE_SD_C.py]: the objective *)

Module VAE_SD_C.

(** A batch of the COSMOS dataset as [VAE_SD_C.py] reads it. *)
Record Batch : Type := {
  image : list tensor;
  kpsf_real : list tensor;
  kpsf_imag : list tensor;
  ps : list tensor;
  noise_std : list tensor
}.

Section Objective.
(** The collaborators of [loss_fn]. *)
Variables Params Key Posterior Code : Type.
(** [Autoencoder.apply(params, x=x, seed=rng_key)]: the decoded images,
    the posterior and the latent sample drawn from it. *)
Variable Autoencoder_apply :
  Params -> list tensor -> Key -> list tensor * Posterior * Code.
(** [posterior.log_prob(code)], one row of values per example. *)
Variable posterior_log_prob : Posterior -> Code -> list tensor.
(** [tfd.MultivariateNormalDiag(loc, scale_diag).log_prob]. *)
Variable MultivariateNormalDiag_log_prob :
  Code -> list Q -> Code -> list tensor.
Variable zeros_like : Code -> Code.
(** [galsim_jax.convolution.convolve_kpsf] of an image with a complex
    kernel, given by its real and imaginary parts. *)
Variable convolve_kpsf : tensor -> tensor * tensor -> tensor.
(** The value of the Fourier branch of [loglikelihood_fn],
    [-0.5 * sum |xp - yp|^2] of the whitened transforms; the transform,
    the exponential and the square root are outside rational
    arithmetic. *)
Variable fourier_loglikelihood : tensor -> tensor -> tensor -> Q.

Definition loglikelihood_fn (x y noise : tensor) (type : string) : result Q :=
  if String.eqb type "Fourier" then
    Ok (fourier_loglikelihood x y noise)
  else if String.eqb type "Pixel" then
    d <- elementwise Qminus x y ;;
    Ok ((- (1 # 2)) * Qsum (map (fun v => Qabs v ^ 2) d) / (5 # 1000) ^ 2)%Q
  else Raise NotImplementedError.

(** [jax.vmap(partial(loglikelihood_fn, type=FLAGS.noise))]. *)
Definition loglikelihood_fn_vmap (noise_flag : string)
  (x y noise : list tensor) : result (list Q) :=
  vmap3 (fun xi yi ni => loglikelihood_fn xi yi ni noise_flag) x y noise.

Definition loss_fn (noise_flag : string) (params : Params) (rng_key : Key)
  (batch : Batch) (reg_term : Q) : result (Q * Q) :=
  let x := image batch in
  let ps := ps batch in
  let std := noise_std batch in
  kpsf <- vmap2 pair (kpsf_real batch) (kpsf_imag batch) ;;
  let '(q, posterior, code) := Autoencoder_apply params x rng_key in
  let log_prob := posterior_log_prob posterior code in
  p <- vmap2 convolve_kpsf q kpsf ;;
  log_likelihood <-
    (if String.eqb noise_flag "Fourier" then
       loglikelihood_fn_vmap noise_flag x p ps
     else if String.eqb noise_flag "Pixel" then
       loglikelihood_fn_vmap noise_flag x p std
     else Raise NotImplementedError) ;;
  (* KL divergence between the p(z|x) and p(z) *)
  let prior_log_prob :=
    MultivariateNormalDiag_log_prob (zeros_like code) [1%Q] code in
  diff <- vmap2 (elementwise Qminus) log_prob prior_log_prob ;;
  diff <- sequence diff ;;
  let kl := map Qsum diff in
  elbo <- elementwise Qminus log_likelihood (map (Qmult reg_term) kl) ;;
  let loss := (- Qmean elbo)%Q in
  Ok (loss, (- Qmean log_likelihood)%Q).

(** The term of [loss_fn] that [reg_term] scales. *)
Definition kl_term (params : Params) (rng_key : Key) (batch : Batch)
  : result (list Q) :=
  let '(q, posterior, code) :=
    Autoencoder_apply params (image batch) rng_key in
  let log_prob := posterior_log_prob posterior code in
  let prior_log_prob :=
    MultivariateNormalDiag_log_prob (zeros_like code) [1%Q] code in
  diff <- vmap2 (elementwise Qminus) log_prob prior_log_prob ;;
  diff <- sequence diff ;;
  Ok (map Qsum diff).

(** The term of [loss_fn] that [reg_term] does not scale: the
    log-likelihood of the images of the batch under their reconstruction,
    the decoded images convolved with the PSF, one value per example. *)
Definition log_likelihood_term (noise_flag : string) (params : Params)
  (rng_key : Key) (batch : Batch) : result (list Q) :=
  let x := image batch in
  let ps := ps batch in
  let std := noise_std batch in
  kpsf <- vmap2 pair (kpsf_real batch) (kpsf_imag batch) ;;
  let '(q, posterior, code) := Autoencoder_apply params x rng_key in
  p <- vmap2 convolve_kpsf q kpsf ;;
  if String.eqb noise_flag "Fourier" then
    loglikelihood_fn_vmap noise_flag x p ps
  else if String.eqb noise_flag "Pixel" then
    loglikelihood_fn_vmap noise_flag x p std
  else Raise NotImplementedError.

(** The fields of a batch and the decoded images have the same number of
    examples. *)
Definition well_shaped (params : Params) (rng_key : Key) (batch : Batch)
  : Prop :=
  length (kpsf_real batch) = length (kpsf_imag batch) /\
  length (fst (fst (Autoencoder_apply params (image batch) rng_key)))
  = length (kpsf_real batch).

End Objective.

(** [FLAGS], as far as [main] reads them here. *)
Record Flags : Type := {
  training_steps : Z;
  reg_value : Q;
  act_fn : string;
  opt : string;
  learning_rate : Q;
  alpha : Q;
  noise : string
}.

Section Main.
Context {Params : Type} `{Serialization Params}.
Variables OptState Key Posterior Code Grads Updates : Type.
Variable Autoencoder_apply :
  Params -> list tensor -> Key -> list tensor * Posterior * Code.
Variable posterior_log_prob : Posterior -> Code -> list tensor.
Variable MultivariateNormalDiag_log_prob :
  Code -> list Q -> Code -> list tensor.
Variable zeros_like : Code -> Code.
Variable convolve_kpsf : tensor -> tensor * tensor -> tensor.
Variable fourier_loglikelihood : tensor -> tensor -> tensor -> Q.
(** [jax.random.PRNGKey] and [jax.random.split]. *)
Variable PRNGKey : Z -> Key.
Variable random_split : Key -> Key * Key.
(** [Autoencoder.init] for an activation function, and the optimizer of a
    name: its [init] and its [update]. *)
Variable Autoencoder_init : string -> Key -> Key -> Params.
Variable optimizer_init : string -> Params -> OptState.
Variable optimizer_update :
  string -> Grads -> OptState -> Params -> Updates * OptState.
Variable apply_updates : Params -> Updates -> Params.
Variable loss_grad : string -> Params -> Key -> Batch -> Q -> Grads.
Variable train_stream : nat -> Batch.
Variable test_split : list Batch.
(** [wandb.run.id]. *)
Variable run_id : string.

(** [main] before its loop: everything from the dataset iterator to
    [best_eval_loss = 1e6].  [FLAGS.noise] is only bound into
    [loglikelihood_fn] by [partial]; nothing reads it here. *)
Definition setup (flags : Flags)
  : result (Training.train_state (Params := Params) OptState Key) :=
  let rng := PRNGKey 0 in
  let rng_2 := PRNGKey 1 in
  act <- Utils.get_activation_fn (act_fn flags) ;;
  let params := Autoencoder_init act rng rng_2 in
  (* batch_im = next(dset) *)
  let pulled := 1%nat in
  let '(rng_1, rng_2) := random_split rng_2 in
  optimizer <-
    Utils.new_optimizer (opt flags) (learning_rate flags) (alpha flags)
      (training_steps flags) ;;
  let opt_state := optimizer_init optimizer params in
  Ok {| Training.st_params := params;
        Training.st_opt_state := opt_state;
        Training.st_rng := rng;
        Training.st_rng_1 := rng_1;
        Training.st_pulled := pulled;
        Training.st_losses := [];
        Training.st_log_liks := [];
        Training.st_losses_test := [];
        Training.st_losses_test_step := [];
        Training.st_log_liks_test := [];
        Training.st_best_eval_loss := 1000000;
        Training.st_store :=
          {| Store.run_id := run_id; Store.files := [];
             Store.artifacts := [] |} |}.

(** [main]: the setup, then the loop and the summary.  The checkpoint has
    no activation threshold and the best checkpoint is not loaded back. *)
Definition main (flags : Flags)
  : result (outcome (Training.train_state (Params := Params) OptState Key)
            * option (result (Training.report (Params := Params)))) :=
  s0 <- setup flags ;;
  Ok (Training.run OptState Key Batch Grads Updates random_split train_stream
        test_split
        (loss_fn Params Key Posterior Code Autoencoder_apply
           posterior_log_prob MultivariateNormalDiag_log_prob zeros_like
           convolve_kpsf fourier_loglikelihood (noise flags))
        (loss_grad (noise flags))
        (optimizer_update (opt flags)) apply_updates (reg_value flags)
        None false (training_steps flags) s0).
End Main.

End VAE_SD_C.

(** * [scripts/VAE_Resnet_train_C.py]: the objective *)

Module VAE_Resnet_train_C.

Record Batch : Type := {
  image : list tensor;
  psf : list tensor;
  noise_std : list Q
}.

Section Objective.
Variables EncParams DecParams Key Dist Latent : Type.
(** [Encoder.apply(params_enc, x)]: the posterior over the latent. *)
Variable Encoder_apply : EncParams -> list tensor -> Dist.
(** [q.sample(seed=rng_key)]. *)
Variable sample : Dist -> Key -> Latent.
Variable Decoder_apply : DecParams -> Latent -> list tensor.
(** [galsim_jax.convolution.convolve] of an image with a PSF. *)
Variable convolve : tensor -> tensor -> tensor.
(** [tfd.MultivariateNormalDiag(loc, scale_diag)]; without a scale the
    distribution has unit scale. *)
Variable MultivariateNormalDiag : list tensor -> option (list Q) -> Dist.
Variable kl_divergence : Dist -> Dist -> tensor.
Variable log_prob : Dist -> list tensor -> tensor.
(** [jnp.zeros((1, 128, 128, 1))]. *)
Definition zeros_1_128_128_1 : list tensor := [repeat 0%Q (128 * 128)].

(** The distribution [p] that [loss_fn] builds for the observation: the
    decoded sample, convolved with the PSF, with the noise level of the
    batch as its scale. *)
Definition observation_distribution (params : EncParams * DecParams)
  (rng_key : Key) (batch : Batch) : result Dist :=
  let '(params_enc, params_dec) := params in
  let x := image batch in
  let std := noise_std batch in
  let q := Encoder_apply params_enc x in
  let z := sample q rng_key in
  let p := Decoder_apply params_dec z in
  p <- vmap2 convolve p (psf batch) ;;
  Ok (MultivariateNormalDiag p (Some std)).

Definition loss_fn (params : EncParams * DecParams) (rng_key : Key)
  (batch : Batch) (reg_term : Q) : result (Q * Q) :=
  let '(params_enc, params_dec) := params in
  let x := image batch in
  let std := noise_std batch in
  let q := Encoder_apply params_enc x in
  let z := sample q rng_key in
  let p := Decoder_apply params_dec z in
  p <- vmap2 convolve p (psf batch) ;;
  let p := MultivariateNormalDiag p (Some std) in
  (* KL divergence between the prior distribution and p *)
  let kl :=
    kl_divergence p (MultivariateNormalDiag zeros_1_128_128_1 None) in
  let log_likelihood := log_prob p x in
  elbo <- elementwise Qminus log_likelihood (map (Qmult reg_term) kl) ;;
  let loss := (- Qmean elbo)%Q in
  Ok (loss, (- Qmean log_likelihood)%Q).

(** The term of [loss_fn] that [reg_term] scales. *)
Definition kl_term (params : EncParams * DecParams) (rng_key : Key)
  (batch : Batch) : result tensor :=
  let '(params_enc, params_dec) := params in
  let x := image batch in
  let std := noise_std batch in
  let q := Encoder_apply params_enc x in
  let z := sample q rng_key in
  let p := Decoder_apply params_dec z in
  p <- vmap2 convolve p (psf batch) ;;
  let p := MultivariateNormalDiag p (Some std) in
  Ok (kl_divergence p (MultivariateNormalDiag zeros_1_128_128_1 None)).

(** The term of [loss_fn] that [reg_term] does not scale: the
    log-density of the images of the batch under [p]. *)
Definition log_likelihood_term (params : EncParams * DecParams)
  (rng_key : Key) (batch : Batch) : result tensor :=
  p <- observation_distribution params rng_key batch ;;
  Ok (log_prob p (image batch)).

(** The divergence the ELBO asks for: between the posterior of the
    encoder and the zero-mean prior. *)
Definition posterior_kl (params : EncParams * DecParams) (batch : Batch)
  (prior : Dist) : tensor :=
  kl_divergence (Encoder_apply (fst params) (image batch)) prior.
End Objective.

(** [FLAGS], as far as [main] reads them here. *)
Record Flags : Type := {
  training_steps : Z;
  reg_value : Q;
  act_fn : string
}.

Section Main.
Variables EncParams DecParams : Type.
Context `{Serialization (EncParams * DecParams)}.
Variables OptState Key Dist Latent Grads Updates : Type.
Variable Encoder_apply : EncParams -> list tensor -> Dist.
Variable sample : Dist -> Key -> Latent.
Variable Decoder_apply : DecParams -> Latent -> list tensor.
Variable convolve : tensor -> tensor -> tensor.
Variable MultivariateNormalDiag : list tensor -> option (list Q) -> Dist.
Variable kl_divergence : Dist -> Dist -> tensor.
Variable log_prob : Dist -> list tensor -> tensor.
Variable PRNGKey : Z -> Key.
Variable random_split : Key -> Key * Key.
(** [Encoder.init] and [Decoder.init] for an activation function. *)
Variable Encoder_init : string -> Key -> EncParams.
Variable Decoder_init : string -> Key -> DecParams.
(** [optax.chain(optax.adam(...), optax.scale_by_schedule(lr_schedule))]:
    its [init] and its [update]. *)
Variable optimizer_init : EncParams * DecParams -> OptState.
Variable optimizer_update :
  Grads -> OptState -> EncParams * DecParams -> Updates * OptState.
Variable apply_updates : EncParams * DecParams -> Updates -> EncParams * DecParams.
Variable loss_grad : EncParams * DecParams -> Key -> Batch -> Q -> Grads.
Variable train_stream : nat -> Batch.
Variable test_split : list Batch.
(** [wandb.run.id]. *)
Variable run_id : string.

(** [main] before its loop. *)
Definition setup (flags : Flags)
  : result (Training.train_state (Params := EncParams * DecParams)
              OptState Key) :=
  let rng := PRNGKey 0 in
  act <- Utils.get_activation_fn (act_fn flags) ;;
  let params_enc := Encoder_init act rng in
  (* batch_im = next(dset) *)
  let pulled := 1%nat in
  let '(rng, rng_1) := random_split rng in
  let params_dec := Decoder_init act rng_1 in
  let params := (params_enc, params_dec) in
  let opt_state := optimizer_init params in
  Ok {| Training.st_params := params;
        Training.st_opt_state := opt_state;
        Training.st_rng := rng;
        Training.st_rng_1 := rng_1;
        Training.st_pulled := pulled;
        Training.st_losses := [];
        Training.st_log_liks := [];
        Training.st_losses_test := [];
        Training.st_losses_test_step := [];
        Training.st_log_liks_test := [];
        Training.st_best_eval_loss := 1000000;
        Training.st_store :=
          {| Store.run_id := run_id; Store.files := [];
             Store.artifacts := [] |} |}.

(** [main]: the setup, then the loop and the summary.  A new best loss is
    saved when it is below [1], and the best checkpoint is loaded back
    after the loop. *)
Definition main (flags : Flags)
  : result (outcome (Training.train_state (Params := EncParams * DecParams)
                       OptState Key)
            * option (result (Training.report
                                (Params := EncParams * DecParams)))) :=
  s0 <- setup flags ;;
  Ok (Training.run OptState Key Batch Grads Updates random_split train_stream
        test_split
        (loss_fn EncParams DecParams Key Dist Latent Encoder_apply sample
           Decoder_apply convolve MultivariateNormalDiag kl_divergence
           log_prob)
        loss_grad optimizer_update apply_updates (reg_value flags)
        (Some 1%Q) true (training_steps flags) s0).
End Main.

End VAE_Resnet_train_C.




(** * Small worlds on which the scripts can be run *)

(** Collaborators that compute, standing in for the networks, the PSF and
    the distributions: a parameter tree that counts the updates applied to
    it, images of one or a few pixels, and normal distributions of unit
    scale, whose divergence is rational. *)
Module Toy.

Definition float32 : string := "float32".

(** A tree of one tensor holding [n] bytes. *)
Definition counter (n : nat) : Tree.ptree :=
  Tree.Leaf {| Tree.dtype := float32; Tree.shape := [N.of_nat n];
               Tree.data := repeat x01 n |}.

(** The number of bytes of a tree of one tensor. *)
Definition level (t : Tree.ptree) : nat :=
  match t with
  | Tree.Leaf x => length (Tree.data x)
  | Tree.Dict _ => O
  end.

(** One update step: one more byte. *)
Definition bump (t : Tree.ptree) : Tree.ptree := counter (S (level t)).

Definition PRNGKey (seed : Z) : N := Z.to_N seed.
Definition random_split (key : N) : N * N := (2 * key + 1, 2 * key + 2)%N.

(** ** A world for [VAE_SD_C.py] *)

(** The autoencoder reproduces its input; posterior and sample are the
    input too. *)
Definition Autoencoder_apply (params : Tree.ptree) (x : list tensor) (key : N)
  : list tensor * list tensor * list tensor := (x, x, x).

Definition posterior_log_prob (posterior code : list tensor) : list tensor :=
  code.

Definition zeros_like (code : list tensor) : list tensor :=
  map (map (fun _ => 0%Q)) code.

Definition prior_log_prob (loc : list tensor) (scale : list Q)
  (code : list tensor) : list tensor := loc.

(** The kernel acts pixel by pixel, through its real part. *)
Definition convolve_kpsf (img : tensor) (kpsf : tensor * tensor) : tensor :=
  zip_with Qmult img (fst kpsf).

Definition fourier_loglikelihood (x y noise : tensor) : Q := 0%Q.

(** A batch of one example of one pixel.  With the collaborators above,
    the pixel mode and [reg_term = 1], its loss is the value of the
    pixel. *)
Definition sd_batch (v : Q) : VAE_SD_C.Batch :=
  {| VAE_SD_C.image := [[v]];
     VAE_SD_C.kpsf_real := [[1%Q]];
     VAE_SD_C.kpsf_imag := [[0%Q]];
     VAE_SD_C.ps := [[1%Q]];
     VAE_SD_C.noise_std := [[1%Q]] |}.

(** A batch of one pixel [v] whose kernel scales it by [k]: the
    reconstruction is [k * v]. *)
Definition sd_batch_scaled (v k : Q) : VAE_SD_C.Batch :=
  {| VAE_SD_C.image := [[v]];
     VAE_SD_C.kpsf_real := [[k]];
     VAE_SD_C.kpsf_imag := [[0%Q]];
     VAE_SD_C.ps := [[1%Q]];
     VAE_SD_C.noise_std := [[1%Q]] |}.

(** The training stream whose batches have the pixels [trace], then [rest]
    for ever; its first element is the batch that the setup pulls. *)
Definition sd_stream (trace : list Q) (rest : Q) (i : nat) : VAE_SD_C.Batch :=
  sd_batch (nth i (0%Q :: trace) rest).

Definition sd_loss_fn (noise_flag : string)
  : Tree.ptree -> N -> VAE_SD_C.Batch -> Q -> result (Q * Q) :=
  VAE_SD_C.loss_fn Tree.ptree N (list tensor) (list tensor)
    Autoencoder_apply posterior_log_prob prior_log_prob zeros_like
    convolve_kpsf fourier_loglikelihood noise_flag.

Definition sd_setup (flags : VAE_SD_C.Flags) :=
  VAE_SD_C.setup unit N PRNGKey random_split
    (fun _ _ _ => counter 0) (fun _ _ => tt) "toy-run" flags.

(** [main] of [VAE_SD_C.py] in this world, on a training stream and a
    held-out split. *)
Definition sd_main (train_stream : nat -> VAE_SD_C.Batch)
  (test_split : list VAE_SD_C.Batch) (flags : VAE_SD_C.Flags) :=
  VAE_SD_C.main unit N (list tensor) (list tensor) unit unit
    Autoencoder_apply posterior_log_prob prior_log_prob zeros_like
    convolve_kpsf fourier_loglikelihood PRNGKey random_split
    (fun _ _ _ => counter 0) (fun _ _ => tt)
    (fun _ _ opt_state _ => (tt, opt_state)) (fun params _ => bump params)
    (fun _ _ _ _ _ => tt) train_stream test_split "toy-run" flags.

(** ** A world for [VAE_Resnet_train_C.py] *)

(** A normal distribution of unit scale is given by its location. *)
Definition Dist : Type := list tensor.

(** The posterior of the encoder is the standard normal on a latent of the
    shape of the image: it is the prior itself. *)
Definition Encoder_apply (params_enc : Tree.ptree) (x : list tensor) : Dist :=
  map (map (fun _ => 0%Q)) x.

(** The sample is the location. *)
Definition sample (d : Dist) (key : N) : list tensor := d.

(** The decoder adds the level of its parameters to every pixel. *)
Definition Decoder_apply (params_dec : Tree.ptree) (z : list tensor)
  : list tensor :=
  map (map (fun v => (v + inject_Z (Z.of_nat (level params_dec)))%Q)) z.

Definition convolve (img psf : tensor) : tensor := img.

(** Every scale is read as the unit scale: the world is used with
    [noise_std = 1] only. *)
Definition MultivariateNormalDiag (loc : list tensor) (scale : option (list Q))
  : Dist := loc.

(** The divergence of two unit-scale normals, [(m1 - m2)^2 / 2] in every
    coordinate; the second distribution has one example, which every
    example of the first one meets. *)
Definition kl_divergence (p prior : Dist) : tensor :=
  flat_map
    (fun loc => zip_with (fun m1 m2 => ((m1 - m2) ^ 2 / 2)%Q) loc
                  (hd [] prior)) p.

(** The log-density of a unit-scale normal, without its constant
    [- ln (2 pi) / 2], which is not rational. *)
Definition log_prob (p : Dist) (x : list tensor) : tensor :=
  concat (zip_with (zip_with (fun m v => (- ((v - m) ^ 2 / 2))%Q)) p x).

Definition resnet_batch (pixels : tensor) : VAE_Resnet_train_C.Batch :=
  {| VAE_Resnet_train_C.image := [pixels];
     VAE_Resnet_train_C.psf := [[1%Q]];
     VAE_Resnet_train_C.noise_std := [1%Q] |}.

Definition resnet_stream (trace : list Q) (rest : Q) (i : nat)
  : VAE_Resnet_train_C.Batch :=
  resnet_batch [nth i (0%Q :: trace) rest].

Definition resnet_loss_fn
  : Tree.ptree * Tree.ptree -> N -> VAE_Resnet_train_C.Batch -> Q
    -> result (Q * Q) :=
  VAE_Resnet_train_C.loss_fn Tree.ptree Tree.ptree N Dist (list tensor)
    Encoder_apply sample Decoder_apply convolve MultivariateNormalDiag
    kl_divergence log_prob.

Definition resnet_kl_term
  : Tree.ptree * Tree.ptree -> N -> VAE_Resnet_train_C.Batch
    -> result tensor :=
  VAE_Resnet_train_C.kl_term Tree.ptree Tree.ptree N Dist (list tensor)
    Encoder_apply sample Decoder_apply convolve MultivariateNormalDiag
    kl_divergence.

(** [main] of [VAE_Resnet_train_C.py] in this world. *)
Definition resnet_main (train_stream : nat -> VAE_Resnet_train_C.Batch)
  (test_split : list VAE_Resnet_train_C.Batch)
  (flags : VAE_Resnet_train_C.Flags) :=
  VAE_Resnet_train_C.main Tree.ptree Tree.ptree unit N Dist (list tensor)
    unit unit Encoder_apply sample Decoder_apply convolve
    MultivariateNormalDiag kl_divergence log_prob PRNGKey random_split
    (fun _ _ => counter 0) (fun _ _ => counter 0) (fun _ => tt)
    (fun _ opt_state _ => (tt, opt_state))
    (fun params _ => (fst params, bump (snd params)))
    (fun _ _ _ _ => tt) train_stream test_split "toy-run" flags.

(** ** The loop of the scripts in these worlds *)

(** The state in which both setups leave the loop to start, in these
    worlds: no update applied, one batch pulled, no checkpoint. *)
Definition initial_state {Params : Type} (params : Params)
  : Training.train_state (Params := Params) unit N :=
  {| Training.st_params := params;
     Training.st_opt_state := tt;
     Training.st_rng := 0%N;
     Training.st_rng_1 := 0%N;
     Training.st_pulled := 1%nat;
     Training.st_losses := [];
     Training.st_log_liks := [];
     Training.st_losses_test := [];
     Training.st_losses_test_step := [];
     Training.st_log_liks_test := [];
     Training.st_best_eval_loss := 1000000;
     Training.st_store :=
       {| Store.run_id := "toy-run"; Store.files := [];
          Store.artifacts := [] |} |}.

(** The loop of [VAE_SD_C.py] (pixel mode, coefficient 1), with the
    activation threshold left open. *)
Definition sd_training_loop (activation_threshold : option Q)
  (train_stream : nat -> VAE_SD_C.Batch) (test_split : list VAE_SD_C.Batch)
  (steps : Z) (s : Training.train_state (Params := Tree.ptree) unit N) :=
  Training.training_loop unit N VAE_SD_C.Batch unit unit random_split
    train_stream test_split (sd_loss_fn "Pixel") (fun _ _ _ _ => tt)
    (fun _ opt_state _ => (tt, opt_state)) (fun params _ => bump params)
    1%Q activation_threshold steps s.

(** The loop of [VAE_Resnet_train_C.py] (coefficient 0, threshold 1). *)
Definition resnet_training_loop
  (train_stream : nat -> VAE_Resnet_train_C.Batch)
  (test_split : list VAE_Resnet_train_C.Batch) (steps : Z)
  (s : Training.train_state (Params := Tree.ptree * Tree.ptree) unit N) :=
  Training.training_loop unit N VAE_Resnet_train_C.Batch unit unit
    random_split train_stream test_split resnet_loss_fn (fun _ _ _ _ => tt)
    (fun _ opt_state _ => (tt, opt_state))
    (fun params _ => (fst params, bump (snd params)))
    0%Q (Some 1%Q) steps s.

(** The trace of losses of the specification, and flags for it. *)
Definition spec_trace : list Q := [5; 2; 3; 8 # 10; 9 # 10]%Q.

(** The trace with the parameters of each step: the tree after [k]
    updates at step [k]. *)
Definition spec_trace_params : list (Q * Tree.ptree) :=
  [(5, counter 1); (2, counter 2); (3, counter 3);
   (8 # 10, counter 4); (9 # 10, counter 5)]%Q.

Definition empty_store : Store.store :=
  {| Store.run_id := "toy-run"; Store.files := []; Store.artifacts := [] |}.

Definition sd_flags (steps : Z) (noise : string) : VAE_SD_C.Flags :=
  {| VAE_SD_C.training_steps := steps;
     VAE_SD_C.reg_value := 1%Q;
     VAE_SD_C.act_fn := "gelu";
     VAE_SD_C.opt := "adafactor";
     VAE_SD_C.learning_rate := 1 # 1000;
     VAE_SD_C.alpha := 0;
     VAE_SD_C.noise := noise |}.

Definition resnet_flags (steps : Z) : VAE_Resnet_train_C.Flags :=
  {| VAE_Resnet_train_C.training_steps := steps;
     VAE_Resnet_train_C.reg_value := 0%Q;
     VAE_Resnet_train_C.act_fn := "gelu" |}.

End Toy.

(** The pixel log-likelihood in the words of the specification:
    [-0.5 * sum((observed - predicted)^2) / std^2]. *)
Definition pixel_loglikelihood_spec (std : Q) (observed predicted : tensor) : Q :=
  (- (1 # 2) * Qsum (zip_with (fun o p => (o - p) ^ 2) observed predicted)
   / std ^ 2)%Q.

(** * The run folder, the plots and the sample images of [galsim_jax/utils.py] *)

(** ** Strings as Python reads them *)

Module PyString.

(** [s.find(pat)] from position [i] on: the lowest index at which [pat]
    starts, [-1] when it starts nowhere. *)
Fixpoint find_from (pat s : string) (i : Z) : Z :=
  if String.prefix pat s then i
  else
    match s with
    | EmptyString => -1
    | String _ rest => find_from pat rest (i + 1)
    end.

Definition find (s pat : string) : Z := find_from pat s 0.

(** An index of a slice as Python reads it: counted from the end when it
    is negative, and brought back into the string. *)
Definition slice_index (len i : Z) : Z :=
  if i <? 0 then Z.max 0 (i + len) else Z.min i len.

(** [s[a:b]]. *)
Definition slice (s : string) (a b : Z) : string :=
  let len := Z.of_nat (String.length s) in
  let a' := slice_index len a in
  let b' := slice_index len b in
  if a' <? b' then substring (Z.to_nat a') (Z.to_nat (b' - a')) s
  else EmptyString.

(** The first position at which [pat] starts in [s], when there is one. *)
Fixpoint first_occurrence (pat s : string) : option nat :=
  if String.prefix pat s then Some O
  else
    match s with
    | EmptyString => None
    | String _ rest => option_map S (first_occurrence pat rest)
    end.

(** [c not in s] for a character. *)
Fixpoint lacks (c : ascii) (s : string) : bool :=
  match s with
  | EmptyString => true
  | String c' rest => negb (Ascii.eqb c' c) && lacks c rest
  end.

End PyString.

Definition get_wandb_local_dir (wandb_local_dir : string) : string :=
  let start_index :=
    PyString.find wandb_local_dir "wandb/"
    + Z.of_nat (String.length "wandb/") in
  let end_index := PyString.find wandb_local_dir "/files" in
  let run_string := PyString.slice wandb_local_dir start_index end_index in
  run_string.

(** ** Arrays of images *)

Module Numpy.

(** The exceptions of the array operations: [IndexError], the
    [ValueError] of a reduction over no element, and the error of two
    shapes that do not go together (a [ValueError] in NumPy, a [TypeError]
    or a [ValueError] in JAX, with its version). *)
Inductive np_exn : Type :=
| NpIndexError
| NpValueError
| NpBroadcastError.

Inductive np_result (A : Type) : Type :=
| NpOk (a : A)
| NpRaise (e : np_exn).

Arguments NpOk {A} a.
Arguments NpRaise {A} e.

Definition np_bind {A B : Type} (r : np_result A) (k : A -> np_result B)
  : np_result B :=
  match r with
  | NpOk a => k a
  | NpRaise e => NpRaise e
  end.

(** The value of a reduction: a number, or NaN. *)
Inductive npfloat : Type :=
| Num (q : Q)
| NaN.

(** An image: rows of pixels, each pixel with the values of its channels
    (the last axis). *)
Definition image : Type := list (list (list Q)).

Fixpoint np_sequence {A : Type} (l : list (np_result A))
  : np_result (list A) :=
  match l with
  | [] => NpOk []
  | r :: rest =>
      np_bind r (fun a =>
      np_bind (np_sequence rest) (fun others => NpOk (a :: others)))
  end.

(** One axis of a binary operation with broadcasting: axes of the same
    length go element by element, an axis of length 1 is repeated along the
    other one, and other lengths do not go together. *)
Definition broadcast {A B C : Type} (f : A -> B -> np_result C)
  (a : list A) (b : list B) : np_result (list C) :=
  if (length a =? length b)%nat then np_sequence (zip_with f a b)
  else match a, b with
       | [x], _ => np_sequence (map (f x) b)
       | _, [y] => np_sequence (map (fun x => f x y) a)
       | _, _ => NpRaise NpBroadcastError
       end.

(** [a - b] for two images. *)
Definition image_sub (a b : image) : np_result image :=
  broadcast (broadcast (broadcast (fun x y => NpOk (x - y)%Q))) a b.

(** [a.mean(axis=-1)]: the mean over the channels of every pixel; the mean
    of no channel is NaN. *)
Definition np_mean (l : list Q) : npfloat :=
  match l with
  | [] => NaN
  | _ :: _ => Num (Qmean l)
  end.

Definition mean_last_axis (a : image) : list (list npfloat) :=
  map (map np_mean) a.

Definition np_minimum (a b : npfloat) : npfloat :=
  match a, b with
  | Num x, Num y => Num (if Qltb y x then y else x)
  | _, _ => NaN
  end.

Definition np_maximum (a b : npfloat) : npfloat :=
  match a, b with
  | Num x, Num y => Num (if Qltb x y then y else x)
  | _, _ => NaN
  end.

(** [np.min] and [np.max] of the elements of an array: a NaN among them
    gives NaN, and a reduction over no element raises. *)
Definition np_min (l : list npfloat) : np_result npfloat :=
  match l with
  | [] => NpRaise NpValueError
  | x :: rest => NpOk (fold_left np_minimum rest x)
  end.

Definition np_max (l : list npfloat) : np_result npfloat :=
  match l with
  | [] => NpRaise NpValueError
  | x :: rest => NpOk (fold_left np_maximum rest x)
  end.

(** [a - b] for two arrays of means. *)
Definition np_sub (a b : npfloat) : npfloat :=
  match a, b with
  | Num x, Num y => Num (x - y)
  | _, _ => NaN
  end.

(** Two values of a reduction that agree: the same number, or NaN both. *)
Definition npfloat_eq (a b : npfloat) : Prop :=
  match a, b with
  | Num x, Num y => (x == y)%Q
  | NaN, NaN => True
  | _, _ => False
  end.

(** [a[i, ...]] for an array of images. *)
Class Array (A : Type) : Type := index : A -> nat -> np_result image.

(** NumPy's arrays: an index past the end raises [IndexError]. *)
#[export] Instance ndarray : Array (list image) :=
  fun a i =>
    match nth_error a i with
    | Some img => NpOk img
    | None => NpRaise NpIndexError
    end.

End Numpy.

(** ** [norm_values_one_diff] and the difference panel of [save_samples] *)

Module Samples.
Import Numpy.

Notation "x <- r ;;; k" := (np_bind r (fun x => k))
  (at level 61, r at next level, right associativity).

Section Arrays.

Context {Orig Inf1 : Type} `{Array Orig} `{Array Inf1}.

(** The loop of [norm_values_one_diff] over the indices [indices]: the
    lists [min_values] and [max_values] that it fills. *)
Fixpoint norm_values_loop (orig : Orig) (inf1 : Inf1) (indices : list nat)
  : np_result (list npfloat * list npfloat) :=
  match indices with
  | [] => NpOk ([], [])
  | i :: rest =>
      orig_img <- index orig i ;;;
      inf1_img <- index inf1 i ;;;
      diff_1 <- image_sub inf1_img orig_img ;;;
      low <- np_min (concat (mean_last_axis diff_1)) ;;;
      high <- np_max (concat (mean_last_axis diff_1)) ;;;
      values <- norm_values_loop orig inf1 rest ;;;
      NpOk (low :: fst values, high :: snd values)
  end.

Definition norm_values_one_diff (orig : Orig) (inf1 : Inf1)
  (num_images : nat) : np_result (npfloat * npfloat) :=
  values <- norm_values_loop orig inf1 (seq 0 num_images) ;;;
  low <- np_min (fst values) ;;;
  high <- np_max (snd values) ;;;
  NpOk (low, high).

(** What the loop has read and recorded for image [i] when it returns. *)
Definition recorded (orig : Orig) (inf1 : Inf1) (i : nat)
  (low high : npfloat) : Prop :=
  exists o p d,
    index orig i = NpOk o /\ index inf1 i = NpOk p /\
    image_sub p o = NpOk d /\
    np_min (concat (mean_last_axis d)) = NpOk low /\
    np_max (concat (mean_last_axis d)) = NpOk high.

(** The fourth panel of a row of [save_samples]:
    [conv_img.mean(axis=-1) - batch_img.mean(axis=-1)]. *)
Definition difference_panel (batch_img conv_img : image)
  : np_result (list (list npfloat)) :=
  broadcast (broadcast (fun x y => NpOk (np_sub x y)))
    (mean_last_axis conv_img) (mean_last_axis batch_img).

End Arrays.

(** Two images of two pixels with one channel each. *)
Definition example_batch : list image :=
  [ [[[0]; [1]]]; [[[2]; [2]]] ]%Q.

Definition example_conv : list image :=
  [ [[[1]; [1]]]; [[[0]; [5]]] ]%Q.

(** An image whose only pixel has no channel. *)
Definition example_no_channel : list image := [ [[[]]] ].

End Samples.

(** ** [save_plot_as_image] *)

Module Plotting.

(** What [save_plot_as_image] leaves outside: the images written by
    [plt.savefig], the keys logged to the tracker, and the lines
    printed. *)
Record plot_world : Type := {
  saved_images : list string;
  logged_keys : list string;
  printed : list string
}.

Definition plot_types : list string :=
  ["line"; "loglog"; "semilogy"; "semilogx"; "scatter"]%string.

(** [os.path.join(a, b)] on POSIX. *)
Definition ends_with_slash (s : string) : bool :=
  match String.length s with
  | O => false
  | S n => match String.get n s with
           | Some c => Ascii.eqb c Store.slash
           | None => false
           end
  end.

Definition os_path_join (a b : string) : string :=
  match b with
  | String c _ =>
      if Ascii.eqb c Store.slash then b
      else if ((String.length a =? 0)%nat || ends_with_slash a)%bool
           then (a ++ b)%string
           else (a ++ "/" ++ b)%string
  | EmptyString =>
      if ((String.length a =? 0)%nat || ends_with_slash a)%bool then a
      else (a ++ "/")%string
  end.

(** [s.split(".")[0]]: what precedes the first dot. *)
Fixpoint before_first_dot (s : string) : string :=
  match s with
  | EmptyString => EmptyString
  | String c rest =>
      if Ascii.eqb c "."%char then EmptyString
      else String c (before_first_dot rest)
  end.

Definition save_plot_as_image (folder_path plot_type file_name : string)
  (w : plot_world) : plot_world :=
  if mem_string plot_type plot_types then
    let file_path := os_path_join folder_path file_name in
    {| saved_images := saved_images w ++ [file_path];
       logged_keys := logged_keys w ++ [before_first_dot file_name];
       printed := printed w ++ ["Plot saved as " ++ file_path]%string |}
  else
    {| saved_images := saved_images w;
       logged_keys := logged_keys w;
       printed := printed w ++ ["Invalid plot type!"%string] |}.

End Plotting.

(** * The best loss and the newest checkpoint along a run *)

Module BestCheckpoint.
Section Invariant.
Context {Params : Type}.
Variables OptState Key : Type.
Variable activation_threshold : option Q.

(** The state of the best loss and of the newest checkpoint, from a start
    with the best loss [best0], no recorded loss and no checkpoint. *)
Record best_checkpoint_inv (best0 : Q) (s : Training.train_state (Params := Params) OptState Key) : Prop := {
  inv_best : Training.st_best_eval_loss s = list_min best0 (Training.st_losses s);
  inv_none :
    Store.artifacts (Training.st_store s) <> [] ->
    Qltb (Training.st_best_eval_loss s) best0 = true /\
    Training.below_activation_threshold activation_threshold (Training.st_best_eval_loss s) = true;
  inv_head :
    Qltb (Training.st_best_eval_loss s) best0 = true ->
    Training.below_activation_threshold activation_threshold (Training.st_best_eval_loss s) = true ->
    exists a older,
      Store.artifacts (Training.st_store s) = a :: older /\
      Store.art_aliases a =
      ["best";
       "step_" ++ Store.str_of_int
                    (Z.of_nat (list_index (Training.st_best_eval_loss s) (Training.st_losses s))
                     + 1)]%string
}.

End Invariant.
End BestCheckpoint.

(** * Theorems *)

Lemma Qltb_lt (a b : Q) : Qltb a b = true <-> (a < b)%Q.
Proof. unfold Qltb, Qlt. apply Z.ltb_lt. Qed.

Lemma Qltb_ge (a b : Q) : Qltb a b = false <-> (b <= a)%Q.
Proof. unfold Qltb, Qle. apply Z.ltb_ge. Qed.

Module UtilsFacts.
Import Utils.

Lemma steps_per_epoch_val : steps_per_epoch = 428.
Proof. reflexivity. Qed.

(** The schedule, region by region. *)
Lemma lr_schedule_cases (step : Z) :
  (step <= 17120 /\ lr_schedule step = Some 1%Q) \/
  (17120 < step <= 42800 /\ lr_schedule step = Some (1 # 10)%Q) \/
  (42800 < step <= 68480 /\ lr_schedule step = Some (1 # 100)%Q) \/
  (68480 < step /\ lr_schedule step = Some (1 # 1000)%Q).
Proof.
  assert (E : lr_schedule step =
    jnp_take values (jnp_sum_bool
      [17120 <? step; 42800 <? step; 68480 <? step])) by reflexivity.
  rewrite E; clear E.
  destruct (Z.ltb_spec 17120 step), (Z.ltb_spec 42800 step),
    (Z.ltb_spec 68480 step); try lia;
    [ right; right; right | right; right; left | right; left | left ];
    split; (lia || reflexivity).
Qed.

(** C9.  For steps [s <= t] the multiplier at [t] is at most the one at
    [s]; every multiplier is an entry of the table [1, 0.1, 0.01, 0.001];
    before the first boundary (epoch 40) it is [1]. *)
Theorem lr_schedule_monotone (s t : Z) (Hst : s <= t) :
  exists ms mt : Q,
    lr_schedule s = Some ms /\ lr_schedule t = Some mt /\
    (mt <= ms)%Q /\
    In ms values /\ In mt values /\
    (s < 40 * steps_per_epoch -> ms = 1%Q).
Proof.
  destruct (lr_schedule_cases s) as [[Hs Es]|[[Hs Es]|[[Hs Es]|[Hs Es]]]];
  destruct (lr_schedule_cases t) as [[Ht Et]|[[Ht Et]|[[Ht Et]|[Ht Et]]]];
    try lia;
    rewrite Es, Et; eexists; eexists;
    (split; [reflexivity|]); (split; [reflexivity|]);
    (split; [unfold Qle; cbn; lia|]);
    (split; [cbn; tauto|]); (split; [cbn; tauto|]);
    rewrite steps_per_epoch_val; intros; try reflexivity; lia.
Qed.

Lemma lr_schedule_monotone_witness :
  exists ms mt : Q,
    Utils.lr_schedule 17000 = Some ms /\ Utils.lr_schedule 50000 = Some mt /\
    (mt <= ms)%Q /\
    In ms Utils.values /\ In mt Utils.values /\
    (17000 < 40 * Utils.steps_per_epoch -> ms = 1%Q).
Proof. apply (lr_schedule_monotone 17000 50000); lia. Defined.

End UtilsFacts.

(** * The byte format round-trips *)

Module TreeFacts.
Import Tree.

Section PtreeInd.
Variable P : ptree -> Prop.
Hypothesis HLeaf : forall x, P (Leaf x).
Hypothesis HDict :
  forall items, Forall (fun kv => P (snd kv)) items -> P (Dict items).

Fixpoint ptree_nested_ind (t : ptree) : P t :=
  match t with
  | Leaf x => HLeaf x
  | Dict items =>
      HDict items
        ((fix children (l : list (string * ptree))
            : Forall (fun kv => P (snd kv)) l :=
            match l with
            | [] => Forall_nil _
            | (k, v) :: rest =>
                Forall_cons (k, v) (ptree_nested_ind v) (children rest)
            end) items)
  end.
End PtreeInd.

Lemma to_N_byte_of_N (n : N) : (n < 256)%N -> Byte.to_N (byte_of_N n) = n.
Proof.
  intros Hn. unfold byte_of_N.
  destruct (Byte.of_N n) as [b|] eqn:E.
  - now apply Byte.to_of_N.
  - apply Byte.of_N_None_iff in E. lia.
Qed.

Lemma decode_encode_varint_fuel (fuel : nat) :
  forall (n : N) (rest : list byte),
    (n < 2 ^ N.of_nat fuel)%N ->
    decode_varint (encode_varint_fuel fuel n ++ rest) = Ok (n, rest).
Proof.
  induction fuel as [|fuel IH]; intros n rest Hn.
  - change (2 ^ N.of_nat 0)%N with 1%N in Hn.
    assert (n = 0%N) by lia. subst n. reflexivity.
  - cbn [encode_varint_fuel].
    destruct (N.ltb_spec n 128) as [Hlt|Hge].
    + cbn [app decode_varint].
      rewrite to_N_byte_of_N by lia.
      destruct (N.ltb_spec n 128); [reflexivity|lia].
    + cbn [app decode_varint].
      assert (Hm : (n mod 128 < 128)%N) by (apply N.mod_lt; discriminate).
      assert (Hq : (n / 128 < 2 ^ N.of_nat fuel)%N).
      { rewrite Nat2N.inj_succ, N.pow_succ_r' in Hn.
        apply N.Div0.div_lt_upper_bound.
        generalize dependent (2 ^ N.of_nat fuel)%N. intros; lia. }
      pose proof (N.div_mod' n 128) as Hdm.
      specialize (IH (n / 128)%N rest Hq).
      generalize dependent (n / 128)%N. generalize dependent (n mod 128)%N.
      intros m Hm q IH Hq Hdm.
      rewrite to_N_byte_of_N by lia.
      destruct (N.ltb_spec (128 + m) 128); [lia|].
      rewrite IH. cbn [bind]. f_equal. f_equal. lia.
Qed.

Lemma decode_encode_varint (n : N) (rest : list byte) :
  decode_varint (encode_varint n ++ rest) = Ok (n, rest).
Proof.
  unfold encode_varint. apply decode_encode_varint_fuel.
  rewrite N2Nat.id. apply N.size_gt.
Qed.

Lemma take_bytes_app (bs rest : list byte) :
  take_bytes (length bs) (bs ++ rest) = Ok (bs, rest).
Proof.
  induction bs as [|b bs IH]; cbn; [reflexivity|].
  now rewrite IH.
Qed.

Lemma decode_encode_bytes (bs rest : list byte) :
  decode_bytes (encode_bytes bs ++ rest) = Ok (bs, rest).
Proof.
  unfold decode_bytes, encode_bytes.
  rewrite <- app_assoc, decode_encode_varint. cbn [bind].
  rewrite Nat2N.id. apply take_bytes_app.
Qed.

Lemma decode_encode_string (s : string) (rest : list byte) :
  decode_string (encode_string s ++ rest) = Ok (s, rest).
Proof.
  unfold decode_string, encode_string.
  rewrite decode_encode_bytes. cbn [bind].
  now rewrite string_of_list_byte_of_string.
Qed.

Lemma decode_encode_dims (dims : list N) (rest : list byte) :
  decode_dims (length dims) (encode_dims dims ++ rest) = Ok (dims, rest).
Proof.
  induction dims as [|d ds IH]; cbn [length encode_dims decode_dims app];
    [reflexivity|].
  rewrite <- app_assoc, decode_encode_varint. cbn [bind].
  now rewrite IH.
Qed.

Lemma decode_encode_tensor (t : tensor) (rest : list byte) :
  decode_tensor (encode_tensor t ++ rest) = Ok (t, rest).
Proof.
  destruct t as [ty dims raw].
  unfold decode_tensor, encode_tensor. cbn [dtype shape data].
  repeat rewrite <- app_assoc.
  rewrite decode_encode_string. cbn [bind].
  rewrite decode_encode_varint. cbn [bind].
  rewrite Nat2N.id, decode_encode_dims. cbn [bind].
  now rewrite decode_encode_bytes.
Qed.

Lemma encode_Dict (items : list (string * ptree)) :
  encode (Dict items) =
  tag_dict :: encode_varint (N.of_nat (length items)) ++ encode_items items.
Proof.
  reflexivity.
Qed.

Lemma decode_Dict (items : list (string * ptree)) (tag : byte) (body : list byte) :
  decode (Dict items) (tag :: body) =
  if Byte.eqb tag tag_dict then
    '(n, r1) <- decode_varint body ;;
    if (n =? N.of_nat (length items))%N then
      '(its, r2) <- decode_items items r1 ;;
      Ok (Dict its, r2)
    else Raise CheckpointShapeMismatch
  else Raise CheckpointShapeMismatch.
Proof.
  reflexivity.
Qed.

(** Reading what [encode] wrote, with the written tree as the template,
    gives the tree back and leaves what follows it untouched. *)
Lemma decode_encode (t : ptree) :
  forall rest, decode t (encode t ++ rest) = Ok (t, rest).
Proof.
  induction t as [x|items IH] using ptree_nested_ind; intros rest.
  - cbn [encode app decode]. change (Byte.eqb tag_leaf tag_leaf) with true.
    cbv iota. now rewrite decode_encode_tensor.
  - rewrite encode_Dict. cbn [app]. rewrite decode_Dict.
    change (Byte.eqb tag_dict tag_dict) with true. cbv iota.
    rewrite <- app_assoc, decode_encode_varint. cbn [bind].
    rewrite N.eqb_refl.
    assert (H : decode_items items (encode_items items ++ rest)
                = Ok (items, rest)).
    { clear - IH. induction IH as [|[k v] l Hv _ IHl]; [reflexivity|].
      cbn [encode_items decode_items]. repeat rewrite <- app_assoc.
      rewrite decode_encode_string. cbn [bind].
      rewrite String.eqb_refl. cbn [snd] in Hv. rewrite Hv. cbn [bind].
      now rewrite IHl. }
    now rewrite H.
Qed.

Lemma from_bytes_encode (t : ptree) : from_bytes t (encode t) = Ok t.
Proof.
  unfold from_bytes.
  rewrite <- (app_nil_r (encode t)), decode_encode. reflexivity.
Qed.

Lemma same_structure_Dict (ia ib : list (string * ptree)) :
  same_structure (Dict ia) (Dict ib) = same_items ia ib.
Proof. reflexivity. Qed.

Lemma same_items_length (la lb : list (string * ptree)) :
  same_items la lb = true -> length lb = length la.
Proof.
  revert lb. induction la as [|[ka va] ra IH]; intros [|[kb vb] rb] Hs;
    cbn in Hs; try discriminate; [reflexivity|].
  apply andb_prop in Hs as [_ Hs]. cbn. f_equal. now apply IH.
Qed.

(** Reading a tree along a template of the same structure gives the tree
    back: the tensors of the template are not looked at. *)
Lemma decode_encode_template (template : ptree) :
  forall t rest,
    same_structure template t = true ->
    decode template (encode t ++ rest) = Ok (t, rest).
Proof.
  induction template as [x|items IH] using ptree_nested_ind;
    intros [y|items'] rest Hs; try discriminate Hs.
  - cbn [encode app decode]. change (Byte.eqb tag_leaf tag_leaf) with true.
    cbv iota. now rewrite decode_encode_tensor.
  - rewrite same_structure_Dict in Hs.
    rewrite encode_Dict. cbn [app]. rewrite decode_Dict.
    change (Byte.eqb tag_dict tag_dict) with true. cbv iota.
    rewrite <- app_assoc, decode_encode_varint. cbn [bind].
    rewrite (same_items_length _ _ Hs), N.eqb_refl.
    assert (H : decode_items items (encode_items items' ++ rest)
                = Ok (items', rest)).
    { clear - IH Hs. revert items' Hs.
      induction IH as [|[k v] l Hv _ IHl]; intros [|[k' v'] l'] Hs;
        cbn in Hs; try discriminate; [reflexivity|].
      apply andb_prop in Hs as [Hs Hl]. apply andb_prop in Hs as [Hk Hv'].
      cbn [encode_items decode_items]. repeat rewrite <- app_assoc.
      rewrite decode_encode_string. cbn [bind].
      rewrite Hk. cbn [snd] in Hv. rewrite (Hv _ _ Hv'). cbn [bind].
      now rewrite (IHl _ Hl). }
    now rewrite H.
Qed.

Lemma from_bytes_template (template t : ptree) :
  same_structure template t = true ->
  Tree.from_bytes template (encode t) = Ok t.
Proof.
  intros Hs. unfold Tree.from_bytes.
  rewrite <- (app_nil_r (encode t)), decode_encode_template by assumption.
  reflexivity.
Qed.

(** A stored tree whose structure differs from the template at the root is
    refused with a shape mismatch. *)
Lemma from_bytes_root_mismatch (x : tensor) (items : list (string * ptree)) :
  Tree.from_bytes (Leaf x) (encode (Dict items))
  = Raise CheckpointShapeMismatch /\
  Tree.from_bytes (Dict items) (encode (Leaf x))
  = Raise CheckpointShapeMismatch.
Proof. split; reflexivity. Qed.

End TreeFacts.

(** * The objective *)

Lemma Qsum_Forall2 (a b : list Q) :
  Forall2 Qeq a b -> (Qsum a == Qsum b)%Q.
Proof.
  induction 1 as [|x y a b Hxy _ IH]; cbn; [reflexivity|].
  now rewrite Hxy, IH.
Qed.

Lemma Qmean_Forall2 (a b : list Q) :
  Forall2 Qeq a b -> (Qmean a == Qmean b)%Q.
Proof.
  intros H. unfold Qmean.
  rewrite (Forall2_length H), (Qsum_Forall2 a b H). reflexivity.
Qed.

Lemma Qabs_square (v : Q) : (Qabs v ^ 2 == v ^ 2)%Q.
Proof.
  cbn. apply Qabs_case; intros _; ring.
Qed.

Lemma elementwise_Ok (f : Q -> Q -> Q) (a b : tensor) :
  length a = length b -> elementwise f a b = Ok (zip_with f a b).
Proof.
  intros H. unfold elementwise. now rewrite H, Nat.eqb_refl.
Qed.

Lemma elementwise_inv (f : Q -> Q -> Q) (a b c : tensor) :
  elementwise f a b = Ok c -> length a = length b /\ c = zip_with f a b.
Proof.
  unfold elementwise. destruct (Nat.eqb_spec (length a) (length b)).
  - intros [= <-]. now split.
  - discriminate.
Qed.

(** With a zero coefficient the ELBO of every element is its
    log-likelihood. *)
Lemma elbo_reg_zero (log_likelihood kl : tensor) :
  length log_likelihood = length kl ->
  Forall2 Qeq
    (zip_with Qminus log_likelihood (map (Qmult 0) kl)) log_likelihood.
Proof.
  revert kl.
  induction log_likelihood as [|l ls IH]; intros [|k ks] Hlen;
    try discriminate; cbn; constructor.
  - ring.
  - apply IH. now injection Hlen.
Qed.

Lemma neg_mean_elbo_reg_zero (log_likelihood kl elbo : tensor) :
  elementwise Qminus log_likelihood (map (Qmult 0) kl) = Ok elbo ->
  (- Qmean elbo == - Qmean log_likelihood)%Q.
Proof.
  intros H. apply elementwise_inv in H as [Hlen ->].
  rewrite length_map in Hlen.
  now rewrite (Qmean_Forall2 _ _ (elbo_reg_zero _ _ Hlen)).
Qed.

Module LikelihoodFacts.
Import VAE_SD_C.

Section Pixel.
Variable fourier_loglikelihood : tensor -> tensor -> tensor -> Q.

Notation loglikelihood_fn :=
  (VAE_SD_C.loglikelihood_fn fourier_loglikelihood).

Lemma zip_square_Forall2 (x y : tensor) :
  Forall2 Qeq
    (map (fun v => Qabs v ^ 2) (zip_with Qminus x y))%Q
    (zip_with (fun o p => (o - p) ^ 2) x y)%Q.
Proof.
  revert y. induction x as [|a x IH]; intros [|b y]; cbn [map zip_with];
    try (now constructor).
  constructor; [apply Qabs_square | apply IH].
Qed.

Lemma zip_square_zero (x y : tensor) :
  Forall2 Qeq x y ->
  (Qsum (zip_with (fun o p => (o - p) ^ 2) x y) == 0)%Q.
Proof.
  induction 1 as [|a b x y Hab _ IH]; cbn [Qsum fold_right zip_with];
    [reflexivity|].
  fold (Qsum (zip_with (fun o p => (o - p) ^ 2) x y))%Q.
  rewrite IH, Hab. change ((b - b) ^ 2)%Q with ((b - b) * (b - b))%Q. ring.
Qed.

(** C1.  On an observed and a predicted tensor of the same shape the
    pixel log-likelihood is [-0.5 * sum((observed - predicted)^2) / std^2]
    with the constant [std = 0.005]; the noise descriptor of the batch
    does not enter the value; and the value is zero when the observed
    and the predicted tensor agree. *)
Theorem pixel_loglikelihood_fixed_std (x y noise : tensor)
  (Hshape : length x = length y) :
  exists v : Q,
    loglikelihood_fn x y noise "Pixel" = Ok v /\
    (v == pixel_loglikelihood_spec (5 # 1000) x y)%Q /\
    (forall noise' : tensor,
        loglikelihood_fn x y noise' "Pixel" = Ok v) /\
    (Forall2 Qeq x y -> (v == 0)%Q).
Proof.
  unfold VAE_SD_C.loglikelihood_fn.
  change (String.eqb "Pixel" "Fourier") with false.
  change (String.eqb "Pixel" "Pixel") with true. cbv iota.
  rewrite (elementwise_Ok Qminus x y Hshape). cbn [bind].
  eexists; split; [reflexivity|].
  assert (E : (- (1 # 2)
               * Qsum (map (fun v => Qabs v ^ 2) (zip_with Qminus x y))
               / (5 # 1000) ^ 2
               == pixel_loglikelihood_spec (5 # 1000) x y)%Q).
  { unfold pixel_loglikelihood_spec.
    now rewrite (Qsum_Forall2 _ _ (zip_square_Forall2 x y)). }
  split; [exact E|]. split; [reflexivity|].
  intros Hxy. rewrite E. unfold pixel_loglikelihood_spec.
  rewrite (zip_square_zero x y Hxy). reflexivity.
Qed.
End Pixel.

Lemma pixel_loglikelihood_fixed_std_witness :
  exists v : Q,
    loglikelihood_fn (fun _ _ _ => 0%Q) [1; 2 # 1]%Q [1; 1]%Q [7 # 1]%Q "Pixel"
      = Ok v /\
    (v == pixel_loglikelihood_spec (5 # 1000) [1; 2 # 1] [1; 1])%Q /\
    (forall noise' : tensor,
        loglikelihood_fn (fun _ _ _ => 0%Q) [1; 2 # 1]%Q [1; 1]%Q noise' "Pixel"
          = Ok v) /\
    (Forall2 Qeq [1; 2 # 1]%Q [1; 1]%Q -> (v == 0)%Q).
Proof.
  apply (pixel_loglikelihood_fixed_std (fun _ _ _ => 0%Q)
           [1; 2 # 1]%Q [1; 1]%Q [7 # 1]%Q).
  reflexivity.
Defined.

End LikelihoodFacts.

(** * The checkpoint store *)

Module StoreFacts.
Import Store.

Lemma read_file_write_file (path : string) (content : list byte)
  (fs : file_system) :
  read_file path (write_file path content fs) = Some content.
Proof.
  unfold write_file. cbn [read_file]. now rewrite String.eqb_refl.
Qed.

Section Generic.
Context {State : Type} `{Serialization State}.

(** [save_checkpoint] does not raise: it writes the file and logs one
    more version, which takes the aliases. *)
Lemma save_checkpoint_Ok (ckpt_path : string) (state : State) (step : Z)
  (w : store) :
  save_checkpoint ckpt_path state step w
  = Ok (saved_store ckpt_path state step w).
Proof.
  unfold save_checkpoint, add_file. cbn [files].
  rewrite read_file_write_file. reflexivity.
Qed.

Lemma use_artifact_saved (ckpt_path : string) (state : State) (step : Z)
  (w : store) (older : list Artifact) :
  use_artifact (checkpoint_name w) "best"
    (saved_artifact ckpt_path state step w :: older)
  = Ok (saved_artifact ckpt_path state step w).
Proof.
  cbn [use_artifact saved_artifact art_name art_aliases].
  rewrite String.eqb_refl. reflexivity.
Qed.

(** Loading after a save reads the bytes that the save has written. *)
Lemma load_after_save (ckpt_path : string) (saved template : State)
  (step : Z) (w w' : store) :
  save_checkpoint ckpt_path saved step w = Ok w' ->
  load_checkpoint (basename ckpt_path) template w' =
  from_bytes template (msgpack_serialize_state_dict saved).
Proof.
  rewrite save_checkpoint_Ok. intros [= <-].
  unfold load_checkpoint, saved_store. cbn [artifacts].
  change (checkpoint_name _) with (checkpoint_name w).
  rewrite use_artifact_saved. cbn [bind saved_artifact art_files read_file].
  now rewrite String.eqb_refl.
Qed.

End Generic.

(** The pair of the encoder and the decoder tree round-trips along a
    template of the same structure. *)
Lemma pair_from_bytes_template (template p : Tree.ptree * Tree.ptree) :
  Tree.same_structure (fst template) (fst p) = true ->
  Tree.same_structure (snd template) (snd p) = true ->
  from_bytes template (msgpack_serialize_state_dict p) = Ok p.
Proof.
  intros Ha Hb. destruct template as [ta tb], p as [a b]. cbn [fst snd] in *.
  cbn [from_bytes msgpack_serialize_state_dict pair_serialization].
  unfold pair_from_bytes, pair_to_tree. cbn [fst snd].
  rewrite TreeFacts.from_bytes_template; [reflexivity|].
  rewrite TreeFacts.same_structure_Dict. cbn [Tree.same_items].
  now rewrite Ha, Hb.
Qed.

(** C8.  Saving a parameter tree and loading it back with the same tree as
    the template gives the tree back, equal in every name, shape and data
    byte, whatever the shape of the tree is. *)
Theorem checkpoint_round_trip (params : Tree.ptree) (ckpt_path : string)
  (step : Z) (w : store) :
  exists w' : store,
    save_checkpoint ckpt_path params step w = Ok w' /\
    load_checkpoint (basename ckpt_path) params w' = Ok params.
Proof.
  eexists. split; [apply save_checkpoint_Ok|].
  erewrite load_after_save by apply save_checkpoint_Ok.
  apply TreeFacts.from_bytes_encode.
Qed.

End StoreFacts.

(** * The objective with a zero coefficient *)

Module ObjectiveFacts.

(** Opens the first call a monadic computation is waiting for. *)
Ltac step_bind H :=
  match type of H with
  | bind ?r _ = Ok _ =>
      let E := fresh "E" in
      destruct r eqn:E; cbn [bind] in H; [|discriminate H]
  | (let '(_, _) := ?p in _) = Ok _ => destruct p
  end.

Section SD.
Variables Params Key Posterior Code : Type.
Variable Autoencoder_apply :
  Params -> list tensor -> Key -> list tensor * Posterior * Code.
Variable posterior_log_prob : Posterior -> Code -> list tensor.
Variable MultivariateNormalDiag_log_prob :
  Code -> list Q -> Code -> list tensor.
Variable zeros_like : Code -> Code.
Variable convolve_kpsf : tensor -> tensor * tensor -> tensor.
Variable fourier_loglikelihood : tensor -> tensor -> tensor -> Q.

Lemma sd_loss_reg_zero (noise_flag : string) (params : Params) (rng_key : Key)
  (batch : VAE_SD_C.Batch) (reg_term loss aux : Q) :
  VAE_SD_C.loss_fn Params Key Posterior Code Autoencoder_apply
    posterior_log_prob MultivariateNormalDiag_log_prob zeros_like
    convolve_kpsf fourier_loglikelihood noise_flag params rng_key batch
    reg_term
  = Ok (loss, aux) ->
  exists (log_likelihood : list Q) (loss0 : Q),
    VAE_SD_C.log_likelihood_term Params Key Posterior Code Autoencoder_apply
      convolve_kpsf fourier_loglikelihood noise_flag params rng_key batch
    = Ok log_likelihood /\
    aux = (- Qmean log_likelihood)%Q /\
    VAE_SD_C.loss_fn Params Key Posterior Code Autoencoder_apply
      posterior_log_prob MultivariateNormalDiag_log_prob zeros_like
      convolve_kpsf fourier_loglikelihood noise_flag params rng_key batch 0
    = Ok (loss0, aux) /\
    (loss0 == - Qmean log_likelihood)%Q.
Proof.
  unfold VAE_SD_C.loss_fn, VAE_SD_C.log_likelihood_term.
  destruct (vmap2 pair _ _) as [kpsf|]; cbn [bind]; [|discriminate].
  destruct (Autoencoder_apply params (VAE_SD_C.image batch) rng_key)
    as [[q posterior] code].
  destruct (vmap2 convolve_kpsf q kpsf) as [p|]; cbn [bind]; [|discriminate].
  match goal with
  | |- bind ?r _ = _ -> _ => destruct r as [log_likelihood|]
  end; cbn [bind]; [|discriminate].
  destruct (vmap2 (elementwise Qminus) _ _) as [diff|]; cbn [bind];
    [|discriminate].
  destruct (sequence diff) as [rows|]; cbn [bind]; [|discriminate].
  intros H0. step_bind H0. injection H0 as _ <-.
  apply elementwise_inv in E as [Hlen _].
  rewrite length_map in Hlen.
  rewrite elementwise_Ok by now rewrite length_map.
  cbn [bind]. exists log_likelihood. eexists.
  split; [reflexivity|]. split; [reflexivity|]. split; [reflexivity|].
  eapply neg_mean_elbo_reg_zero. apply elementwise_Ok.
  now rewrite length_map.
Qed.
(** The term that [reg_term] scales in [loss_fn] is [kl_term]: the sum of
    [posterior.log_prob(code) - prior.log_prob(code)], on the sample that
    was drawn from the posterior. *)
Lemma sd_loss_fn_kl_term (noise_flag : string) (params : Params)
  (rng_key : Key) (batch : VAE_SD_C.Batch) (reg_term loss aux : Q) :
  VAE_SD_C.loss_fn Params Key Posterior Code Autoencoder_apply
    posterior_log_prob MultivariateNormalDiag_log_prob zeros_like
    convolve_kpsf fourier_loglikelihood noise_flag params rng_key batch
    reg_term
  = Ok (loss, aux) ->
  exists log_likelihood kl elbo,
    VAE_SD_C.kl_term Params Key Posterior Code Autoencoder_apply
      posterior_log_prob MultivariateNormalDiag_log_prob zeros_like
      params rng_key batch = Ok kl /\
    elementwise Qminus log_likelihood (map (Qmult reg_term) kl) = Ok elbo /\
    loss = (- Qmean elbo)%Q /\ aux = (- Qmean log_likelihood)%Q.
Proof.
  unfold VAE_SD_C.loss_fn, VAE_SD_C.kl_term.
  destruct (vmap2 pair _ _) as [kpsf|]; cbn [bind]; [|discriminate].
  destruct (Autoencoder_apply params (VAE_SD_C.image batch) rng_key)
    as [[q posterior] code].
  destruct (vmap2 convolve_kpsf q kpsf) as [p|]; cbn [bind]; [|discriminate].
  match goal with
  | |- bind ?r _ = _ -> _ => destruct r as [log_likelihood|]
  end; cbn [bind]; [|discriminate].
  destruct (vmap2 (elementwise Qminus) _ _) as [diff|]; cbn [bind];
    [|discriminate].
  destruct (sequence diff) as [rows|]; cbn [bind]; [|discriminate].
  intros H0. step_bind H0. injection H0 as <- <-.
  exists log_likelihood, (map Qsum rows), a. repeat split. exact E.
Qed.
End SD.

Section Resnet.
Variables EncParams DecParams Key Dist Latent : Type.
Variable Encoder_apply : EncParams -> list tensor -> Dist.
Variable sample : Dist -> Key -> Latent.
Variable Decoder_apply : DecParams -> Latent -> list tensor.
Variable convolve : tensor -> tensor -> tensor.
Variable MultivariateNormalDiag : list tensor -> option (list Q) -> Dist.
Variable kl_divergence : Dist -> Dist -> tensor.
Variable log_prob : Dist -> list tensor -> tensor.

Lemma resnet_loss_reg_zero (params : EncParams * DecParams) (rng_key : Key)
  (batch : VAE_Resnet_train_C.Batch) (reg_term loss aux : Q) :
  VAE_Resnet_train_C.loss_fn EncParams DecParams Key Dist Latent
    Encoder_apply sample Decoder_apply convolve MultivariateNormalDiag
    kl_divergence log_prob params rng_key batch reg_term
  = Ok (loss, aux) ->
  exists (log_likelihood : tensor) (loss0 : Q),
    VAE_Resnet_train_C.log_likelihood_term EncParams DecParams Key Dist
      Latent Encoder_apply sample Decoder_apply convolve
      MultivariateNormalDiag log_prob params rng_key batch
    = Ok log_likelihood /\
    aux = (- Qmean log_likelihood)%Q /\
    VAE_Resnet_train_C.loss_fn EncParams DecParams Key Dist Latent
      Encoder_apply sample Decoder_apply convolve MultivariateNormalDiag
      kl_divergence log_prob params rng_key batch 0
    = Ok (loss0, aux) /\
    (loss0 == - Qmean log_likelihood)%Q.
Proof.
  unfold VAE_Resnet_train_C.loss_fn, VAE_Resnet_train_C.log_likelihood_term,
    VAE_Resnet_train_C.observation_distribution.
  destruct params as [params_enc params_dec].
  destruct (vmap2 convolve _ _) as [p|]; cbn [bind]; [|discriminate].
  intros H0. step_bind H0. injection H0 as _ <-.
  apply elementwise_inv in E as [Hlen _].
  rewrite length_map in Hlen.
  rewrite elementwise_Ok by now rewrite length_map.
  cbn [bind]. eexists. eexists.
  split; [reflexivity|]. split; [reflexivity|]. split; [reflexivity|].
  eapply neg_mean_elbo_reg_zero. apply elementwise_Ok.
  now rewrite length_map.
Qed.
(** The term that [reg_term] scales in [loss_fn] is [kl_term], and
    [kl_term] is the divergence of the observation distribution from the
    zero-mean prior. *)
Lemma resnet_loss_fn_kl_term (params : EncParams * DecParams) (rng_key : Key)
  (batch : VAE_Resnet_train_C.Batch) (reg_term : Q) :
  VAE_Resnet_train_C.loss_fn EncParams DecParams Key Dist Latent
    Encoder_apply sample Decoder_apply convolve MultivariateNormalDiag
    kl_divergence log_prob params rng_key batch reg_term
  = (p <- VAE_Resnet_train_C.observation_distribution EncParams DecParams
            Key Dist Latent Encoder_apply sample Decoder_apply convolve
            MultivariateNormalDiag params rng_key batch ;;
     kl <- VAE_Resnet_train_C.kl_term EncParams DecParams Key Dist Latent
             Encoder_apply sample Decoder_apply convolve
             MultivariateNormalDiag kl_divergence params rng_key batch ;;
     let log_likelihood := log_prob p (VAE_Resnet_train_C.image batch) in
     elbo <- elementwise Qminus log_likelihood (map (Qmult reg_term) kl) ;;
     Ok ((- Qmean elbo)%Q, (- Qmean log_likelihood)%Q)).
Proof.
  unfold VAE_Resnet_train_C.loss_fn, VAE_Resnet_train_C.kl_term,
    VAE_Resnet_train_C.observation_distribution.
  destruct params as [params_enc params_dec].
  now destruct (vmap2 convolve _ _).
Qed.

Lemma resnet_kl_term_observation (params : EncParams * DecParams)
  (rng_key : Key) (batch : VAE_Resnet_train_C.Batch) :
  VAE_Resnet_train_C.kl_term EncParams DecParams Key Dist Latent
    Encoder_apply sample Decoder_apply convolve MultivariateNormalDiag
    kl_divergence params rng_key batch
  = (p <- VAE_Resnet_train_C.observation_distribution EncParams DecParams
            Key Dist Latent Encoder_apply sample Decoder_apply convolve
            MultivariateNormalDiag params rng_key batch ;;
     Ok (kl_divergence p
           (MultivariateNormalDiag
              VAE_Resnet_train_C.zeros_1_128_128_1 None))).
Proof.
  unfold VAE_Resnet_train_C.kl_term,
    VAE_Resnet_train_C.observation_distribution.
  destruct params as [params_enc params_dec].
  now destruct (vmap2 convolve _ _).
Qed.
End Resnet.

(** C2.  In both scripts, whenever [loss_fn] returns for a batch with
    some coefficient, its second output is the negative mean of the
    log-likelihood term of the batch (the log-likelihood of the images
    under their reconstruction), and it returns with the coefficient 0
    too, with the same second output and with a loss equal to that
    negative mean log-likelihood: the KL term contributes nothing, whatever
    its values are. *)
Theorem reg_zero_pure_reconstruction :
  (forall (Params Key Posterior Code : Type)
          (Autoencoder_apply :
             Params -> list tensor -> Key -> list tensor * Posterior * Code)
          (posterior_log_prob : Posterior -> Code -> list tensor)
          (MultivariateNormalDiag_log_prob :
             Code -> list Q -> Code -> list tensor)
          (zeros_like : Code -> Code)
          (convolve_kpsf : tensor -> tensor * tensor -> tensor)
          (fourier_loglikelihood : tensor -> tensor -> tensor -> Q)
          (noise_flag : string) (params : Params) (rng_key : Key)
          (batch : VAE_SD_C.Batch) (reg_term loss aux : Q),
      VAE_SD_C.loss_fn Params Key Posterior Code Autoencoder_apply
        posterior_log_prob MultivariateNormalDiag_log_prob zeros_like
        convolve_kpsf fourier_loglikelihood noise_flag params rng_key batch
        reg_term
      = Ok (loss, aux) ->
      exists (log_likelihood : list Q) (loss0 : Q),
        VAE_SD_C.log_likelihood_term Params Key Posterior Code
          Autoencoder_apply convolve_kpsf fourier_loglikelihood noise_flag
          params rng_key batch
        = Ok log_likelihood /\
        aux = (- Qmean log_likelihood)%Q /\
        VAE_SD_C.loss_fn Params Key Posterior Code Autoencoder_apply
          posterior_log_prob MultivariateNormalDiag_log_prob zeros_like
          convolve_kpsf fourier_loglikelihood noise_flag params rng_key
          batch 0
        = Ok (loss0, aux) /\
        (loss0 == - Qmean log_likelihood)%Q) /\
  (forall (EncParams DecParams Key Dist Latent : Type)
          (Encoder_apply : EncParams -> list tensor -> Dist)
          (sample : Dist -> Key -> Latent)
          (Decoder_apply : DecParams -> Latent -> list tensor)
          (convolve : tensor -> tensor -> tensor)
          (MultivariateNormalDiag : list tensor -> option (list Q) -> Dist)
          (kl_divergence : Dist -> Dist -> tensor)
          (log_prob : Dist -> list tensor -> tensor)
          (params : EncParams * DecParams) (rng_key : Key)
          (batch : VAE_Resnet_train_C.Batch) (reg_term loss aux : Q),
      VAE_Resnet_train_C.loss_fn EncParams DecParams Key Dist Latent
        Encoder_apply sample Decoder_apply convolve MultivariateNormalDiag
        kl_divergence log_prob params rng_key batch reg_term
      = Ok (loss, aux) ->
      exists (log_likelihood : tensor) (loss0 : Q),
        VAE_Resnet_train_C.log_likelihood_term EncParams DecParams Key Dist
          Latent Encoder_apply sample Decoder_apply convolve
          MultivariateNormalDiag log_prob params rng_key batch
        = Ok log_likelihood /\
        aux = (- Qmean log_likelihood)%Q /\
        VAE_Resnet_train_C.loss_fn EncParams DecParams Key Dist Latent
          Encoder_apply sample Decoder_apply convolve MultivariateNormalDiag
          kl_divergence log_prob params rng_key batch 0
        = Ok (loss0, aux) /\
        (loss0 == - Qmean log_likelihood)%Q).
Proof.
  split; intros.
  - eapply sd_loss_reg_zero; eassumption.
  - eapply resnet_loss_reg_zero; eassumption.
Qed.

End ObjectiveFacts.

(** * The training loop *)

Module TrainingFacts.
Import Store Training.

Lemma Qltb_trans (a b c : Q) :
  Qltb a b = true -> Qltb b c = true -> Qltb a c = true.
Proof.
  rewrite !Qltb_lt. apply Qlt_trans.
Qed.

Lemma step_range_cons (steps : Z) :
  1 <= steps ->
  Training.step_range steps
  = 1 :: map Z.of_nat (seq 2 (Z.to_nat steps - 1)).
Proof.
  intros Hs. unfold Training.step_range.
  destruct (Z.to_nat steps) as [|n] eqn:E; [lia|].
  replace (S n - 1)%nat with n by lia. reflexivity.
Qed.

Section Loop.
Context {Params : Type} `{Serialization Params}.
Variables OptState Key Batch Grads Updates : Type.
Variable random_split : Key -> Key * Key.
Variable train_stream : nat -> Batch.
Variable test_split : list Batch.
Variable loss_fn : Params -> Key -> Batch -> Q -> result (Q * Q).
Variable loss_grad : Params -> Key -> Batch -> Q -> Grads.
Variable optimizer_update : Grads -> OptState -> Params -> Updates * OptState.
Variable apply_updates : Params -> Updates -> Params.
Variable reg_value : Q.
Variable activation_threshold : option Q.

Notation state := (train_state (Params := Params) OptState Key).
Notation update :=
  (Training.update OptState Key Batch Grads Updates loss_fn loss_grad
     optimizer_update apply_updates reg_value).
Notation below_threshold :=
  (Training.below_activation_threshold activation_threshold).
Notation save_best_checkpoint :=
  (Training.save_best_checkpoint (Params := Params) activation_threshold).
Notation evaluate :=
  (Training.evaluate OptState Key Batch random_split test_split loss_fn
     reg_value).
Notation train_step :=
  (Training.train_step OptState Key Batch Grads Updates random_split
     train_stream test_split loss_fn loss_grad optimizer_update apply_updates
     reg_value activation_threshold).
Notation run_steps :=
  (Training.run_steps OptState Key Batch Grads Updates random_split
     train_stream test_split loss_fn loss_grad optimizer_update apply_updates
     reg_value activation_threshold).
Notation training_loop :=
  (Training.training_loop OptState Key Batch Grads Updates random_split
     train_stream test_split loss_fn loss_grad optimizer_update apply_updates
     reg_value activation_threshold).
Notation step_update :=
  (Training.step_update OptState Key Batch Grads Updates random_split
     train_stream loss_fn loss_grad optimizer_update apply_updates reg_value).
Notation store_after := (Training.store_after (Params := Params) activation_threshold).
Notation step_effect :=
  (Training.step_effect (Params := Params) OptState Key activation_threshold).
Notation post_update_checkpoint :=
  (Training.post_update_checkpoint OptState Key Batch Grads Updates loss_fn
     loss_grad optimizer_update apply_updates reg_value).
Notation checkpoints_ok :=
  (Training.checkpoints_ok OptState Key Batch Grads Updates loss_fn
     loss_grad optimizer_update apply_updates reg_value activation_threshold).

Lemma save_best_checkpoint_eq (loss : Q) (params : Params) (step : Z)
  (best : Q) (w : store) :
  save_best_checkpoint loss params step best w
  = Ok (best_after loss best, store_after loss params step best w).
Proof.
  unfold Training.save_best_checkpoint, best_after, store_after.
  destruct (Qltb loss best); [|reflexivity].
  destruct (below_threshold loss); [|reflexivity].
  now rewrite StoreFacts.save_checkpoint_Ok.
Qed.

(** One evaluation reads the parameters and writes nothing but the random
    keys and the traces of the held-out split. *)
Lemma evaluate_preserves (step : Z) (s : state) :
  let s' := state_of (evaluate step s) in
  st_params s' = st_params s /\ st_opt_state s' = st_opt_state s /\
  st_pulled s' = st_pulled s /\ st_losses s' = st_losses s /\
  st_log_liks s' = st_log_liks s /\
  st_best_eval_loss s' = st_best_eval_loss s /\ st_store s' = st_store s.
Proof.
  unfold Training.evaluate.
  destruct (eval_batches _ _ _ _ _ _ _ _ _ _ _)
    as [[[[rng rng_1] means] [ll|]]|e]; cbn; repeat split; reflexivity.
Qed.

Lemma train_step_updated (steps step : Z) (s : state) (loss ll : Q)
  (params : Params) (opt_state : OptState) :
  step_update s = Ok (loss, ll, params, opt_state) ->
  step_effect step s loss ll params opt_state
    (state_of (train_step steps step s)) /\
  (steps / 50 = 0 ->
   exists s', train_step steps step s = Crashed ZeroDivisionError s').
Proof.
  unfold Training.step_update, Training.train_step.
  destruct (random_split (st_rng s)) as [rng rng_1]. cbn [snd].
  intros ->. rewrite save_best_checkpoint_eq.
  destruct (Z.eqb_spec (steps / 50) 0) as [Hz|Hz].
  - split; [now constructor|]. intros _. eexists. reflexivity.
  - split; [|intros; contradiction].
    destruct (step mod (steps / 50) =? 0); [|now constructor].
    match goal with |- context [evaluate step ?t] =>
      destruct (evaluate_preserves step t) as (E1 & E2 & E3 & E4 & E5 & E6 & E7)
    end.
    constructor; cbn in *; congruence.
Qed.

(** A step whose [update] raises stops the run with nothing but the batch
    pulled and the key split. *)
Lemma train_step_raised (steps step : Z) (s : state) (e : exn) :
  step_update s = Raise e ->
  exists s',
    train_step steps step s = Crashed e s' /\
    st_params s' = st_params s /\ st_pulled s' = S (st_pulled s) /\
    st_losses s' = st_losses s /\ st_store s' = st_store s /\
    st_best_eval_loss s' = st_best_eval_loss s.
Proof.
  unfold Training.step_update, Training.train_step.
  destruct (random_split (st_rng s)) as [rng rng_1]. cbn [snd].
  intros ->. eexists. split; [reflexivity|]. cbn. repeat split.
Qed.

(** A step that completes has evaluated exactly when its number is a
    multiple of [steps // 50]. *)
Lemma train_step_evaluation (steps step : Z) (s s' : state) :
  train_step steps step s = Done s' ->
  steps / 50 <> 0 /\
  st_losses_test_step s'
  = st_losses_test_step s
    ++ (if step mod (steps / 50) =? 0 then [step] else []).
Proof.
  unfold Training.train_step.
  destruct (random_split (st_rng s)) as [rng rng_1].
  destruct (update _ _ _ _) as [[[[loss ll] params] opt_state]|e];
    [|discriminate].
  rewrite save_best_checkpoint_eq.
  destruct (Z.eqb_spec (steps / 50) 0) as [Hz|Hz]; [discriminate|].
  destruct (step mod (steps / 50) =? 0).
  - unfold Training.evaluate.
    destruct (eval_batches _ _ _ _ _ _ _ _ _ _ _)
      as [[[[rng' rng_1'] means] [ll'|]]|e]; try discriminate.
    intros [= <-]. now split.
  - intros [= <-]. split; [exact Hz|]. cbn. now rewrite app_nil_r.
Qed.

(** In a loop that completes, the evaluations have taken place at the
    multiples of [steps // 50], and at no other step. *)
Lemma training_loop_evaluation (steps : Z) (s0 s : state) :
  training_loop steps s0 = Done s ->
  st_losses_test_step s
  = st_losses_test_step s0
    ++ filter (fun step => step mod (steps / 50) =? 0)
         (Training.step_range steps).
Proof.
  unfold Training.training_loop.
  generalize (Training.step_range steps) as range. intros range. revert s0.
  induction range as [|step rest IH]; intros s0; cbn [Training.run_steps filter].
  - intros [= <-]. now rewrite app_nil_r.
  - destruct (train_step steps step s0) as [s1|e s1] eqn:E; [|discriminate].
    intros Hrest. apply train_step_evaluation in E as [_ E].
    rewrite (IH s1 Hrest), E, <- app_assoc.
    now destruct (step mod (steps / 50) =? 0).
Qed.

(** A loop that completes has no step at all, or at least 50. *)
Lemma training_loop_completes (steps : Z) (s0 s : state) :
  training_loop steps s0 = Done s -> steps <= 0 \/ 50 <= steps.
Proof.
  intros Hdone. destruct (Z.le_gt_cases steps 0) as [|Hpos]; [now left|].
  right. unfold Training.training_loop in Hdone.
  rewrite step_range_cons in Hdone by lia. cbn [Training.run_steps] in Hdone.
  destruct (train_step steps 1 s0) as [s1|e s1] eqn:E; [|discriminate].
  apply train_step_evaluation in E as [Hz _].
  destruct (Z.lt_ge_cases steps 50) as [Hlt|]; [|assumption].
  rewrite Z.div_small in Hz by lia. contradiction.
Qed.

(** C7 (the code at the failing inputs).  With between 1 and 49 total
    steps the loop does not complete: the first step stops it, and when the
    [update] of that step has returned, the exception is the division by
    zero of [step % (config.steps // 50)], raised after the loss of the
    step has been recorded. *)
Theorem small_total_steps_crash (steps : Z) (s0 : state)
  (Hsteps : 1 <= steps < 50) :
  exists (e : exn) (s : state),
    training_loop steps s0 = Crashed e s /\
    st_pulled s = S (st_pulled s0) /\
    (forall loss ll params opt_state,
        step_update s0 = Ok (loss, ll, params, opt_state) ->
        e = ZeroDivisionError /\ st_losses s = st_losses s0 ++ [loss]).
Proof.
  unfold Training.training_loop.
  rewrite step_range_cons by lia. cbn [Training.run_steps].
  destruct (step_update s0) as [[[[loss ll] params] opt_state]|e] eqn:E.
  - destruct (train_step_updated steps 1 s0 _ _ _ _ E) as [Heff Hz].
    destruct Hz as [s' Hs']; [apply Z.div_small; lia|].
    rewrite Hs' in *. cbn [state_of] in Heff.
    exists ZeroDivisionError, s'. split; [reflexivity|].
    split; [apply Heff|].
    intros ? ? ? ? [= <- <- <- <-]. split; [reflexivity|apply Heff].
  - destruct (train_step_raised steps 1 s0 e E) as (s' & -> & _ & Hp & _).
    exists e, s'. split; [reflexivity|]. split; [exact Hp|].
    intros; discriminate.
Qed.

(** A property that every step keeps holds in the state where the loop
    ends, whether it completes or stops. *)
Lemma run_steps_invariant (P : state -> Prop) (steps : Z) :
  (forall step s, P s -> P (state_of (train_step steps step s))) ->
  forall range s, P s -> P (state_of (run_steps steps range s)).
Proof.
  intros Hstep range.
  induction range as [|step rest IH]; intros s Hs; [exact Hs|].
  cbn [Training.run_steps].
  specialize (Hstep step s Hs).
  destruct (train_step steps step s) as [s'|e s']; cbn [state_of] in *.
  - now apply IH.
  - exact Hstep.
Qed.

Lemma update_inv (params : Params) (rng_key : Key) (opt_state : OptState)
  (batch : Batch) (loss ll : Q) (new_params : Params)
  (new_opt_state : OptState) :
  update params rng_key opt_state batch
  = Ok (loss, ll, new_params, new_opt_state) ->
  loss_fn params rng_key batch reg_value = Ok (loss, ll) /\
  new_params =
  apply_updates params
    (fst (optimizer_update (loss_grad params rng_key batch reg_value)
            opt_state params)).
Proof.
  unfold Training.update.
  destruct (loss_fn params rng_key batch reg_value) as [[l a]|e];
    cbn [bind]; [|discriminate].
  destruct (optimizer_update _ opt_state params) as [updates new_opt].
  intros [= <- <- <- <-]. now split.
Qed.

Lemma below_threshold_trans (loss best : Q) :
  Qltb loss best = true -> below_threshold best = true ->
  below_threshold loss = true.
Proof.
  unfold Training.below_activation_threshold.
  destruct activation_threshold as [t|]; [|reflexivity].
  apply Qltb_trans.
Qed.

Lemma art_files_drop_aliases (aliases : list string) (name : string)
  (a : Artifact) :
  art_files (drop_aliases aliases name a) = art_files a.
Proof.
  unfold drop_aliases. now destruct (String.eqb (art_name a) name).
Qed.

Lemma checkpoints_ok_ext (s s' : state) :
  st_losses s' = st_losses s -> st_store s' = st_store s ->
  st_best_eval_loss s' = st_best_eval_loss s ->
  checkpoints_ok s -> checkpoints_ok s'.
Proof.
  intros El Es Eb [Hall Hhead].
  constructor; rewrite ?El, ?Es, ?Eb; assumption.
Qed.

(** Every step keeps the checkpoints in order. *)
Lemma train_step_checkpoints_ok (steps step : Z) (s : state) :
  checkpoints_ok s -> checkpoints_ok (state_of (train_step steps step s)).
Proof.
  intros Hok.
  destruct (step_update s) as [[[[loss ll] params] opt_state]|e] eqn:E.
  2:{ destruct (train_step_raised steps step s e E)
        as (s' & -> & _ & _ & El & Es & Eb).
      cbn [state_of]. now apply (checkpoints_ok_ext s). }
  destruct (train_step_updated steps step s _ _ _ _ E) as [Heff _].
  destruct Heff as [_ _ _ El _ Eb Es].
  set (s' := state_of (train_step steps step s)) in *. clearbody s'.
  destruct Hok as [Hall Hhead].
  assert (Hnew : post_update_checkpoint loss
                   (saved_artifact checkpoint_file params step (st_store s))).
  { unfold Training.step_update in E. apply update_inv in E as [Hl ->].
    do 5 eexists. split; [exact Hl|reflexivity]. }
  assert (Hold : Forall (fun a => exists l,
                    In l (st_losses s') /\ post_update_checkpoint l a)
                   (artifacts (st_store s))).
  { rewrite El. eapply Forall_impl; [|exact Hall].
    intros a (l & Hin & Hp). exists l. split; [|exact Hp].
    apply in_or_app. now left. }
  unfold Training.store_after, Training.best_after in *.
  destruct (Qltb loss (st_best_eval_loss s)) eqn:Hlt; cbn [andb] in Es.
  - destruct (below_threshold loss) eqn:Hbelow.
    + constructor; rewrite Es, ?Eb; cbn [saved_store artifacts].
      * constructor.
        -- exists loss. split; [|exact Hnew].
           rewrite El. apply in_or_app. right. now left.
        -- apply Forall_forall. intros a Ha.
           apply in_map_iff in Ha as (a0 & <- & Ha0).
           rewrite Forall_forall in Hold.
           destruct (Hold a0 Ha0) as (l & Hin & Hp).
           exists l. split; [exact Hin|].
           destruct Hp as (p0 & k0 & o0 & b0 & ll0 & Hl0 & Hf0).
           exists p0, k0, o0, b0, ll0. split; [exact Hl0|].
           now rewrite art_files_drop_aliases.
      * repeat split; try reflexivity; assumption.
    + constructor; rewrite Es; [exact Hold|].
      destruct (artifacts (st_store s)) as [|a older]; [exact I|].
      destruct Hhead as (_ & _ & Hb & _).
      rewrite (below_threshold_trans _ _ Hlt Hb) in Hbelow. discriminate.
  - constructor; rewrite Es, ?Eb; assumption.
Qed.

Lemma training_loop_checkpoints_ok (steps : Z) (s0 : state) :
  artifacts (st_store s0) = [] ->
  checkpoints_ok (state_of (training_loop steps s0)).
Proof.
  intros Hfresh. unfold Training.training_loop.
  apply run_steps_invariant.
  - intros step s. apply train_step_checkpoints_ok.
  - constructor; rewrite Hfresh; constructor.
Qed.

Lemma use_artifact_head (s : state) (a : Artifact) :
  checkpoints_ok s ->
  use_artifact (checkpoint_name (st_store s)) "best" (artifacts (st_store s))
  = Ok a ->
  exists older, artifacts (st_store s) = a :: older.
Proof.
  intros [_ Hhead].
  destruct (artifacts (st_store s)) as [|a0 older]; [discriminate|].
  destruct Hhead as (Hname & Hbest & _).
  cbn [use_artifact]. rewrite Hname, String.eqb_refl, Hbest. cbn [andb].
  intros [= ->]. now exists older.
Qed.

(** C10.  In every run that starts without a checkpoint, whether the loop
    completes or stops, every version of the checkpoint artifact holds the
    parameters as they are after the update of a step, while the loss that
    made the step a new best was computed by [loss_fn] on the parameters
    before that update; the version under the alias "best" is the one of
    the recorded best loss. *)
Theorem checkpoint_holds_post_update_params (steps : Z) (s0 : state)
  (Hfresh : artifacts (st_store s0) = []) :
  let s := state_of (training_loop steps s0) in
  Forall (fun a => exists loss,
              In loss (st_losses s) /\ post_update_checkpoint loss a)
    (artifacts (st_store s)) /\
  (forall a,
      use_artifact (checkpoint_name (st_store s)) "best"
        (artifacts (st_store s)) = Ok a ->
      post_update_checkpoint (st_best_eval_loss s) a).
Proof.
  intros s.
  pose proof (training_loop_checkpoints_ok steps s0 Hfresh) as Hok.
  fold s in Hok. split; [apply Hok|].
  intros a Ha.
  destruct (use_artifact_head s a Hok Ha) as [older Hs].
  destruct Hok as [_ Hhead]. rewrite Hs in Hhead. apply Hhead.
Qed.

(** The checkpoints of a run are those of the checkpoint block along the
    run's own trace: the losses the run has recorded, each with the
    parameters its step obtained from [update]. *)
Lemma run_steps_follows_trace (steps : Z) (n : nat) :
  forall (first : nat) (s : state),
    let s' :=
      state_of (run_steps steps (map Z.of_nat (seq first n)) s) in
    exists trace : list (Q * Params),
      st_losses s' = st_losses s ++ map fst trace /\
      Training.checkpoints_on_trace activation_threshold trace
        (Z.of_nat first) (st_best_eval_loss s) (st_store s)
      = Ok (st_best_eval_loss s', st_store s').
Proof.
  induction n as [|n IH]; intros first s; cbn [seq map Training.run_steps].
  - exists []. cbn. now rewrite app_nil_r.
  - destruct (step_update s) as [[[[loss ll] params] opt_state]|e] eqn:E.
    + destruct (train_step_updated steps (Z.of_nat first) s _ _ _ _ E)
        as [[_ _ _ El _ Eb Es] _].
      destruct (train_step steps (Z.of_nat first) s) as [s1|e s1];
        cbn [state_of] in *.
      * destruct (IH (S first) s1) as (trace & Hl & Hc).
        exists ((loss, params) :: trace). split.
        -- rewrite Hl, El, <- app_assoc. reflexivity.
        -- cbn [Training.checkpoints_on_trace].
           rewrite save_best_checkpoint_eq. cbn [bind].
           rewrite <- Eb, <- Es.
           replace (Z.of_nat first + 1) with (Z.of_nat (S first)) by lia.
           exact Hc.
      * exists [(loss, params)]. split; [exact El|].
        cbn [Training.checkpoints_on_trace].
        rewrite save_best_checkpoint_eq. cbn [bind]. now rewrite Eb, Es.
    + destruct (train_step_raised steps (Z.of_nat first) s e E)
        as (s1 & -> & _ & _ & El & Es & Eb).
      cbn [state_of]. exists []. cbn. rewrite app_nil_r.
      now rewrite El, Es, Eb.
Qed.

Lemma saved_store_artifacts (params : Params) (step : Z) (w : store) :
  length (artifacts (saved_store checkpoint_file params step w))
  = S (length (artifacts w)).
Proof.
  cbn [saved_store artifacts length]. now rewrite length_map.
Qed.

(** C4 (as amended).  In a step whose [update] has returned, the best loss
    becomes the loss of the step when that loss is strictly below it, and a
    checkpoint is saved exactly when, in addition, the script has no
    activation threshold or the new best loss is below the threshold.  On
    the trace 5, 2, 3, 0.8, 0.9 the threshold 1 of
    [VAE_Resnet_train_C.py] gives one save, at step 4; without a threshold,
    as in [VAE_SD_C.py], steps 1, 2 and 4 are saved.  A save adds one
    version to the artifact, which takes the alias "best" and the alias of
    its step. *)
Theorem best_checkpoint_policy :
  (forall (steps step : Z) (s : state) (loss ll : Q) (params : Params)
          (opt_state : OptState),
      step_update s = Ok (loss, ll, params, opt_state) ->
      let s' := state_of (train_step steps step s) in
      st_best_eval_loss s'
      = (if Qltb loss (st_best_eval_loss s) then loss
         else st_best_eval_loss s) /\
      st_store s'
      = (if Qltb loss (st_best_eval_loss s) && below_threshold loss
         then saved_store checkpoint_file params step (st_store s)
         else st_store s)) /\
  (forall (p1 p2 p3 p4 p5 : Params) (w : store),
      let trace :=
        [(5, p1); (2, p2); (3, p3); (8 # 10, p4); (9 # 10, p5)]%Q in
      (activation_threshold = Some 1%Q ->
       Training.checkpoints_on_trace activation_threshold trace 1 1000000 w
       = Ok ((8 # 10)%Q, saved_store checkpoint_file p4 4 w)) /\
      (activation_threshold = None ->
       Training.checkpoints_on_trace activation_threshold trace 1 1000000 w
       = Ok ((8 # 10)%Q,
             saved_store checkpoint_file p4 4
               (saved_store checkpoint_file p2 2
                  (saved_store checkpoint_file p1 1 w))))) /\
  (forall (params : Params) (step : Z) (w : store),
      let w' := saved_store checkpoint_file params step w in
      length (artifacts w') = S (length (artifacts w)) /\
      exists a,
        use_artifact (checkpoint_name w') "best" (artifacts w') = Ok a /\
        art_aliases a = ["best"; "step_" ++ str_of_int step]%string /\
        art_files a
        = [(checkpoint_file, msgpack_serialize_state_dict params)]).
Proof.
  split; [|split].
  - intros steps step s loss ll params opt_state E.
    destruct (train_step_updated steps step s _ _ _ _ E) as [Heff _].
    split; [apply Heff|apply Heff].
  - intros p1 p2 p3 p4 p5 w trace. subst trace.
    split; intros Hthr;
      cbn [Training.checkpoints_on_trace];
      repeat (rewrite save_best_checkpoint_eq; cbn [bind]);
      unfold Training.store_after, Training.best_after,
        Training.below_activation_threshold;
      rewrite Hthr; reflexivity.
  - intros params step w w'. split; [apply saved_store_artifacts|].
    exists (saved_artifact checkpoint_file params step w).
    split; [|split; reflexivity].
    subst w'. cbn [saved_store artifacts].
    change (checkpoint_name _) with (checkpoint_name w).
    apply StoreFacts.use_artifact_saved.
Qed.

(** C5 (as amended).  After a loop that has run to its end from a state
    without a checkpoint: where the script reloads the best checkpoint
    ([VAE_Resnet_train_C.py]) and none has been saved, the end of [main]
    raises the tracker's "no checkpoint" condition; where one has been
    saved, the parameters it goes on with are what [from_bytes] restores
    from the bytes of the best checkpoint, with the parameters of the last
    step as the template.  Where the script does not reload
    ([VAE_SD_C.py]) it goes on with the parameters of the last step and
    never raises that condition. *)
Theorem finalize_parameters (steps : Z) (s0 s : state)
  (Hfresh : artifacts (st_store s0) = [])
  (Hdone : training_loop steps s0 = Done s) :
  (artifacts (st_store s) = [] ->
   Training.finalize OptState Key true s = Raise NoCheckpointAvailable) /\
  (forall a older,
      artifacts (st_store s) = a :: older ->
      exists bytes,
        art_files a = [(checkpoint_file, bytes)] /\
        post_update_checkpoint (st_best_eval_loss s) a /\
        forall r,
          Training.finalize OptState Key true s = Ok r ->
          from_bytes (st_params s) bytes = Ok (final_params r)) /\
  (forall r,
      Training.finalize OptState Key false s = Ok r ->
      final_params r = st_params s) /\
  Training.finalize OptState Key false s <> Raise NoCheckpointAvailable.
Proof.
  pose proof (training_loop_checkpoints_ok steps s0 Hfresh) as Hok.
  rewrite Hdone in Hok. cbn [state_of] in Hok.
  split; [|split; [|split]].
  - intros Hnone. unfold Training.finalize, load_checkpoint.
    now rewrite Hnone.
  - intros a older Hs. destruct Hok as [_ Hhead]. rewrite Hs in Hhead.
    destruct Hhead as (Hname & Hbest & _ & Hpost).
    pose proof Hpost as (p0 & k0 & o0 & b0 & ll0 & Hl0 & Hf0).
    eexists. split; [exact Hf0|]. split; [exact Hpost|].
    intros r. unfold Training.finalize, load_checkpoint.
    rewrite Hs. cbn [use_artifact].
    rewrite Hname, String.eqb_refl, Hbest. cbn [andb bind].
    rewrite Hf0. cbn [read_file]. rewrite String.eqb_refl.
    destruct (from_bytes (st_params s) _) as [params|e]; cbn [bind];
      [|discriminate].
    destruct (Training.best_step_of (st_losses s)); cbn [bind];
      [|discriminate].
    destruct (Training.best_step_of (st_log_liks s)); cbn [bind];
      [|discriminate].
    now intros [= <-].
  - intros r. unfold Training.finalize. cbn [bind].
    destruct (Training.best_step_of (st_losses s)); cbn [bind];
      [|discriminate].
    destruct (Training.best_step_of (st_log_liks s)); cbn [bind];
      [|discriminate].
    now intros [= <-].
  - unfold Training.finalize, Training.best_step_of. cbn [bind].
    destruct (st_losses s); cbn [bind]; [discriminate|].
    destruct (st_log_liks s); cbn [bind]; discriminate.
Qed.

End Loop.

End TrainingFacts.

(** * The noise mode of [VAE_SD_C.py] *)

Module NoiseModeFacts.
Import Store Training VAE_SD_C.

Lemma vmap2_Ok {A B C : Type} (f : A -> B -> C) (xs : list A) (ys : list B) :
  length xs = length ys -> vmap2 f xs ys = Ok (zip_with f xs ys).
Proof.
  intros E. unfold vmap2. now rewrite E, Nat.eqb_refl.
Qed.

Lemma vmap2_cases {A B C : Type} (f : A -> B -> C) (xs : list A) (ys : list B) :
  (length xs = length ys /\ vmap2 f xs ys = Ok (zip_with f xs ys)) \/
  (length xs <> length ys /\ vmap2 f xs ys = Raise ShapeError).
Proof.
  unfold vmap2. destruct (Nat.eqb_spec (length xs) (length ys)); auto.
Qed.

Lemma zip_with_length {A B C : Type} (f : A -> B -> C) (xs : list A)
  (ys : list B) :
  length xs = length ys -> length (zip_with f xs ys) = length xs.
Proof.
  revert ys. induction xs as [|x xs IH]; intros [|y ys] E;
    try discriminate; cbn; [reflexivity|].
  f_equal. apply IH. now injection E.
Qed.

Section Main.
Context {Params : Type} `{Serialization Params}.
Variables OptState Key Posterior Code Grads Updates : Type.
Variable Autoencoder_apply :
  Params -> list tensor -> Key -> list tensor * Posterior * Code.
Variable posterior_log_prob : Posterior -> Code -> list tensor.
Variable MultivariateNormalDiag_log_prob :
  Code -> list Q -> Code -> list tensor.
Variable zeros_like : Code -> Code.
Variable convolve_kpsf : tensor -> tensor * tensor -> tensor.
Variable fourier_loglikelihood : tensor -> tensor -> tensor -> Q.
Variable PRNGKey : Z -> Key.
Variable random_split : Key -> Key * Key.
Variable Autoencoder_init : string -> Key -> Key -> Params.
Variable optimizer_init : string -> Params -> OptState.
Variable optimizer_update :
  string -> Grads -> OptState -> Params -> Updates * OptState.
Variable apply_updates : Params -> Updates -> Params.
Variable loss_grad : string -> Params -> Key -> Batch -> Q -> Grads.
Variable train_stream : nat -> Batch.
Variable test_split : list Batch.
Variable run_id : string.

Notation loss_fn :=
  (VAE_SD_C.loss_fn Params Key Posterior Code Autoencoder_apply
     posterior_log_prob MultivariateNormalDiag_log_prob zeros_like
     convolve_kpsf fourier_loglikelihood).
Notation setup :=
  (VAE_SD_C.setup OptState Key PRNGKey random_split Autoencoder_init
     optimizer_init run_id).
Notation main :=
  (VAE_SD_C.main OptState Key Posterior Code Grads Updates Autoencoder_apply
     posterior_log_prob MultivariateNormalDiag_log_prob zeros_like
     convolve_kpsf fourier_loglikelihood PRNGKey random_split
     Autoencoder_init optimizer_init optimizer_update apply_updates loss_grad
     train_stream test_split run_id).
Notation well_shaped :=
  (VAE_SD_C.well_shaped Params Key Posterior Code Autoencoder_apply).

(** With a noise mode that is neither "Fourier" nor "Pixel", [loss_fn]
    raises; on a batch of well-shaped fields it raises
    [NotImplementedError]. *)
Lemma loss_fn_unsupported (noise_flag : string) (params : Params)
  (rng_key : Key) (batch : Batch) (reg_term : Q) :
  noise_flag <> "Fourier"%string -> noise_flag <> "Pixel"%string ->
  exists e,
    loss_fn noise_flag params rng_key batch reg_term = Raise e /\
    (e = NotImplementedError \/ e = ShapeError) /\
    (well_shaped params rng_key batch -> e = NotImplementedError).
Proof.
  intros Hf Hp. unfold VAE_SD_C.loss_fn, VAE_SD_C.well_shaped.
  apply String.eqb_neq in Hf, Hp. rewrite Hf, Hp.
  destruct (vmap2_cases pair (kpsf_real batch) (kpsf_imag batch))
    as [[E1 ->]|[N1 ->]]; cbn [bind].
  2:{ exists ShapeError. split; [reflexivity|]. split; [now right|].
      intros [E _]. contradiction. }
  destruct (Autoencoder_apply params (image batch) rng_key)
    as [[q posterior] code]. cbn [fst].
  destruct (vmap2_cases convolve_kpsf q
              (zip_with pair (kpsf_real batch) (kpsf_imag batch)))
    as [[E2 ->]|[N2 ->]]; cbn [bind].
  - exists NotImplementedError. split; [reflexivity|]. split; [now left|].
    reflexivity.
  - exists ShapeError. split; [reflexivity|]. split; [now right|].
    intros [_ E]. rewrite zip_with_length in N2 by assumption.
    contradiction.
Qed.

(** With no training step, or fewer, the setup raises: the cosine schedule
    of [new_optimizer] asks for a positive number of steps (and the check
    of the activation, which comes first, raises the same exception). *)
Lemma setup_needs_a_training_step (flags : Flags) :
  training_steps flags <= 0 ->
  setup flags = Raise ValueError /\ main flags = Raise ValueError.
Proof.
  intros Hsteps.
  assert (E : setup flags = Raise ValueError).
  { unfold VAE_SD_C.setup, Utils.get_activation_fn, Utils.new_optimizer,
      Utils.cosine_decay_schedule.
    destruct (negb (mem_string (act_fn flags) Utils.activation_functions));
      [reflexivity|].
    cbn [bind]. destruct (random_split (PRNGKey 1)) as [rng_1 rng_2].
    destruct (Z.ltb_spec 0 (training_steps flags)); [lia|reflexivity]. }
  split; [exact E|]. unfold VAE_SD_C.main. now rewrite E.
Qed.

(** C6 (as amended).  With a noise mode that is neither "Fourier" nor
    "Pixel", names of an activation and of an optimizer that exist and at
    least one training step, the setup completes: it has pulled one batch
    and raised nothing.  The run then stops in step 1, in the first call of
    [loss_fn], after the batch of the step has been pulled and before any
    update, loss record or checkpoint; the exception is
    [NotImplementedError] on a well-shaped batch. *)
Theorem unsupported_noise_fails_at_first_loss_call (flags : Flags)
  (Hfourier : noise flags <> "Fourier"%string)
  (Hpixel : noise flags <> "Pixel"%string)
  (Hact : mem_string (act_fn flags) Utils.activation_functions = true)
  (Hopt : mem_string (opt flags) Utils.optimizer_names = true)
  (Hsteps : 1 <= training_steps flags) :
  exists s0 e s1,
    setup flags = Ok s0 /\
    st_pulled s0 = 1%nat /\ st_losses s0 = [] /\
    artifacts (st_store s0) = [] /\
    main flags = Ok (Crashed e s1, None) /\
    (e = NotImplementedError \/ e = ShapeError) /\
    (well_shaped (st_params s0) (snd (random_split (st_rng s0)))
       (train_stream 1%nat) -> e = NotImplementedError) /\
    st_pulled s1 = 2%nat /\ st_losses s1 = [] /\
    st_params s1 = st_params s0 /\ st_store s1 = st_store s0.
Proof.
  unfold VAE_SD_C.main, VAE_SD_C.setup, Utils.get_activation_fn,
    Utils.new_optimizer, Utils.cosine_decay_schedule.
  rewrite Hact, Hopt. cbn [negb bind].
  destruct (random_split (PRNGKey 1)) as [rng_1 rng_2].
  destruct (Z.ltb_spec 0 (training_steps flags)) as [_|]; [|lia].
  cbn [negb bind].
  match goal with |- context [Training.run _ _ _ _ _ _ _ _ _ _ _ _ _ _ _ _ ?s] =>
    set (s0 := s) end.
  destruct (loss_fn_unsupported (noise flags) (st_params s0)
              (snd (random_split (st_rng s0))) (train_stream 1%nat)
              (reg_value flags) Hfourier Hpixel) as (e & He & Hkind & Hws).
  assert (Hup : Training.step_update OptState Key Batch Grads Updates
                  random_split train_stream (loss_fn (noise flags))
                  (loss_grad (noise flags)) (optimizer_update (opt flags))
                  apply_updates (reg_value flags) s0 = Raise e).
  { unfold Training.step_update, Training.update.
    change (st_pulled s0) with 1%nat. now rewrite He. }
  destruct (TrainingFacts.train_step_raised OptState Key Batch Grads Updates
              random_split train_stream test_split (loss_fn (noise flags))
              (loss_grad (noise flags)) (optimizer_update (opt flags))
              apply_updates (reg_value flags) None
              (training_steps flags) 1 s0 e Hup)
    as (s1 & Hs1 & Hparams & Hpulled & Hlosses & Hstore & _).
  exists s0, e, s1. unfold Training.run, Training.training_loop.
  rewrite TrainingFacts.step_range_cons by assumption.
  cbn [Training.run_steps]. rewrite Hs1.
  repeat split; assumption.
Qed.

End Main.

End NoiseModeFacts.

(** * The scripts run on the small worlds *)

Module Examples.
Import Store Training.

Notation sd_stream := (Toy.sd_stream Toy.spec_trace (9 # 10)).

(** The loop of [VAE_SD_C.py] with five steps: the first step records its
    loss, 5, and the division by zero stops the run. *)
Lemma small_total_steps_crash_witness :
  1 <= 5 < 50 /\
  exists (e : exn) (s : train_state unit N),
    Toy.sd_training_loop None sd_stream [] 5
      (Toy.initial_state (Toy.counter 0)) = Crashed e s /\
    st_pulled s = 2%nat /\
    e = ZeroDivisionError /\ st_losses s = [(250 # 50)%Q].
Proof.
  split; [lia|].
  destruct (TrainingFacts.small_total_steps_crash unit N VAE_SD_C.Batch
              unit unit Toy.random_split sd_stream []
              (Toy.sd_loss_fn "Pixel") (fun _ _ _ _ => tt)
              (fun _ opt_state _ => (tt, opt_state))
              (fun params _ => Toy.bump params) 1%Q None 5
              (Toy.initial_state (Toy.counter 0)))
    as (e & s & Hrun & Hpulled & Hupdate); [lia|].
  exists e, s. split; [exact Hrun|]. split; [exact Hpulled|].
  apply (Hupdate (250 # 50)%Q (0 # 50)%Q (Toy.counter 1) tt).
  reflexivity.
Defined.

(** [main] of both scripts with five training steps: the first step
    records its loss and then stops the run with the division by zero; no
    evaluation has taken place. *)
Lemma five_step_run_stops_in_step_one :
  (exists s,
      Toy.sd_main sd_stream [Toy.sd_batch 1] (Toy.sd_flags 5 "Pixel")
      = Ok (Crashed ZeroDivisionError s, None) /\
      length (st_losses s) = 1%nat /\ st_losses_test_step s = []) /\
  (exists s,
      Toy.resnet_main (Toy.resnet_stream [1; 3; 3; 4]%Q 100)
        [Toy.resnet_batch [1%Q]] (Toy.resnet_flags 5)
      = Ok (Crashed ZeroDivisionError s, None) /\
      length (st_losses s) = 1%nat /\ st_losses_test_step s = []).
Proof.
  split; eexists; (split; [vm_compute; reflexivity|]); split; reflexivity.
Qed.

(** With 100 steps the evaluation runs every second step. *)
Lemma hundred_step_run_evaluates_every_second_step :
  exists s report,
    Toy.sd_main sd_stream [Toy.sd_batch 1] (Toy.sd_flags 100 "Pixel")
    = Ok (Done s, Some report) /\
    st_losses_test_step s = map (fun k => 2 * Z.of_nat k) (seq 1 50).
Proof.
  eexists. eexists. split; [vm_compute; reflexivity|]. reflexivity.
Qed.

Notation sd_post_update_checkpoint :=
  (Training.post_update_checkpoint unit N VAE_SD_C.Batch unit unit
     (Toy.sd_loss_fn "Pixel") (fun _ _ _ _ => tt)
     (fun _ opt_state _ => (tt, opt_state))
     (fun params _ => Toy.bump params) 1%Q).

(** The checkpoints of a run of 50 steps of the loop of [VAE_SD_C.py]
    whose first losses are 5, 2, 3, 0.8, 0.9. *)
Lemma checkpoint_holds_post_update_params_witness :
  artifacts (st_store (Toy.initial_state (Toy.counter 0))) = [] /\
  let s :=
    state_of (Toy.sd_training_loop None sd_stream [Toy.sd_batch 1] 50
                (Toy.initial_state (Toy.counter 0))) in
  Forall (fun a => exists loss,
              In loss (st_losses s) /\ sd_post_update_checkpoint loss a)
    (artifacts (st_store s)) /\
  (forall a,
      use_artifact (checkpoint_name (st_store s)) "best"
        (artifacts (st_store s)) = Ok a ->
      sd_post_update_checkpoint (st_best_eval_loss s) a).
Proof.
  split; [reflexivity|].
  apply (TrainingFacts.checkpoint_holds_post_update_params unit N
           VAE_SD_C.Batch unit unit Toy.random_split sd_stream
           [Toy.sd_batch 1] (Toy.sd_loss_fn "Pixel") (fun _ _ _ _ => tt)
           (fun _ opt_state _ => (tt, opt_state))
           (fun params _ => Toy.bump params) 1%Q None 50
           (Toy.initial_state (Toy.counter 0))).
  reflexivity.
Defined.

(** In that run the best loss, 0.8, is the one of step 4: [loss_fn]
    computed it on the parameters after three updates, and the checkpoint
    under the alias "best" restores the parameters after four. *)
Lemma best_checkpoint_is_one_update_later :
  let s :=
    state_of (Toy.sd_training_loop None sd_stream [Toy.sd_batch 1] 50
                (Toy.initial_state (Toy.counter 0))) in
  (exists k ll,
      Toy.sd_loss_fn "Pixel" (Toy.counter 3) k (sd_stream 4%nat) 1
      = Ok (st_best_eval_loss s, ll)) /\
  load_checkpoint checkpoint_file (st_params s) (st_store s)
  = Ok (Toy.counter 4).
Proof.
  split; [exists 0%N; eexists|]; vm_compute; reflexivity.
Qed.

(** The first step of that run, and the trace under the threshold 1. *)
Lemma best_checkpoint_policy_witness :
  (Training.step_update unit N VAE_SD_C.Batch unit unit Toy.random_split
     sd_stream (Toy.sd_loss_fn "Pixel") (fun _ _ _ _ => tt)
     (fun _ opt_state _ => (tt, opt_state)) (fun params _ => Toy.bump params)
     1%Q (Toy.initial_state (Toy.counter 0))
   = Ok ((250 # 50)%Q, (0 # 50)%Q, Toy.counter 1, tt) /\
   let s1 :=
     state_of
       (Training.train_step unit N VAE_SD_C.Batch unit unit Toy.random_split
          sd_stream [Toy.sd_batch 1] (Toy.sd_loss_fn "Pixel")
          (fun _ _ _ _ => tt) (fun _ opt_state _ => (tt, opt_state))
          (fun params _ => Toy.bump params) 1%Q None 50 1
          (Toy.initial_state (Toy.counter 0))) in
   st_best_eval_loss s1 = (250 # 50)%Q /\
   st_store s1
   = saved_store checkpoint_file (Toy.counter 1) 1 Toy.empty_store) /\
  (Some 1%Q = Some 1%Q /\
   Training.checkpoints_on_trace (Some 1%Q) Toy.spec_trace_params 1 1000000
     Toy.empty_store
   = Ok ((8 # 10)%Q,
         saved_store checkpoint_file (Toy.counter 4) 4 Toy.empty_store)).
Proof.
  pose proof (TrainingFacts.best_checkpoint_policy (Params := Tree.ptree)
                unit N VAE_SD_C.Batch unit unit Toy.random_split sd_stream
                [Toy.sd_batch 1] (Toy.sd_loss_fn "Pixel") (fun _ _ _ _ => tt)
                (fun _ opt_state _ => (tt, opt_state))
                (fun params _ => Toy.bump params) 1%Q) as policy.
  split.
  - split; [reflexivity|].
    exact (proj1 (policy None) 50 1 (Toy.initial_state (Toy.counter 0))
             (250 # 50)%Q (0 # 50)%Q (Toy.counter 1) tt eq_refl).
  - split; [reflexivity|].
    exact (proj1 (proj1 (proj2 (policy (Some 1%Q)))
                    (Toy.counter 1) (Toy.counter 2) (Toy.counter 3)
                    (Toy.counter 4) (Toy.counter 5) Toy.empty_store)
             eq_refl).
Defined.

(** C4, as stated, fails on [VAE_SD_C.py]: on the trace 5, 2, 3, 0.8, 0.9
    its checkpoint block saves three times, and so does its [main] on a
    run of 50 steps that starts with these losses. *)
Lemma sd_policy_saves_three_checkpoints :
  (exists w,
      Training.checkpoints_on_trace None Toy.spec_trace_params 1 1000000 Toy.empty_store
      = Ok ((8 # 10)%Q, w) /\
      map art_aliases (artifacts w)
      = [["best"; "step_4"]; ["step_2"]; ["step_1"]]%string /\
      length (artifacts w) <> 1%nat) /\
  (exists s report,
      Toy.sd_main sd_stream [Toy.sd_batch 1] (Toy.sd_flags 50 "Pixel")
      = Ok (Done s, Some report) /\
      firstn 5 (map Qred (st_losses s)) = map Qred Toy.spec_trace /\
      map art_aliases (artifacts (st_store s))
      = [["best"; "step_4"]; ["step_2"]; ["step_1"]]%string).
Proof.
  split.
  - eexists. split; [vm_compute; reflexivity|].
    split; [reflexivity|discriminate].
  - eexists. eexists. split; [vm_compute; reflexivity|].
    split; vm_compute; reflexivity.
Qed.


Notation resnet_stream := (Toy.resnet_stream [1; 3; 3; 4]%Q 100).
Notation resnet_post_update_checkpoint :=
  (Training.post_update_checkpoint unit N VAE_Resnet_train_C.Batch unit unit
     Toy.resnet_loss_fn (fun _ _ _ _ => tt)
     (fun _ opt_state _ => (tt, opt_state))
     (fun params _ => (fst params, Toy.bump (snd params))) 0%Q).

(** The end of two runs of the loop of [VAE_Resnet_train_C.py]: one with
    a checkpoint, one without. *)
Lemma finalize_parameters_witness :
  artifacts (st_store (Toy.initial_state (Toy.counter 0, Toy.counter 0))) = [] /\
  (exists s,
      Toy.resnet_training_loop resnet_stream [Toy.resnet_batch [1%Q]] 50
        (Toy.initial_state (Toy.counter 0, Toy.counter 0)) = Done s /\
      (artifacts (st_store s) = [] ->
       Training.finalize unit N true s = Raise NoCheckpointAvailable) /\
      (forall a older,
          artifacts (st_store s) = a :: older ->
          exists bytes,
            art_files a = [(checkpoint_file, bytes)] /\
            resnet_post_update_checkpoint (st_best_eval_loss s) a /\
            forall r,
              Training.finalize unit N true s = Ok r ->
              from_bytes (st_params s) bytes = Ok (final_params r)) /\
      (forall r,
          Training.finalize unit N false s = Ok r ->
          final_params r = st_params s) /\
      Training.finalize unit N false s <> Raise NoCheckpointAvailable) /\
  (exists s,
      Toy.resnet_training_loop (Toy.resnet_stream [2%Q] 100)
        [Toy.resnet_batch [1%Q]] 50
        (Toy.initial_state (Toy.counter 0, Toy.counter 0)) = Done s /\
      artifacts (st_store s) = [] /\
      Training.finalize unit N true s = Raise NoCheckpointAvailable).
Proof.
  pose proof (fun stream =>
    TrainingFacts.finalize_parameters unit N VAE_Resnet_train_C.Batch
      unit unit Toy.random_split stream [Toy.resnet_batch [1%Q]]
      Toy.resnet_loss_fn (fun _ _ _ _ => tt)
      (fun _ opt_state _ => (tt, opt_state))
      (fun params _ => (fst params, Toy.bump (snd params))) 0%Q
      (Some 1%Q) 50 (Toy.initial_state (Toy.counter 0, Toy.counter 0)))
    as finalize.
  split; [reflexivity|]. split.
  - eexists. split; [vm_compute; reflexivity|].
    apply (finalize resnet_stream); [reflexivity|vm_compute; reflexivity].
  - eexists. split; [vm_compute; reflexivity|]. split; [reflexivity|].
    refine (proj1 (finalize (Toy.resnet_stream [2%Q] 100) _ _ _) _);
      [reflexivity|vm_compute; reflexivity|reflexivity].
Defined.

(** [main] of [VAE_Resnet_train_C.py] on two runs of 50 steps: one saves
    at step 1 only and goes on with the parameters of that checkpoint, not
    with those of step 50; the other one never has a loss below 1 and stops
    at the reload. *)
Lemma resnet_main_reloads_or_stops :
  (exists s r,
      Toy.resnet_main resnet_stream [Toy.resnet_batch [1%Q]]
        (Toy.resnet_flags 50) = Ok (Done s, Some (Ok r)) /\
      st_params s = (Toy.counter 0, Toy.counter 50) /\
      final_params r = (Toy.counter 0, Toy.counter 1)) /\
  (exists s,
      Toy.resnet_main (Toy.resnet_stream [2%Q] 100) [Toy.resnet_batch [1%Q]]
        (Toy.resnet_flags 50)
      = Ok (Done s, Some (Raise NoCheckpointAvailable)) /\
      artifacts (st_store s) = []).
Proof.
  split.
  - eexists. eexists. split; [vm_compute; reflexivity|]. split; reflexivity.
  - eexists. split; [vm_compute; reflexivity|]. reflexivity.
Qed.

(** C5, as stated, fails on [VAE_SD_C.py]: after a run whose best
    checkpoint is the one of step 4, [main] goes on with the parameters of
    step 50; and a run that has saved nothing ends without an error. *)
Lemma sd_main_goes_on_with_last_step_params :
  (exists s r best,
      Toy.sd_main sd_stream [Toy.sd_batch 1] (Toy.sd_flags 50 "Pixel")
      = Ok (Done s, Some (Ok r)) /\
      load_checkpoint checkpoint_file (st_params s) (st_store s) = Ok best /\
      best = Toy.counter 4 /\
      final_params r = Toy.counter 50 /\
      final_params r <> best) /\
  (exists s r,
      Toy.sd_main (Toy.sd_stream [] 2000000) [Toy.sd_batch 1]
        (Toy.sd_flags 50 "Pixel")
      = Ok (Done s, Some (Ok r)) /\
      artifacts (st_store s) = [] /\
      final_params r = st_params s).
Proof.
  split.
  - eexists. eexists. eexists. split; [vm_compute; reflexivity|].
    split; [vm_compute; reflexivity|].
    split; [reflexivity|]. split; [reflexivity|]. discriminate.
  - eexists. eexists. split; [vm_compute; reflexivity|].
    split; reflexivity.
Qed.

(** A run with the noise mode "Gaussian". *)
Lemma unsupported_noise_fails_at_first_loss_call_witness :
  VAE_SD_C.noise (Toy.sd_flags 5 "Gaussian") <> "Fourier"%string /\
  VAE_SD_C.noise (Toy.sd_flags 5 "Gaussian") <> "Pixel"%string /\
  1 <= VAE_SD_C.training_steps (Toy.sd_flags 5 "Gaussian") /\
  exists s0 e s1,
    Toy.sd_setup (Toy.sd_flags 5 "Gaussian") = Ok s0 /\
    st_pulled s0 = 1%nat /\ st_losses s0 = [] /\
    artifacts (st_store s0) = [] /\
    Toy.sd_main sd_stream [Toy.sd_batch 1] (Toy.sd_flags 5 "Gaussian")
    = Ok (Crashed e s1, None) /\
    (e = NotImplementedError \/ e = ShapeError) /\
    (VAE_SD_C.well_shaped Tree.ptree N (list tensor) (list tensor)
       Toy.Autoencoder_apply (st_params s0)
       (snd (Toy.random_split (st_rng s0))) (sd_stream 1%nat) ->
     e = NotImplementedError) /\
    st_pulled s1 = 2%nat /\ st_losses s1 = [] /\
    st_params s1 = st_params s0 /\ st_store s1 = st_store s0.
Proof.
  split; [discriminate|]. split; [discriminate|]. split; [cbn; lia|].
  apply (NoiseModeFacts.unsupported_noise_fails_at_first_loss_call
           unit N (list tensor) (list tensor) unit unit
           Toy.Autoencoder_apply Toy.posterior_log_prob Toy.prior_log_prob
           Toy.zeros_like Toy.convolve_kpsf Toy.fourier_loglikelihood
           Toy.PRNGKey Toy.random_split (fun _ _ _ => Toy.counter 0)
           (fun _ _ => tt) (fun _ _ opt_state _ => (tt, opt_state))
           (fun params _ => Toy.bump params) (fun _ _ _ _ _ => tt)
           sd_stream [Toy.sd_batch 1] "toy-run" (Toy.sd_flags 5 "Gaussian"));
    (discriminate || reflexivity || (cbn; lia)).
Defined.

(** C6, as stated, fails: with the noise mode "Gaussian" the setup of
    [VAE_SD_C.py] returns, with one batch pulled, and the exception comes
    from the call of [loss_fn] in step 1, after the second batch. *)
Lemma unsupported_noise_passes_setup :
  exists s0 s1,
    Toy.sd_setup (Toy.sd_flags 5 "Gaussian") = Ok s0 /\
    st_pulled s0 = 1%nat /\
    Toy.sd_main sd_stream [Toy.sd_batch 1] (Toy.sd_flags 5 "Gaussian")
    = Ok (Crashed NotImplementedError s1, None) /\
    st_pulled s1 = 2%nat /\
    Toy.sd_loss_fn "Gaussian" (st_params s0) (st_rng_1 s1) (sd_stream 1%nat) 1
    = Raise NotImplementedError.
Proof.
  eexists. eexists. split; [vm_compute; reflexivity|].
  split; [reflexivity|]. split; [vm_compute; reflexivity|].
  split; reflexivity.
Qed.

(** The names of the activation and of the optimizer are checked by the
    setup. *)
Lemma unknown_names_fail_in_setup :
  Toy.sd_setup
    {| VAE_SD_C.training_steps := 5; VAE_SD_C.reg_value := 1;
       VAE_SD_C.act_fn := "mish"; VAE_SD_C.opt := "adafactor";
       VAE_SD_C.learning_rate := 1 # 1000; VAE_SD_C.alpha := 0;
       VAE_SD_C.noise := "Pixel" |} = Raise ValueError /\
  Toy.sd_setup
    {| VAE_SD_C.training_steps := 5; VAE_SD_C.reg_value := 1;
       VAE_SD_C.act_fn := "gelu"; VAE_SD_C.opt := "sgd";
       VAE_SD_C.learning_rate := 1 # 1000; VAE_SD_C.alpha := 0;
       VAE_SD_C.noise := "Pixel" |} = Raise ValueError.
Proof. split; reflexivity. Qed.

(** [loss_fn] of [VAE_SD_C.py] on a pixel 3 that is reconstructed as 6,
    and [loss_fn] of [VAE_Resnet_train_C.py] on a pixel 1 that is
    reconstructed as 2: the log-likelihood terms are -180000 and -1/2. *)
Lemma reg_zero_pure_reconstruction_witness :
  (exists (log_likelihood : list Q) (loss0 : Q),
      VAE_SD_C.log_likelihood_term Tree.ptree N (list tensor) (list tensor)
        Toy.Autoencoder_apply Toy.convolve_kpsf Toy.fourier_loglikelihood
        "Pixel" (Toy.counter 0) 0%N (Toy.sd_batch_scaled 3 2)
      = Ok log_likelihood /\
      (9000000 # 50)%Q = (- Qmean log_likelihood)%Q /\
      Toy.sd_loss_fn "Pixel" (Toy.counter 0) 0%N (Toy.sd_batch_scaled 3 2) 0
      = Ok (loss0, (9000000 # 50)%Q) /\
      (loss0 == - Qmean log_likelihood)%Q) /\
  (exists (log_likelihood : tensor) (loss0 : Q),
      VAE_Resnet_train_C.log_likelihood_term Tree.ptree Tree.ptree N
        Toy.Dist (list tensor) Toy.Encoder_apply Toy.sample
        Toy.Decoder_apply Toy.convolve Toy.MultivariateNormalDiag
        Toy.log_prob (Toy.counter 0, Toy.counter 2) 0%N
        (Toy.resnet_batch [1%Q])
      = Ok log_likelihood /\
      (1 # 2)%Q = (- Qmean log_likelihood)%Q /\
      Toy.resnet_loss_fn (Toy.counter 0, Toy.counter 2) 0%N
        (Toy.resnet_batch [1%Q]) 0
      = Ok (loss0, (1 # 2)%Q) /\
      (loss0 == - Qmean log_likelihood)%Q).
Proof.
  split.
  - apply (proj1 ObjectiveFacts.reg_zero_pure_reconstruction Tree.ptree N
             (list tensor) (list tensor) Toy.Autoencoder_apply
             Toy.posterior_log_prob Toy.prior_log_prob Toy.zeros_like
             Toy.convolve_kpsf Toy.fourier_loglikelihood "Pixel"%string
             (Toy.counter 0) 0%N (Toy.sd_batch_scaled 3 2) 1%Q
             (9000150 # 50)%Q (9000000 # 50)%Q).
    reflexivity.
  - apply (proj2 ObjectiveFacts.reg_zero_pure_reconstruction Tree.ptree
             Tree.ptree N Toy.Dist (list tensor) Toy.Encoder_apply
             Toy.sample Toy.Decoder_apply Toy.convolve
             Toy.MultivariateNormalDiag Toy.kl_divergence Toy.log_prob
             (Toy.counter 0, Toy.counter 2) 0%N (Toy.resnet_batch [1%Q])
             1%Q (10 # 4)%Q (1 # 2)%Q).
    reflexivity.
Defined.

(** C3 (the code at a failing input).  [loss_fn] of
    [VAE_Resnet_train_C.py] on one image of 128 x 128 pixels with unit
    noise, where the posterior of the encoder is the prior itself and the
    decoded, convolved image is 1 in every pixel: the divergence of the
    posterior from the prior is 0 everywhere, and the term that the
    coefficient scales is 1/2 in every pixel, the divergence of the
    observation distribution from the zero-mean prior. *)
Lemma resnet_kl_term_is_on_the_observation :
  let params := (Toy.counter 0, Toy.counter 1) in
  let batch := Toy.resnet_batch (repeat 0%Q (128 * 128)) in
  let prior :=
    Toy.MultivariateNormalDiag VAE_Resnet_train_C.zeros_1_128_128_1 None in
  Toy.Encoder_apply (fst params) (VAE_Resnet_train_C.image batch) = prior /\
  VAE_Resnet_train_C.posterior_kl Tree.ptree Tree.ptree Toy.Dist
    Toy.Encoder_apply Toy.kl_divergence params batch prior
  = repeat (0 # 2)%Q (128 * 128) /\
  Toy.resnet_kl_term params 0%N batch = Ok (repeat (1 # 2)%Q (128 * 128)).
Proof.
  split; [|split]; vm_compute; reflexivity.
Qed.

End Examples.

(** * The run folder *)
Module PyStringFacts.
Import PyString.
Local Open Scope string_scope.

Lemma append_assoc (a b c : string) : (a ++ b) ++ c = a ++ b ++ c.
Proof. induction a as [|x a IH]; cbn; [reflexivity|now rewrite IH]. Qed.

Lemma length_append (a b : string) :
  String.length (a ++ b) = (String.length a + String.length b)%nat.
Proof. induction a as [|x a IH]; cbn; [reflexivity|now rewrite IH]. Qed.

Lemma prefix_nil (s : string) : String.prefix "" s = true.
Proof. now destruct s. Qed.

Lemma prefix_append (p r : string) : String.prefix p (p ++ r) = true.
Proof.
  induction p as [|x p IH]; cbn [append]; [apply prefix_nil|].
  cbn. destruct (ascii_dec x x); [exact IH|contradiction].
Qed.

(** Of two prefixes of one string the shorter is a prefix of the longer. *)
Lemma prefix_of_prefix (p q s : string) :
  String.prefix p s = true -> String.prefix q s = true ->
  (String.length p <= String.length q)%nat ->
  String.prefix p q = true.
Proof.
  revert q s. induction p as [|x p IH]; intros q s Hp Hq Hlen;
    [apply prefix_nil|].
  destruct s as [|y s]; [discriminate|].
  destruct q as [|z q]; [cbn in Hlen; lia|].
  cbn in Hp, Hq |- *.
  destruct (ascii_dec x y) as [->|]; [|discriminate].
  destruct (ascii_dec z y) as [->|]; [|discriminate].
  destruct (ascii_dec y y); [|contradiction].
  apply (IH q s Hp Hq). cbn in Hlen. lia.
Qed.

Lemma first_occurrence_eq (pat s : string) :
  first_occurrence pat s
  = if String.prefix pat s then Some O
    else
      match s with
      | EmptyString => None
      | String _ rest => option_map S (first_occurrence pat rest)
      end.
Proof. now destruct s. Qed.

Lemma find_from_first_occurrence (pat s : string) (i : Z) :
  find_from pat s i
  = match first_occurrence pat s with
    | Some k => (i + Z.of_nat k)%Z
    | None => (-1)%Z
    end.
Proof.
  revert i. induction s as [|c s IH]; intros i; cbn [find_from first_occurrence].
  - destruct (String.prefix pat ""); [cbn; lia|reflexivity].
  - destruct (String.prefix pat (String c s)); [cbn; lia|].
    rewrite IH. destruct (first_occurrence pat s); cbn; [lia|reflexivity].
Qed.

Lemma find_none (s pat : string) :
  find s pat = (-1)%Z <-> first_occurrence pat s = None.
Proof.
  unfold find. rewrite find_from_first_occurrence.
  destruct (first_occurrence pat s); split; intros E;
    try reflexivity; try discriminate; lia.
Qed.

(** Where [pat] follows a text in which, lengthened by all of [pat] but
    its last character, it starts nowhere, it is first found right after
    that text. *)
Lemma first_occurrence_after (a pat' b : string) (last : ascii) :
  let pat := pat' ++ String last "" in
  first_occurrence pat (a ++ pat') = None ->
  first_occurrence pat (a ++ pat ++ b) = Some (String.length a).
Proof.
  intros pat. induction a as [|c a IH]; cbn [append String.length].
  - intros _. now rewrite first_occurrence_eq, prefix_append.
  - cbn [first_occurrence].
    destruct (String.prefix pat (String c (a ++ pat'))) eqn:Hp; [discriminate|].
    destruct (first_occurrence pat (a ++ pat')) eqn:Hrest; [discriminate|].
    intros _. rewrite (IH eq_refl). cbn [option_map].
    destruct (String.prefix pat (String c (a ++ pat ++ b))) eqn:Hq;
      [|reflexivity].
    exfalso.
    assert (Hlong : String.prefix (String c (a ++ pat')) (String c (a ++ pat ++ b)) = true).
    { change (String c (a ++ pat ++ b)) with (String c a ++ pat ++ b).
      unfold pat. rewrite (append_assoc pat'), <- (append_assoc (String c a)).
      change (String c a ++ pat') with (String c (a ++ pat')).
      apply prefix_append. }
    pose proof (prefix_of_prefix _ _ _ Hq Hlong) as Hc.
    rewrite Hp in Hc. enough (true = false) by discriminate. symmetry. apply Hc.
    unfold pat. cbn [String.length]. rewrite !length_append. cbn. lia.
Qed.

Lemma substring_append (a run b : string) :
  substring (String.length a) (String.length run) (a ++ run ++ b) = run.
Proof.
  induction a as [|c a IH]; cbn [append String.length substring]; [|exact IH].
  revert b. induction run as [|c run IH]; intros b; cbn.
  - now destruct b.
  - now rewrite IH.
Qed.

Lemma slice_middle (a run b : string) :
  slice (a ++ run ++ b) (Z.of_nat (String.length a))
    (Z.of_nat (String.length a + String.length run)) = run.
Proof.
  unfold slice, slice_index. rewrite !length_append.
  destruct (Z.ltb_spec (Z.of_nat (String.length a)) 0); [lia|].
  destruct (Z.ltb_spec (Z.of_nat (String.length a + String.length run)) 0);
    [lia|].
  rewrite !Z.min_l by lia.
  destruct (Z.ltb_spec (Z.of_nat (String.length a))
              (Z.of_nat (String.length a + String.length run))) as [Hlt|Hge].
  - rewrite Nat2Z.id.
    replace (Z.to_nat (Z.of_nat (String.length a + String.length run)
                       - Z.of_nat (String.length a)))
      with (String.length run) by lia.
    apply substring_append.
  - destruct run; [reflexivity|cbn [String.length] in Hge; lia].
Qed.

(** X1.  On a path [pre ++ "wandb/" ++ run ++ "/files" ++ post] in which
    "wandb/" does not start before the end of [pre] and "/files" does not
    start before the end of [run], the function returns [run]. *)
Theorem get_wandb_local_dir_run (pre run post : string)
  (Hwandb : find (pre ++ "wandb") "wandb/" = (-1)%Z)
  (Hfiles : find (pre ++ "wandb/" ++ run ++ "/file") "/files" = (-1)%Z) :
  get_wandb_local_dir (pre ++ "wandb/" ++ run ++ "/files" ++ post) = run.
Proof.
  apply find_none in Hwandb, Hfiles.
  assert (E1 : first_occurrence "wandb/"
                 (pre ++ "wandb/" ++ run ++ "/files" ++ post)
               = Some (String.length pre))
    by exact (first_occurrence_after pre "wandb" (run ++ "/files" ++ post)
                "/"%char Hwandb).
  assert (E2 : first_occurrence "/files"
                 (pre ++ "wandb/" ++ run ++ "/files" ++ post)
               = Some (String.length (pre ++ "wandb/" ++ run))).
  { pose proof (first_occurrence_after (pre ++ "wandb/" ++ run) "/file" post
                  "s"%char) as E.
    cbv zeta in E. rewrite !(append_assoc pre) in E. exact (E Hfiles). }
  unfold get_wandb_local_dir, find.
  rewrite !find_from_first_occurrence, E1, E2.
  rewrite <- (append_assoc pre "wandb/").
  replace (0 + Z.of_nat (String.length pre)
           + Z.of_nat (String.length "wandb/"))%Z
    with (Z.of_nat (String.length (pre ++ "wandb/")))
    by (rewrite length_append; lia).
  replace (0 + Z.of_nat (String.length (pre ++ "wandb/" ++ run)))%Z
    with (Z.of_nat (String.length (pre ++ "wandb/") + String.length run))
    by (rewrite <- (append_assoc pre), (length_append (pre ++ "wandb/")); lia).
  apply slice_middle.
Qed.

Lemma get_wandb_local_dir_run_witness :
  find ("/home/user/run/" ++ "wandb") "wandb/" = (-1)%Z /\
  get_wandb_local_dir
    ("/home/user/run/" ++ "wandb/" ++ "offline-run-20230601_101500-ab12cd34"
     ++ "/files" ++ "")
  = "offline-run-20230601_101500-ab12cd34".
Proof.
  split; [reflexivity|].
  apply (get_wandb_local_dir_run "/home/user/run/"
           "offline-run-20230601_101500-ab12cd34" ""); reflexivity.
Defined.

(** X2.  Without "/files" in the path the end of the slice is the index [-1]:
    the function returns what follows "wandb/" without its last
    character. *)
Theorem get_wandb_local_dir_no_files (pre run : string) (c : ascii)
  (Hwandb : find (pre ++ "wandb") "wandb/" = (-1)%Z)
  (Hfiles : find (pre ++ "wandb/" ++ run ++ String c "") "/files" = (-1)%Z) :
  get_wandb_local_dir (pre ++ "wandb/" ++ run ++ String c "") = run.
Proof.
  apply find_none in Hwandb.
  assert (E1 : first_occurrence "wandb/"
                 (pre ++ "wandb/" ++ run ++ String c "")
               = Some (String.length pre))
    by exact (first_occurrence_after pre "wandb" (run ++ String c "")
                "/"%char Hwandb).
  unfold get_wandb_local_dir. rewrite Hfiles. unfold find.
  rewrite find_from_first_occurrence, E1.
  rewrite <- (append_assoc pre "wandb/").
  set (a := pre ++ "wandb/").
  assert (Hn : (0 + Z.of_nat (String.length pre)
                + Z.of_nat (String.length "wandb/")
                = Z.of_nat (String.length a))%Z).
  { unfold a. rewrite length_append. lia. }
  assert (Hlen : String.length (a ++ run ++ String c "")
                 = (String.length a + (String.length run + 1))%nat).
  { now rewrite !length_append. }
  rewrite Hn. unfold slice, slice_index. rewrite Hlen.
  destruct (Z.ltb_spec (Z.of_nat (String.length a)) 0); [lia|].
  change (-1 <? 0)%Z with true. cbv iota.
  rewrite Z.min_l by lia. rewrite Z.max_r by lia.
  destruct (Z.ltb_spec (Z.of_nat (String.length a))
              (-1 + Z.of_nat (String.length a + (String.length run + 1))))
    as [Hlt|Hge].
  - rewrite Nat2Z.id.
    replace (Z.to_nat
               (-1 + Z.of_nat (String.length a + (String.length run + 1))
                - Z.of_nat (String.length a)))
      with (String.length run) by lia.
    apply substring_append.
  - destruct run; [reflexivity|cbn [String.length] in Hge; lia].
Qed.

Lemma get_wandb_local_dir_no_files_witness :
  find ("/home/user/run/" ++ "wandb") "wandb/" = (-1)%Z /\
  get_wandb_local_dir ("/home/user/run/" ++ "wandb/" ++ "run-" ++ "7")
  = "run-".
Proof.
  split; [reflexivity|].
  apply (get_wandb_local_dir_no_files "/home/user/run/" "run-" "7"%char);
    reflexivity.
Defined.

End PyStringFacts.

(** * The colour range of the sample images *)
Module SamplesFacts.
Import Numpy Samples.

Lemma fold_min_Num (l : list npfloat) :
  forall x m, fold_left np_minimum l x = Num m ->
    In (Num m) (x :: l) /\
    forall v, In v (x :: l) -> exists q, v = Num q /\ (m <= q)%Q.
Proof.
  induction l as [|y l IH]; intros x m; cbn [fold_left].
  - intros ->. split; [now left|]. intros v [<-|[]].
    exists m. split; [reflexivity|apply Qle_refl].
  - intros E. destruct (IH _ _ E) as [Hin Hall].
    destruct (Hall _ (or_introl eq_refl)) as (q & Eq & Hq).
    destruct x as [x|], y as [y|]; try discriminate.
    cbn [np_minimum] in *. injection Eq as Eq.
    split.
    + destruct Hin as [E'|Hin]; [|right; now right].
      injection E' as E'. rewrite <- E'.
      destruct (Qltb y x); [right; now left|now left].
    + intros v [<-|[<-|Hv]].
      * exists x. split; [reflexivity|]. apply Qle_trans with q; [assumption|].
        subst q. destruct (Qltb y x) eqn:C; [|apply Qle_refl].
        apply Qlt_le_weak. now apply Qltb_lt.
      * exists y. split; [reflexivity|]. apply Qle_trans with q; [assumption|].
        subst q. destruct (Qltb y x) eqn:C; [apply Qle_refl|].
        now apply Qltb_ge.
      * apply Hall. now right.
Qed.

Lemma fold_max_Num (l : list npfloat) :
  forall x m, fold_left np_maximum l x = Num m ->
    In (Num m) (x :: l) /\
    forall v, In v (x :: l) -> exists q, v = Num q /\ (q <= m)%Q.
Proof.
  induction l as [|y l IH]; intros x m; cbn [fold_left].
  - intros ->. split; [now left|]. intros v [<-|[]].
    exists m. split; [reflexivity|apply Qle_refl].
  - intros E. destruct (IH _ _ E) as [Hin Hall].
    destruct (Hall _ (or_introl eq_refl)) as (q & Eq & Hq).
    destruct x as [x|], y as [y|]; try discriminate.
    cbn [np_maximum] in *. injection Eq as Eq.
    split.
    + destruct Hin as [E'|Hin]; [|right; now right].
      injection E' as E'. rewrite <- E'.
      destruct (Qltb x y); [right; now left|now left].
    + intros v [<-|[<-|Hv]].
      * exists x. split; [reflexivity|]. apply Qle_trans with q; [|assumption].
        subst q. destruct (Qltb x y) eqn:C; [|apply Qle_refl].
        apply Qlt_le_weak. now apply Qltb_lt.
      * exists y. split; [reflexivity|]. apply Qle_trans with q; [|assumption].
        subst q. destruct (Qltb x y) eqn:C; [apply Qle_refl|].
        now apply Qltb_ge.
      * apply Hall. now right.
Qed.

Lemma fold_min_NaN (l : list npfloat) :
  forall x, fold_left np_minimum l x = NaN -> In NaN (x :: l).
Proof.
  induction l as [|y l IH]; intros x; cbn [fold_left].
  - intros ->. now left.
  - intros E. destruct (IH _ E) as [E'|Hin]; [|right; now right].
    destruct x, y; try discriminate; auto; [right; now left|now left..].
Qed.

Lemma fold_max_NaN (l : list npfloat) :
  forall x, fold_left np_maximum l x = NaN -> In NaN (x :: l).
Proof.
  induction l as [|y l IH]; intros x; cbn [fold_left].
  - intros ->. now left.
  - intros E. destruct (IH _ E) as [E'|Hin]; [|right; now right].
    destruct x, y; try discriminate; auto; [right; now left|now left..].
Qed.

Lemma np_min_Num (l : list npfloat) (m : Q) :
  np_min l = NpOk (Num m) ->
  In (Num m) l /\ forall v, In v l -> exists q, v = Num q /\ (m <= q)%Q.
Proof.
  destruct l as [|x l]; [discriminate|]. intros [= E].
  now apply fold_min_Num.
Qed.

Lemma np_max_Num (l : list npfloat) (m : Q) :
  np_max l = NpOk (Num m) ->
  In (Num m) l /\ forall v, In v l -> exists q, v = Num q /\ (q <= m)%Q.
Proof.
  destruct l as [|x l]; [discriminate|]. intros [= E].
  now apply fold_max_Num.
Qed.

Lemma np_min_NaN (l : list npfloat) : np_min l = NpOk NaN -> In NaN l.
Proof.
  destruct l as [|x l]; [discriminate|]. intros [= E].
  now apply fold_min_NaN.
Qed.

Lemma np_max_NaN (l : list npfloat) : np_max l = NpOk NaN -> In NaN l.
Proof.
  destruct l as [|x l]; [discriminate|]. intros [= E].
  now apply fold_max_NaN.
Qed.

Lemma np_sequence_map_ok {A B : Type} (f : A -> B) (l : list A) :
  np_sequence (map (fun x => NpOk (f x)) l) = NpOk (map f l).
Proof.
  induction l as [|x l IH]; cbn; [reflexivity|]. now rewrite IH.
Qed.

Lemma np_sequence_zip_ok {A B C : Type} (f : A -> B -> C) (a : list A) :
  forall b,
    np_sequence (zip_with (fun x y => NpOk (f x y)) a b)
    = NpOk (zip_with f a b).
Proof.
  induction a as [|x a IH]; intros [|y b]; cbn; try reflexivity.
  now rewrite IH.
Qed.

Lemma zip_with_length_eq {A B C : Type} (f : A -> B -> C) (a : list A) :
  forall b, length a = length b -> length (zip_with f a b) = length a.
Proof.
  induction a as [|x a IH]; intros [|y b] E; try discriminate;
    [reflexivity|]. cbn. f_equal. apply IH. now injection E.
Qed.

Lemma Qsum_zip_minus (a : list Q) :
  forall b, length a = length b ->
    (Qsum (zip_with Qminus a b) == Qsum a - Qsum b)%Q.
Proof.
  induction a as [|x a IH]; intros [|y b] E; try discriminate.
  - cbn. ring.
  - cbn [zip_with]. unfold Qsum in *. cbn [fold_right].
    rewrite IH by (cbn in E; lia). ring.
Qed.

Lemma Qsum_map_minus_l (x : Q) (l : list Q) :
  (Qsum (map (fun y => x - y) l)
   == inject_Z (Z.of_nat (length l)) * x - Qsum l)%Q.
Proof.
  induction l as [|y l IH].
  - cbn. ring.
  - unfold Qsum in *. cbn [map fold_right length]. rewrite IH.
    rewrite Nat2Z.inj_succ, <- Z.add_1_r, inject_Z_plus. ring.
Qed.

Lemma Qsum_map_minus_r (y : Q) (l : list Q) :
  (Qsum (map (fun x => x - y) l)
   == Qsum l - inject_Z (Z.of_nat (length l)) * y)%Q.
Proof.
  induction l as [|x l IH].
  - cbn. ring.
  - unfold Qsum in *. cbn [map fold_right length]. rewrite IH.
    rewrite Nat2Z.inj_succ, <- Z.add_1_r, inject_Z_plus. ring.
Qed.

Lemma length_cons_nonzero {A : Type} (x : A) (l : list A) :
  ~ (inject_Z (Z.of_nat (length (x :: l))) == 0)%Q.
Proof.
  cbn [length]. rewrite Nat2Z.inj_succ. unfold Qeq. cbn. lia.
Qed.

(** Over the channels of a pixel, the mean of the difference is the
    difference of the means, also where one side has a single channel. *)
Lemma mean_sub_channels (pc oc dc : list Q) :
  broadcast (fun x y => NpOk (x - y)%Q) pc oc = NpOk dc ->
  npfloat_eq (np_mean dc) (np_sub (np_mean pc) (np_mean oc)).
Proof.
  unfold broadcast. destruct (length pc =? length oc)%nat eqn:E.
  - apply Nat.eqb_eq in E. rewrite np_sequence_zip_ok. intros [= <-].
    destruct pc as [|x pc], oc as [|y oc]; try discriminate; [exact I|].
    cbn [zip_with np_mean np_sub npfloat_eq]. unfold Qmean.
    rewrite (Qsum_zip_minus (x :: pc) (y :: oc) E).
    change (zip_with Qminus (x :: pc) (y :: oc))
      with ((x - y)%Q :: zip_with Qminus pc oc).
    cbn [length]. rewrite zip_with_length_eq by (cbn in E; lia).
    replace (length oc) with (length pc) by (cbn in E; lia).
    field. exact (length_cons_nonzero x pc).
  - destruct pc as [|x [|x' pc]].
    + destruct oc as [|y [|y' oc]]; try discriminate.
      cbn. intros [= <-]. exact I.
    + rewrite np_sequence_map_ok. intros [= <-].
      destruct oc as [|y oc]; [exact I|].
      cbn [map np_mean np_sub npfloat_eq]. unfold Qmean.
      change ((x - y)%Q :: map (fun y0 => (x - y0)%Q) oc)
        with (map (fun y0 => (x - y0)%Q) (y :: oc)).
      rewrite (Qsum_map_minus_l x (y :: oc)).
      change (Qsum [x]) with (x + 0)%Q.
      change (inject_Z (Z.of_nat (length [x]))) with 1%Q.
      cbn [length]. rewrite ?length_map. cbn [length].
      field. exact (length_cons_nonzero y oc).
    + destruct oc as [|y [|y' oc]]; try discriminate.
      rewrite np_sequence_map_ok. intros [= <-].
      cbn [map np_mean np_sub npfloat_eq]. unfold Qmean.
      change ((x - y)%Q :: (x' - y)%Q :: map (fun x0 => (x0 - y)%Q) pc)
        with (map (fun x0 => (x0 - y)%Q) (x :: x' :: pc)).
      rewrite (Qsum_map_minus_r y (x :: x' :: pc)).
      change (Qsum [y]) with (y + 0)%Q.
      change (inject_Z (Z.of_nat (length [y]))) with 1%Q.
      cbn [length]. rewrite ?length_map. cbn [length].
      field. exact (length_cons_nonzero x (x' :: pc)).
Qed.

Lemma np_sequence_rel {C C' : Type} (R : C -> C' -> Prop)
  (la : list (np_result C)) :
  forall (lb : list (np_result C')) d,
    Forall2 (fun r r' =>
               forall c, r = NpOk c -> exists c', r' = NpOk c' /\ R c c')
      la lb ->
    np_sequence la = NpOk d ->
    exists d', np_sequence lb = NpOk d' /\ Forall2 R d d'.
Proof.
  induction la as [|r la IH]; intros lb d Hrel; inversion Hrel; subst.
  - intros [= <-]. exists []. split; [reflexivity|constructor].
  - cbn [np_sequence]. destruct r as [c|]; [|discriminate].
    cbn [np_bind]. destruct (np_sequence la) as [cs|] eqn:E; [|discriminate].
    intros [= <-]. destruct (H1 c eq_refl) as (c' & -> & Hc).
    destruct (IH _ _ H3 eq_refl) as (cs' & -> & Hcs).
    exists (c' :: cs'). split; [reflexivity|now constructor].
Qed.

Section BroadcastMap.

Context {A B C A' B' C' : Type}.
Variables (f : A -> B -> np_result C) (g : A' -> B' -> np_result C').
Variables (ma : A -> A') (mb : B -> B') (R : C -> C' -> Prop).
Hypothesis f_g :
  forall x y c, f x y = NpOk c -> exists c', g (ma x) (mb y) = NpOk c' /\ R c c'.

Lemma zip_with_rel (a : list A) :
  forall b,
    Forall2 (fun r r' =>
               forall c, r = NpOk c -> exists c', r' = NpOk c' /\ R c c')
      (zip_with f a b) (zip_with g (map ma a) (map mb b)).
Proof.
  induction a as [|x a IH]; intros [|y b]; cbn; constructor.
  - apply f_g.
  - apply IH.
Qed.

(** A binary operation with broadcasting goes through maps of its two
    arguments when the operation on the elements does. *)
Lemma broadcast_map (a : list A) (b : list B) (d : list C) :
  broadcast f a b = NpOk d ->
  exists d', broadcast g (map ma a) (map mb b) = NpOk d' /\ Forall2 R d d'.
Proof.
  unfold broadcast. rewrite !length_map.
  destruct (length a =? length b)%nat.
  - apply np_sequence_rel, zip_with_rel.
  - destruct a as [|x [|x' a]].
    + destruct b as [|y [|y' b]]; try discriminate.
      cbn [map]. apply np_sequence_rel. repeat constructor.
    + cbn [map]. rewrite map_map. apply np_sequence_rel.
      induction b as [|y b IH]; cbn; constructor; [apply f_g|apply IH].
    + destruct b as [|y [|y' b]]; try discriminate.
      cbn [map]. apply np_sequence_rel.
      constructor; [apply f_g|]. constructor; [apply f_g|].
      induction a as [|x'' a IH]; cbn; constructor; [apply f_g|apply IH].
Qed.

End BroadcastMap.

(** The fourth panel of [save_samples] holds the channel means of the
    difference that [norm_values_one_diff] looks at. *)
Lemma difference_panel_mean_sub (o p d : image) :
  image_sub p o = NpOk d ->
  exists m,
    difference_panel o p = NpOk m /\
    Forall2 (Forall2 npfloat_eq) (mean_last_axis d) m.
Proof.
  intros Hd. unfold image_sub in Hd. unfold difference_panel, mean_last_axis.
  destruct (broadcast_map
              (broadcast (broadcast (fun x y => NpOk (x - y)%Q)))
              (broadcast (fun x y => NpOk (np_sub x y)))
              (map np_mean) (map np_mean)
              (fun drow mrow => Forall2 npfloat_eq (map np_mean drow) mrow))
    with (a := p) (b := o) (d := d) as (m & Hm & Hrel); [|assumption|].
  - intros prow orow drow Hrow.
    destruct (broadcast_map
                (broadcast (fun x y => NpOk (x - y)%Q))
                (fun x y => NpOk (np_sub x y))
                np_mean np_mean
                (fun dc v => npfloat_eq (np_mean dc) v))
      with (a := prow) (b := orow) (d := drow) as (mrow & Hmrow & Hr);
      [|assumption|].
    + intros pc oc dc Hdc. eexists. split; [reflexivity|].
      now apply mean_sub_channels.
    + exists mrow. split; [assumption|].
      clear -Hr. induction Hr; cbn; constructor; assumption.
  - exists m. split; [assumption|].
    clear -Hrel. induction Hrel; cbn; constructor; assumption.
Qed.

Lemma Forall2_concat_in {X Y : Type} (R : X -> Y -> Prop)
  (a : list (list X)) (b : list (list Y)) :
  Forall2 (Forall2 R) a b ->
  forall y, In y (concat b) -> exists x, In x (concat a) /\ R x y.
Proof.
  induction 1 as [|ra rb a b Hr _ IH]; intros y; cbn [concat]; [intros []|].
  rewrite in_app_iff. intros [Hy|Hy].
  - clear IH. induction Hr as [|x y' ra rb Hxy _ IHr]; [destruct Hy|].
    destruct Hy as [<-|Hy].
    + exists x. split; [now left|assumption].
    + destruct (IHr Hy) as (x' & Hin & Hx').
      exists x'. split; [|assumption]. cbn [concat app] in *. now right.
  - destruct (IH y Hy) as (x & Hin & Hx). exists x. split; [|assumption].
    apply in_app_iff. now right.
Qed.

Section Arrays.

Context {Orig Inf1 : Type} `{Array Orig} `{Array Inf1}.

Lemma norm_values_loop_spec (orig : Orig) (inf1 : Inf1)
  (indices : list nat) :
  forall lows highs,
    norm_values_loop orig inf1 indices = NpOk (lows, highs) ->
    length lows = length indices /\
    (forall i, In i indices ->
       exists low high,
         In low lows /\ In high highs /\ recorded orig inf1 i low high) /\
    (forall low, In low lows ->
       exists i high, In i indices /\ recorded orig inf1 i low high) /\
    (forall high, In high highs ->
       exists i low, In i indices /\ recorded orig inf1 i low high).
Proof.
  induction indices as [|i rest IH]; intros lows highs E;
    cbn [norm_values_loop] in E.
  - injection E as <- <-. repeat split; intros ? [].
  - destruct (index orig i) as [o|] eqn:Eo; [|discriminate E].
    destruct (index inf1 i) as [p|] eqn:Ep; [|discriminate E].
    cbn [np_bind] in E.
    destruct (image_sub p o) as [d|] eqn:Ed; [|discriminate E].
    cbn [np_bind] in E.
    destruct (np_min _) as [low|] eqn:El; [|discriminate E].
    destruct (np_max _) as [high|] eqn:Eh; [|discriminate E].
    cbn [np_bind] in E.
    destruct (norm_values_loop orig inf1 rest) as [[lows' highs']|];
      [|discriminate E].
    cbn [np_bind fst snd] in E. injection E as <- <-.
    destruct (IH _ _ eq_refl) as (Hlen & Hall & Hlow & Hhigh).
    assert (Hrec : recorded orig inf1 i low high) by now exists o, p, d.
    split; [cbn; now rewrite Hlen|]. split; [|split].
    + intros j [<-|Hj].
      * exists low, high. split; [now left|]. split; [now left|assumption].
      * destruct (Hall j Hj) as (l' & h' & ? & ? & ?).
        exists l', h'. split; [now right|]. split; [now right|assumption].
    + intros l [<-|Hin].
      * exists i, high. split; [now left|assumption].
      * destruct (Hlow l Hin) as (j & h' & ? & ?).
        exists j, h'. split; [now right|assumption].
    + intros h [<-|Hin].
      * exists i, low. split; [now left|assumption].
      * destruct (Hhigh h Hin) as (j & l' & ? & ?).
        exists j, l'. split; [now right|assumption].
Qed.

(** The range that [norm_values_one_diff] returns covers the channel
    means of the differences of the first [num_images] images. *)
Lemma norm_values_one_diff_covers (orig : Orig) (inf1 : Inf1)
  (num_images : nat) (low high : Q) :
  norm_values_one_diff orig inf1 num_images = NpOk (Num low, Num high) ->
  forall i, (i < num_images)%nat ->
    exists o p d,
      index orig i = NpOk o /\ index inf1 i = NpOk p /\
      image_sub p o = NpOk d /\
      forall v, In v (concat (mean_last_axis d)) ->
        exists q, v = Num q /\ (low <= q <= high)%Q.
Proof.
  intros Hreturns. unfold norm_values_one_diff in Hreturns.
  destruct (norm_values_loop orig inf1 (seq 0 num_images))
    as [[lows highs]|] eqn:Eloop; [|discriminate Hreturns].
  cbn [np_bind fst snd] in Hreturns.
  destruct (np_min lows) as [l|] eqn:El; [|discriminate Hreturns].
  destruct (np_max highs) as [h|] eqn:Eh; [|discriminate Hreturns].
  cbn [np_bind] in Hreturns. injection Hreturns as -> ->.
  destruct (norm_values_loop_spec _ _ _ _ _ Eloop) as (_ & Hall & _).
  apply np_min_Num in El as [_ Hlle].
  apply np_max_Num in Eh as [_ Hhge].
  intros i Hi. destruct (Hall i) as (l' & h' & Hl' & Hh' & Hrec).
  { apply in_seq. lia. }
  destruct Hrec as (o & p & d & Ho & Hp & Hd & Hmin & Hmax).
  exists o, p, d. repeat (split; [assumption|]). intros v Hv.
  destruct (Hlle _ Hl') as (ql & -> & Hql).
  destruct (Hhge _ Hh') as (qh & -> & Hqh).
  apply np_min_Num in Hmin as [_ Hmin].
  apply np_max_Num in Hmax as [_ Hmax].
  destruct (Hmin v Hv) as (q & -> & Hq1).
  destruct (Hmax _ Hv) as (q' & [= <-] & Hq2).
  exists q. split; [reflexivity|]. split.
  - now apply Qle_trans with ql.
  - now apply Qle_trans with qh.
Qed.

(** X5.  [norm_values_one_diff] returns NaN for both bounds or for none
    of them; and when a pixel of one of the differences of the first
    [num_images] images has no channel, what it returns is NaN for both
    bounds. *)
Theorem norm_values_one_diff_nan (orig : Orig) (inf1 : Inf1)
  (num_images : nat) (low high : npfloat)
  (Hreturns : norm_values_one_diff orig inf1 num_images = NpOk (low, high)) :
  (low = NaN <-> high = NaN) /\
  ((exists i o p d,
       (i < num_images)%nat /\ index orig i = NpOk o /\
       index inf1 i = NpOk p /\ image_sub p o = NpOk d /\
       In [] (concat d)) ->
   low = NaN /\ high = NaN).
Proof.
  unfold norm_values_one_diff in Hreturns.
  destruct (norm_values_loop orig inf1 (seq 0 num_images))
    as [[lows highs]|] eqn:Eloop; [|discriminate Hreturns].
  cbn [np_bind fst snd] in Hreturns.
  destruct (np_min lows) as [l|] eqn:El; [|discriminate Hreturns].
  destruct (np_max highs) as [h|] eqn:Eh; [|discriminate Hreturns].
  cbn [np_bind] in Hreturns. injection Hreturns as -> ->.
  destruct (norm_values_loop_spec _ _ _ _ _ Eloop)
    as (Hlen & Hall & Hlow & Hhigh).
  assert (Hex : forall i o p d,
             In i (seq 0 num_images) -> index orig i = NpOk o ->
             index inf1 i = NpOk p -> image_sub p o = NpOk d ->
             In NaN (concat (mean_last_axis d)) ->
             low = NaN /\ high = NaN).
  { intros i o p d Hi Ho Hp Hd Hnan.
    destruct (Hall i Hi) as (l' & h' & Hl' & Hh' & Hrec).
    destruct Hrec as (o' & p' & d' & Ho' & Hp' & Hd' & Hmin & Hmax).
    rewrite Ho in Ho'. injection Ho' as <-.
    rewrite Hp in Hp'. injection Hp' as <-.
    rewrite Hd in Hd'. injection Hd' as <-.
    assert (l' = NaN).
    { destruct l' as [q|]; [|reflexivity].
      apply np_min_Num in Hmin as [_ Hmin].
      destruct (Hmin _ Hnan) as (? & ? & _). discriminate. }
    assert (h' = NaN).
    { destruct h' as [q|]; [|reflexivity].
      apply np_max_Num in Hmax as [_ Hmax].
      destruct (Hmax _ Hnan) as (? & ? & _). discriminate. }
    subst l' h'. split.
    - destruct low as [q|]; [|reflexivity].
      apply np_min_Num in El as [_ El].
      destruct (El _ Hl') as (? & ? & _). discriminate.
    - destruct high as [q|]; [|reflexivity].
      apply np_max_Num in Eh as [_ Eh].
      destruct (Eh _ Hh') as (? & ? & _). discriminate. }
  assert (Hl : low = NaN ->
               exists i o p d,
                 In i (seq 0 num_images) /\ index orig i = NpOk o /\
                 index inf1 i = NpOk p /\ image_sub p o = NpOk d /\
                 In NaN (concat (mean_last_axis d))).
  { intros ->. apply np_min_NaN in El.
    destruct (Hlow _ El) as (i & h' & Hi & Hrec).
    destruct Hrec as (o & p & d & Ho & Hp & Hd & Hmin & Hmax).
    exists i, o, p, d. repeat (split; [assumption|]).
    now apply np_min_NaN. }
  assert (Hh : high = NaN ->
               exists i o p d,
                 In i (seq 0 num_images) /\ index orig i = NpOk o /\
                 index inf1 i = NpOk p /\ image_sub p o = NpOk d /\
                 In NaN (concat (mean_last_axis d))).
  { intros ->. apply np_max_NaN in Eh.
    destruct (Hhigh _ Eh) as (i & l' & Hi & Hrec).
    destruct Hrec as (o & p & d & Ho & Hp & Hd & Hmin & Hmax).
    exists i, o, p, d. repeat (split; [assumption|]).
    now apply np_max_NaN. }
  split; [split|].
  - intros E. destruct (Hl E) as (i & o & p & d & ? & ? & ? & ? & ?).
    now apply (Hex i o p d).
  - intros E. destruct (Hh E) as (i & o & p & d & ? & ? & ? & ? & ?).
    now apply (Hex i o p d).
  - intros (i & o & p & d & Hi & Ho & Hp & Hd & Hempty).
    apply (Hex i o p d); try assumption; [apply in_seq; lia|].
    unfold mean_last_axis. rewrite <- concat_map.
    apply (in_map np_mean) in Hempty. exact Hempty.
Qed.

(** X3.  When [norm_values_one_diff] returns two numbers [[low, high]]: there
    is at least one image to look at; each of the first [num_images] images
    has been read from both arrays and every channel mean of the
    difference of the two lies between [low] and [high]; and [low] and
    [high] are themselves such channel means. *)
Theorem norm_values_one_diff_bounds (orig : Orig) (inf1 : Inf1)
  (num_images : nat) (low high : Q)
  (Hreturns :
     norm_values_one_diff orig inf1 num_images = NpOk (Num low, Num high)) :
  (1 <= num_images)%nat /\
  (forall i, (i < num_images)%nat ->
     exists o p d,
       index orig i = NpOk o /\ index inf1 i = NpOk p /\
       image_sub p o = NpOk d /\
       forall v, In v (concat (mean_last_axis d)) ->
         exists q, v = Num q /\ (low <= q <= high)%Q) /\
  (exists i o p d,
     (i < num_images)%nat /\ index orig i = NpOk o /\
     index inf1 i = NpOk p /\ image_sub p o = NpOk d /\
     In (Num low) (concat (mean_last_axis d))) /\
  (exists i o p d,
     (i < num_images)%nat /\ index orig i = NpOk o /\
     index inf1 i = NpOk p /\ image_sub p o = NpOk d /\
     In (Num high) (concat (mean_last_axis d))).
Proof.
  pose proof (norm_values_one_diff_covers _ _ _ _ _ Hreturns) as Hcovers.
  unfold norm_values_one_diff in Hreturns.
  destruct (norm_values_loop orig inf1 (seq 0 num_images))
    as [[lows highs]|] eqn:Eloop; [|discriminate Hreturns].
  cbn [np_bind fst snd] in Hreturns.
  destruct (np_min lows) as [l|] eqn:El; [|discriminate Hreturns].
  destruct (np_max highs) as [h|] eqn:Eh; [|discriminate Hreturns].
  cbn [np_bind] in Hreturns. injection Hreturns as -> ->.
  destruct (norm_values_loop_spec _ _ _ _ _ Eloop)
    as (Hlen & _ & Hlow & Hhigh).
  rewrite length_seq in Hlen.
  apply np_min_Num in El as [Hlin _].
  apply np_max_Num in Eh as [Hhin _].
  split; [destruct lows; [contradiction|cbn in Hlen; lia]|].
  split; [exact Hcovers|]. split.
  - destruct (Hlow _ Hlin) as (i & h' & Hi & Hrec).
    destruct Hrec as (o & p & d & Ho & Hp & Hd & Hmin & Hmax).
    exists i, o, p, d. apply in_seq in Hi. split; [lia|].
    repeat (split; [assumption|]). now apply np_min_Num in Hmin as [? _].
  - destruct (Hhigh _ Hhin) as (i & l' & Hi & Hrec).
    destruct Hrec as (o & p & d & Ho & Hp & Hd & Hmin & Hmax).
    exists i, o, p, d. apply in_seq in Hi. split; [lia|].
    repeat (split; [assumption|]). now apply np_max_Num in Hmax as [? _].
Qed.

(** X4.  The colour range that [norm_values_one_diff] returns for the first
    [num_images] images covers the fourth panel of [save_samples] in each
    of these rows: the panel can be computed, and each of its values
    [conv_img.mean(axis=-1) - batch_img.mean(axis=-1)] is a number between
    [vmin] and [vmax]. *)
Theorem difference_panel_within_range (batch : Orig) (conv : Inf1)
  (num_images : nat) (vmin vmax : Q)
  (Hreturns :
     norm_values_one_diff batch conv num_images = NpOk (Num vmin, Num vmax)) :
  forall i, (i < num_images)%nat ->
    exists batch_img conv_img panel,
      index batch i = NpOk batch_img /\ index conv i = NpOk conv_img /\
      difference_panel batch_img conv_img = NpOk panel /\
      forall v, In v (concat panel) ->
        exists q, v = Num q /\ (vmin <= q <= vmax)%Q.
Proof.
  intros i Hi.
  destruct (norm_values_one_diff_covers _ _ _ _ _ Hreturns i Hi)
    as (o & p & d & Ho & Hp & Hd & Hv).
  destruct (difference_panel_mean_sub o p d Hd) as (m & Hm & Hrel).
  exists o, p, m. repeat (split; [assumption|]). intros v Hin.
  destruct (Forall2_concat_in _ _ _ Hrel v Hin) as (w & Hw & Heq).
  destruct (Hv w Hw) as (q & -> & Hlo & Hhi).
  destruct v as [q'|]; [|destruct Heq]. cbn in Heq.
  exists q'. split; [reflexivity|]. rewrite <- Heq. now split.
Qed.

End Arrays.

(** X6.  With a NumPy array as [orig], [norm_values_one_diff] raises when the
    array holds fewer than [num_images] images, and it raises
    [ValueError] when [num_images] is 0. *)
Theorem norm_values_one_diff_raises {Inf1 : Type} `{Array Inf1} (orig : list image)
  (inf1 : Inf1) (num_images : nat) :
  (num_images = 0%nat ->
   norm_values_one_diff orig inf1 num_images = NpRaise NpValueError) /\
  ((length orig < num_images)%nat ->
   exists e, norm_values_one_diff orig inf1 num_images = NpRaise e).
Proof.
  split; [intros ->; reflexivity|]. intros Hlen.
  destruct (norm_values_one_diff orig inf1 num_images) as [[low high]|e]
    eqn:E; [exfalso|now exists e].
  unfold norm_values_one_diff in E.
  destruct (norm_values_loop orig inf1 (seq 0 num_images))
    as [[lows highs]|] eqn:Eloop; [|discriminate E].
  destruct (norm_values_loop_spec _ _ _ _ _ Eloop) as (_ & Hall & _).
  destruct (Hall (length orig)) as (l' & h' & _ & _ & Hrec).
  { apply in_seq. lia. }
  destruct Hrec as (o & p & d & Ho & _).
  unfold index, ndarray in Ho.
  destruct (nth_error orig (length orig)) eqn:En; [|discriminate Ho].
  assert (nth_error orig (length orig) <> None) as Hn by congruence.
  apply nth_error_Some in Hn. lia.
Qed.

Lemma norm_values_one_diff_bounds_witness :
  (1 <= 2)%nat /\
  forall i, (i < 2)%nat ->
    exists o p d,
      index example_batch i = NpOk o /\ index example_conv i = NpOk p /\
      image_sub p o = NpOk d /\
      forall v, In v (concat (mean_last_axis d)) ->
        exists q, v = Num q /\ (-2 <= q <= 3)%Q.
Proof.
  assert (E : norm_values_one_diff example_batch example_conv 2
               = NpOk (Num (-2), Num 3)) by reflexivity.
  destruct (norm_values_one_diff_bounds _ _ _ _ _ E) as (H1 & H2 & _).
  split; assumption.
Defined.

Lemma difference_panel_within_range_witness :
  exists batch_img conv_img panel,
    index example_batch 1 = NpOk batch_img /\
    index example_conv 1 = NpOk conv_img /\
    difference_panel batch_img conv_img = NpOk panel /\
    forall v, In v (concat panel) ->
      exists q, v = Num q /\ (-2 <= q <= 3)%Q.
Proof.
  assert (E : norm_values_one_diff example_batch example_conv 2
               = NpOk (Num (-2), Num 3)) by reflexivity.
  apply (difference_panel_within_range _ _ _ _ _ E 1%nat). lia.
Defined.

Lemma norm_values_one_diff_nan_witness :
  (NaN = NaN <-> NaN = NaN) /\
  ((exists i o p d,
       (i < 1)%nat /\ index example_no_channel i = NpOk o /\
       index example_no_channel i = NpOk p /\ image_sub p o = NpOk d /\
       In [] (concat d)) ->
   NaN = NaN /\ NaN = NaN).
Proof.
  assert (E : norm_values_one_diff example_no_channel example_no_channel 1
               = NpOk (NaN, NaN)) by reflexivity.
  exact (norm_values_one_diff_nan _ _ _ _ _ E).
Defined.

Lemma norm_values_one_diff_raises_witness :
  norm_values_one_diff example_batch example_conv 0 = NpRaise NpValueError /\
  exists e, norm_values_one_diff example_batch example_conv 8 = NpRaise e.
Proof.
  destruct (norm_values_one_diff_raises example_batch example_conv 0)
    as [H0 _].
  destruct (norm_values_one_diff_raises example_batch example_conv 8)
    as [_ H8].
  split; [apply H0; reflexivity|apply H8; cbn; lia].
Defined.

End SamplesFacts.

(** * The smallest entry of a list and its first position *)
Module MinFacts.

Lemma list_min_le_init (l : list Q) : forall x, (list_min x l <= x)%Q.
Proof.
  induction l as [|y l IH]; intros x; cbn; [apply Qle_refl|].
  destruct (Qltb y x) eqn:E.
  - eapply Qle_trans; [apply IH|]. apply Qlt_le_weak. now apply Qltb_lt.
  - apply IH.
Qed.

Lemma list_min_le_all (l : list Q) :
  forall x v, In v l -> (list_min x l <= v)%Q.
Proof.
  induction l as [|y l IH]; intros x v [].
  - subst v. cbn. eapply Qle_trans; [apply list_min_le_init|].
    destruct (Qltb y x) eqn:E; [apply Qle_refl|now apply Qltb_ge].
  - cbn. now apply IH.
Qed.

Lemma list_min_In (l : list Q) : forall x, In (list_min x l) (x :: l).
Proof.
  induction l as [|y l IH]; intros x; cbn [list_min]; [now left|].
  destruct (IH (if Qltb y x then y else x)) as [E|Hin].
  - rewrite <- E. destruct (Qltb y x); [right; now left|now left].
  - right. now right.
Qed.

(** The fold from a larger start gives the same entry as soon as the
    result is below the smaller start. *)
Lemma list_min_start (l : list Q) :
  forall a a', (a <= a')%Q -> Qltb (list_min a l) a = true ->
    list_min a' l = list_min a l.
Proof.
  induction l as [|y l IH]; intros a a' Haa'; cbn [list_min].
  - intros Hlt. apply Qltb_lt in Hlt. now apply Qlt_irrefl in Hlt.
  - intros Hlt.
    destruct (Qltb y a) eqn:Ea, (Qltb y a') eqn:Ea'.
    + reflexivity.
    + apply Qltb_lt in Ea. apply Qltb_ge in Ea'. exfalso.
      apply (Qlt_irrefl y). eapply Qlt_le_trans; [exact Ea|].
      now apply Qle_trans with a'.
    + apply Qltb_ge in Ea. apply (IH a y Ea). exact Hlt.
    + apply (IH a a' Haa'). exact Hlt.
Qed.

Lemma list_min_app (l : list Q) :
  forall a x,
    list_min a (l ++ [x])
    = if Qltb x (list_min a l) then x else list_min a l.
Proof.
  induction l as [|y l IH]; intros a x; cbn [list_min app]; [reflexivity|].
  apply IH.
Qed.

Lemma Qeq_bool_refl (x : Q) : Qeq_bool x x = true.
Proof. apply Qeq_bool_iff. reflexivity. Qed.

Lemma list_index_lt (x : Q) (l : list Q) :
  (exists y, In y l /\ Qeq_bool y x = true) ->
  (list_index x l < length l)%nat.
Proof.
  induction l as [|z l IH]; intros (y & Hin & Hy); [destruct Hin|].
  cbn [list_index length]. destruct (Qeq_bool z x) eqn:E; [lia|].
  destruct Hin as [->|Hin]; [congruence|].
  apply Nat.succ_lt_mono in IH; [exact IH|]. now exists y.
Qed.

Lemma list_index_nth (x d : Q) (l : list Q) :
  (list_index x l < length l)%nat ->
  Qeq_bool (nth (list_index x l) l d) x = true.
Proof.
  induction l as [|z l IH]; cbn [list_index length]; [lia|].
  destruct (Qeq_bool z x) eqn:E; [intros _; exact E|].
  intros Hlt. cbn [nth]. apply IH. lia.
Qed.

Lemma list_index_first (x d : Q) (l : list Q) :
  forall j, (j < list_index x l)%nat -> Qeq_bool (nth j l d) x = false.
Proof.
  induction l as [|z l IH]; intros j; cbn [list_index]; [lia|].
  destruct (Qeq_bool z x) eqn:E; [lia|].
  destruct j as [|j]; [intros _; exact E|].
  intros Hlt. cbn [nth]. apply IH. lia.
Qed.

Lemma list_index_app (x : Q) (l r : list Q) :
  (exists y, In y l /\ Qeq_bool y x = true) ->
  list_index x (l ++ r) = list_index x l.
Proof.
  induction l as [|z l IH]; intros (y & Hin & Hy); [destruct Hin|].
  cbn [list_index app]. destruct (Qeq_bool z x) eqn:E; [reflexivity|].
  destruct Hin as [->|Hin]; [congruence|].
  f_equal. apply IH. now exists y.
Qed.

Lemma list_index_app_new (x : Q) (l : list Q) :
  (forall y, In y l -> Qeq_bool y x = false) ->
  list_index x (l ++ [x]) = length l.
Proof.
  induction l as [|z l IH]; intros Hall.
  - cbn. now rewrite Qeq_bool_refl.
  - cbn [list_index app length]. rewrite (Hall z) by now left.
    f_equal. apply IH. intros y Hy. apply Hall. now right.
Qed.

(** X7.  [min(l)] and [l.index(min(l)) + 1]: the position is one of the list,
    its entry is at most every entry, and every entry before it is
    strictly larger. *)
Theorem best_step_of_first_minimum (l : list Q) (k : nat) (d : Q)
  (Hbest : Training.best_step_of l = Ok k) :
  (1 <= k <= length l)%nat /\
  (forall v, In v l -> (nth (k - 1) l d <= v)%Q) /\
  (forall j, (j < k - 1)%nat -> (nth (k - 1) l d < nth j l d)%Q).
Proof.
  destruct l as [|x rest]; [discriminate|].
  set (m := list_min x rest).
  remember (list_index m (x :: rest)) as i eqn:Ei.
  assert (Hk : k = (i + 1)%nat).
  { subst i m. unfold Training.best_step_of in Hbest. congruence. }
  subst k. clear Hbest. replace (i + 1 - 1)%nat with i by lia.
  assert (Hin : In m (x :: rest)) by apply list_min_In.
  assert (Hle : forall v, In v (x :: rest) -> (m <= v)%Q).
  { intros v [<-|Hv]; [apply list_min_le_init|now apply list_min_le_all]. }
  assert (Hlt : (i < length (x :: rest))%nat).
  { rewrite Ei. apply list_index_lt. exists m.
    split; [exact Hin|apply Qeq_bool_refl]. }
  assert (Hnth : (nth i (x :: rest) d == m)%Q).
  { apply Qeq_bool_iff. rewrite Ei. apply list_index_nth. now rewrite <- Ei. }
  split; [lia|]. split.
  - intros v Hv. rewrite Hnth. now apply Hle.
  - intros j Hj. rewrite Hnth.
    assert (Hne : Qeq_bool (nth j (x :: rest) d) m = false).
    { apply list_index_first. now rewrite <- Ei. }
    assert (Hj' : In (nth j (x :: rest) d) (x :: rest)) by (apply nth_In; lia).
    apply Hle in Hj'. apply Qle_lt_or_eq in Hj' as [Hlt'|Heq]; [exact Hlt'|].
    exfalso. symmetry in Heq. apply Qeq_bool_iff in Heq. congruence.
Qed.

Lemma best_step_of_first_minimum_witness :
  (1 <= 4 <= length [5; 2; 3; 8 # 10; 9 # 10; 8 # 10]%Q)%nat /\
  (forall v, In v [5; 2; 3; 8 # 10; 9 # 10; 8 # 10]%Q ->
     (nth (4 - 1) [5; 2; 3; 8 # 10; 9 # 10; 8 # 10] 0 <= v)%Q) /\
  (forall j, (j < 4 - 1)%nat ->
     (nth (4 - 1) [5; 2; 3; 8 # 10; 9 # 10; 8 # 10] 0
      < nth j [5; 2; 3; 8 # 10; 9 # 10; 8 # 10] 0)%Q).
Proof.
  apply (best_step_of_first_minimum [5; 2; 3; 8 # 10; 9 # 10; 8 # 10]%Q 4 0).
  reflexivity.
Defined.

End MinFacts.

(** * Bookkeeping of the training loop *)
Module LoopFacts.
Import Store Training.

(** The multiples of [c] among [1, ..., n]. *)
Lemma div_succ (n c : Z) :
  0 <= n -> 0 < c ->
  (n + 1) / c = n / c + (if (n + 1) mod c =? 0 then 1 else 0).
Proof.
  intros Hn Hc.
  pose proof (Z.div_mod n c ltac:(lia)) as E.
  pose proof (Z.mod_pos_bound n c Hc) as B.
  destruct (Z.eq_dec (n mod c + 1) c) as [Hr|Hr].
  - assert (Hd : (n + 1) / c = n / c + 1).
    { symmetry. apply (Z.div_unique (n + 1) c (n / c + 1) 0); lia. }
    assert (Hm : (n + 1) mod c = 0).
    { symmetry. apply (Z.mod_unique (n + 1) c (n / c + 1) 0); lia. }
    rewrite Hd, Hm. reflexivity.
  - assert (Hd : (n + 1) / c = n / c).
    { symmetry. apply (Z.div_unique (n + 1) c (n / c) (n mod c + 1)); lia. }
    assert (Hm : (n + 1) mod c = n mod c + 1).
    { symmetry. apply (Z.mod_unique (n + 1) c (n / c) (n mod c + 1)); lia. }
    rewrite Hd, Hm. destruct (Z.eqb_spec (n mod c + 1) 0); lia.
Qed.

Lemma count_multiples (c : Z) (n : nat) :
  0 < c ->
  length (filter (fun step => step mod c =? 0) (map Z.of_nat (seq 1 n)))
  = Z.to_nat (Z.of_nat n / c).
Proof.
  intros Hc. induction n as [|n IH]; [now rewrite Z.div_0_l by lia|].
  rewrite seq_S, map_app, filter_app, length_app, IH.
  cbn [map filter Nat.add].
  replace (Z.of_nat (S n)) with (Z.of_nat n + 1) by lia.
  rewrite (div_succ (Z.of_nat n) c) by lia.
  pose proof (Z.div_pos (Z.of_nat n) c ltac:(lia) Hc).
  destruct (_ =? 0); cbn [length]; lia.
Qed.

Lemma evaluations_between (steps : Z) :
  50 <= steps -> 50 <= steps / (steps / 50) <= 99.
Proof.
  intros Hs.
  pose proof (Z.div_mod steps 50 ltac:(lia)) as E.
  pose proof (Z.mod_pos_bound steps 50 ltac:(lia)) as B.
  assert (Hc : 1 <= steps / 50) by (apply Z.div_le_lower_bound; lia).
  split.
  - apply Z.div_le_lower_bound; lia.
  - assert (steps / (steps / 50) < 100); [|lia].
    apply Z.div_lt_upper_bound; lia.
Qed.

Lemma last_default {A : Type} (l : list A) :
  forall x d d', List.last (x :: l) d = List.last (x :: l) d'.
Proof.
  induction l as [|y l IH]; intros x d d'; [reflexivity|].
  change (List.last (y :: l) d = List.last (y :: l) d'). apply IH.
Qed.

Section Loop.
Context {Params : Type} `{Serialization Params}.
Variables OptState Key Batch Grads Updates : Type.
Variable random_split : Key -> Key * Key.
Variable train_stream : nat -> Batch.
Variable test_split : list Batch.
Variable loss_fn : Params -> Key -> Batch -> Q -> result (Q * Q).
Variable loss_grad : Params -> Key -> Batch -> Q -> Grads.
Variable optimizer_update : Grads -> OptState -> Params -> Updates * OptState.
Variable apply_updates : Params -> Updates -> Params.
Variable reg_value : Q.
Variable activation_threshold : option Q.

Notation state := (train_state (Params := Params) OptState Key).
Notation update :=
  (Training.update OptState Key Batch Grads Updates loss_fn loss_grad
     optimizer_update apply_updates reg_value).
Notation below_threshold :=
  (Training.below_activation_threshold activation_threshold).
Notation eval_batches :=
  (Training.eval_batches (Params := Params) Key Batch random_split loss_fn
     reg_value).
Notation evaluate :=
  (Training.evaluate OptState Key Batch random_split test_split loss_fn
     reg_value).
Notation train_step :=
  (Training.train_step OptState Key Batch Grads Updates random_split
     train_stream test_split loss_fn loss_grad optimizer_update apply_updates
     reg_value activation_threshold).
Notation run_steps :=
  (Training.run_steps OptState Key Batch Grads Updates random_split
     train_stream test_split loss_fn loss_grad optimizer_update apply_updates
     reg_value activation_threshold).
Notation training_loop :=
  (Training.training_loop OptState Key Batch Grads Updates random_split
     train_stream test_split loss_fn loss_grad optimizer_update apply_updates
     reg_value activation_threshold).
Notation step_update :=
  (Training.step_update OptState Key Batch Grads Updates random_split
     train_stream loss_fn loss_grad optimizer_update apply_updates reg_value).
Notation store_after :=
  (Training.store_after (Params := Params) activation_threshold).
Notation step_effect :=
  (Training.step_effect (Params := Params) OptState Key activation_threshold).
Notation save_best_checkpoint_eq :=
  (TrainingFacts.save_best_checkpoint_eq (Params := Params)
     activation_threshold).
Notation evaluate_preserves :=
  (TrainingFacts.evaluate_preserves OptState Key Batch random_split
     test_split loss_fn reg_value).
Notation best_checkpoint_inv :=
  (BestCheckpoint.best_checkpoint_inv (Params := Params) OptState Key
     activation_threshold).
Notation train_step_updated :=
  (TrainingFacts.train_step_updated OptState Key Batch Grads Updates
     random_split train_stream test_split loss_fn loss_grad optimizer_update
     apply_updates reg_value activation_threshold).
Notation train_step_raised :=
  (TrainingFacts.train_step_raised OptState Key Batch Grads Updates
     random_split train_stream test_split loss_fn loss_grad optimizer_update
     apply_updates reg_value activation_threshold).
Notation train_step_evaluation :=
  (TrainingFacts.train_step_evaluation OptState Key Batch Grads Updates
     random_split train_stream test_split loss_fn loss_grad optimizer_update
     apply_updates reg_value activation_threshold).
Notation training_loop_evaluation :=
  (TrainingFacts.training_loop_evaluation OptState Key Batch Grads Updates
     random_split train_stream test_split loss_fn loss_grad optimizer_update
     apply_updates reg_value activation_threshold).
Notation training_loop_completes :=
  (TrainingFacts.training_loop_completes OptState Key Batch Grads Updates
     random_split train_stream test_split loss_fn loss_grad optimizer_update
     apply_updates reg_value activation_threshold).

(** What one step leaves of the traces of the training losses, whether it
    completes or stops: nothing but the batch pulled when [update] raises,
    and one more loss and log-likelihood otherwise. *)
Lemma train_step_trace (steps step : Z) (s : state) :
  let s' := state_of (train_step steps step s) in
  (st_losses s' = st_losses s /\ st_log_liks s' = st_log_liks s /\
   st_best_eval_loss s' = st_best_eval_loss s /\
   st_pulled s' = S (st_pulled s) /\
   exists e, train_step steps step s = Crashed e s') \/
  (exists loss ll,
     st_losses s' = st_losses s ++ [loss] /\
     st_log_liks s' = st_log_liks s ++ [ll] /\
     st_best_eval_loss s' = best_after loss (st_best_eval_loss s) /\
     st_pulled s' = S (st_pulled s)).
Proof.
  unfold Training.train_step.
  destruct (random_split (st_rng s)) as [rng rng_1].
  destruct (update _ _ _ _) as [[[[loss ll] params] opt_state]|e].
  - right. exists loss, ll. rewrite save_best_checkpoint_eq.
    destruct (steps / 50 =? 0); [cbn; now repeat split|].
    destruct (step mod (steps / 50) =? 0); [|cbn; now repeat split].
    match goal with |- context [evaluate step ?t] =>
      destruct (evaluate_preserves step t) as (_ & _ & E3 & E4 & E5 & E6 & _)
    end.
    cbn in *. now repeat split.
  - left. cbn. repeat split. now exists e.
Qed.

(** The traces of a run, whether it completes or stops: the losses and the
    log-likelihoods it has added, one of each per step that got through
    [update]. *)
Lemma run_steps_trace (steps : Z) (range : list Z) :
  forall s0 : state,
    let o := run_steps steps range s0 in
    exists new_losses new_log_liks : list Q,
      st_losses (state_of o) = st_losses s0 ++ new_losses /\
      st_log_liks (state_of o) = st_log_liks s0 ++ new_log_liks /\
      length new_log_liks = length new_losses /\
      st_best_eval_loss (state_of o)
      = list_min (st_best_eval_loss s0) new_losses /\
      match o with
      | Done s =>
          length new_losses = length range /\
          st_pulled s = (st_pulled s0 + length range)%nat
      | Crashed _ s =>
          (length new_losses < length range)%nat /\
          (st_pulled s = S (st_pulled s0 + length new_losses) \/
           st_pulled s = (st_pulled s0 + length new_losses)%nat) \/
          (length new_losses <= length range)%nat /\
          st_pulled s = (st_pulled s0 + length new_losses)%nat
      end.
Proof.
  induction range as [|step rest IH]; intros s0; cbn [Training.run_steps].
  - exists [], []. cbn. rewrite !app_nil_r. repeat split; lia.
  - pose proof (train_step_trace steps step s0) as Hstep. cbn zeta in Hstep.
    destruct (train_step steps step s0) as [s1|e s1] eqn:E;
      cbn [state_of] in Hstep.
    + destruct Hstep as [(_ & _ & _ & _ & e & He)|Hstep]; [discriminate|].
      destruct Hstep as (loss & ll & Hl & Hll & Hb & Hp).
      destruct (IH s1) as (nl & nll & Hl' & Hll' & Hlen & Hb' & Ho).
      exists (loss :: nl), (ll :: nll).
      rewrite Hl', Hll', Hl, Hll, Hb', Hb, <- !app_assoc.
      split; [reflexivity|]. split; [reflexivity|].
      split; [cbn; lia|]. split; [reflexivity|].
      destruct (run_steps steps rest s1) as [s|e s]; cbn [length]; lia.
    + cbn zeta. cbn [state_of].
      destruct Hstep as [(Hl & Hll & Hb & Hp & _)|Hstep].
      * exists [], []. rewrite !app_nil_r. cbn. repeat split; try assumption.
        left. split; lia.
      * destruct Hstep as (loss & ll & Hl & Hll & Hb & Hp).
        exists [loss], [ll]. cbn [list_min length].
        repeat split; try assumption. right. split; lia.
Qed.

(** The loop over the held-out split calls [loss_fn] once per batch, all
    with the same parameters; it collects the losses of all batches and
    keeps the log-likelihood of the last batch only. *)
Lemma eval_batches_spec (params : Params) (batches : list Batch) :
  forall rng rng_1 acc last_ll rng' rng_1' means last_ll',
    eval_batches params batches rng rng_1 acc last_ll
    = Ok (rng', rng_1', means, last_ll') ->
    exists results : list (Q * Q),
      Forall2 (fun img r =>
                 exists key, loss_fn params key img reg_value = Ok r)
        batches results /\
      means = acc ++ map fst results /\
      last_ll' = List.last (map (fun r => Some (snd r)) results) last_ll.
Proof.
  induction batches as [|img rest IH];
    intros rng rng_1 acc last_ll rng' rng_1' means last_ll';
    cbn [Training.eval_batches].
  - intros [= <- <- <- <-]. exists []. rewrite app_nil_r.
    repeat split. constructor.
  - destruct (random_split rng) as [rng2 rng_12].
    destruct (loss_fn params rng_12 img reg_value) as [[l ll]|e] eqn:E;
      [|discriminate].
    cbn [bind]. intros Hrest.
    destruct (IH _ _ _ _ _ _ _ _ Hrest) as (results & Hall & Hm & Hl).
    exists ((l, ll) :: results). split; [|split].
    + constructor; [now exists rng_12|assumption].
    + rewrite Hm, <- app_assoc. reflexivity.
    + rewrite Hl. cbn [map snd]. destruct results as [|r results];
        [reflexivity|].
      cbn [map].
      transitivity
        (List.last (Some (snd r) :: map (fun r => Some (snd r)) results)
           last_ll); [apply last_default|reflexivity].
Qed.

(** A step that completes: its number is a multiple of [steps // 50] and
    the held-out split has been evaluated, or it is none and the traces of
    the held-out split are as before. *)
Lemma train_step_done_eval (steps step : Z) (s s' : state) :
  train_step steps step s = Done s' ->
  steps / 50 <> 0 /\
  if step mod (steps / 50) =? 0 then
    exists rng rng_1 means ll,
      eval_batches (st_params s') test_split rng rng_1 [] None
      = Ok (st_rng s', st_rng_1 s', means, Some ll) /\
      st_losses_test s' = st_losses_test s ++ [Some (Qmean means)] /\
      st_losses_test_step s' = st_losses_test_step s ++ [step] /\
      st_log_liks_test s' = st_log_liks_test s ++ [ll]
  else
    st_losses_test s' = st_losses_test s /\
    st_losses_test_step s' = st_losses_test_step s /\
    st_log_liks_test s' = st_log_liks_test s.
Proof.
  unfold Training.train_step.
  destruct (random_split (st_rng s)) as [rng rng_1].
  destruct (update _ _ _ _) as [[[[loss ll] params] opt_state]|e];
    [|discriminate].
  rewrite save_best_checkpoint_eq.
  destruct (Z.eqb_spec (steps / 50) 0) as [Hz|Hz]; [discriminate|].
  destruct (step mod (steps / 50) =? 0).
  - unfold Training.evaluate. cbn [st_params st_rng st_rng_1].
    destruct (Training.eval_batches _ _ _ _ _ _ _ _ _ _ _)
      as [[[[rng' rng_1'] means] [ll'|]]|e] eqn:E; try discriminate.
    intros [= <-]. split; [exact Hz|].
    exists rng, rng_1, means, ll'. cbn. now repeat split.
  - intros [= <-]. split; [exact Hz|]. cbn. now repeat split.
Qed.

Lemma run_steps_done_eval (steps : Z) (range : list Z) :
  forall s0 s : state,
    run_steps steps range s0 = Done s ->
    let evaluations :=
      length (filter (fun step => step mod (steps / 50) =? 0) range) in
    (range <> [] -> steps / 50 <> 0) /\
    length (st_losses_test s) = (length (st_losses_test s0) + evaluations)%nat /\
    length (st_losses_test_step s)
    = (length (st_losses_test_step s0) + evaluations)%nat /\
    length (st_log_liks_test s)
    = (length (st_log_liks_test s0) + evaluations)%nat /\
    (test_split = [] -> evaluations = 0%nat).
Proof.
  induction range as [|step rest IH]; intros s0 s;
    cbn [Training.run_steps filter].
  - intros [= <-]. cbn. repeat split; try lia. congruence.
  - destruct (train_step steps step s0) as [s1|e s1] eqn:E; [|discriminate].
    intros Hrest. destruct (IH _ _ Hrest) as (_ & H1 & H2 & H3 & H4).
    apply train_step_done_eval in E as [Hz E]. cbn zeta.
    split; [intros _; exact Hz|].
    destruct (step mod (steps / 50) =? 0).
    + destruct E as (rng & rng_1 & means & ll & Ee & E1 & E2 & E3).
      rewrite E1, E2, E3, !length_app in *. cbn [length] in *.
      repeat split; try lia.
      intros Hempty. rewrite Hempty in Ee. discriminate.
    + destruct E as (E1 & E2 & E3). rewrite E1, E2, E3 in *.
      repeat split; try lia. assumption.
Qed.

(** ** The checkpoint of the best step *)

Lemma below_threshold_lt (loss best : Q) :
  Qltb loss best = true -> below_threshold best = true ->
  below_threshold loss = true.
Proof.
  unfold Training.below_activation_threshold.
  destruct activation_threshold as [t|]; [|reflexivity].
  rewrite !Qltb_lt. apply Qlt_trans.
Qed.

Lemma best_checkpoint_inv_ext (best0 : Q) (s s' : state) :
  st_losses s' = st_losses s -> st_best_eval_loss s' = st_best_eval_loss s ->
  st_store s' = st_store s ->
  best_checkpoint_inv best0 s -> best_checkpoint_inv best0 s'.
Proof.
  intros El Eb Ew [H1 H2 H3].
  constructor; rewrite ?El, ?Eb, ?Ew; assumption.
Qed.

Lemma best_checkpoint_inv_step (best0 : Q) (steps : Z) (s : state) :
  best_checkpoint_inv best0 s ->
  best_checkpoint_inv best0
    (state_of (train_step steps (Z.of_nat (length (st_losses s)) + 1) s)).
Proof.
  intros Hinv.
  destruct (step_update s) as [[[[loss ll] params] opt_state]|e] eqn:E.
  - destruct (train_step_updated steps (Z.of_nat (length (st_losses s)) + 1)
                s _ _ _ _ E) as [[_ _ _ El _ Eb Ew] _].
    generalize dependent (state_of
      (train_step steps (Z.of_nat (length (st_losses s)) + 1) s)).
    intros s' El Eb Ew. destruct Hinv as [H1 H2 H3].
    assert (Hle0 : (st_best_eval_loss s <= best0)%Q).
    { rewrite H1. apply MinFacts.list_min_le_init. }
    assert (Hbest : st_best_eval_loss s' = list_min best0 (st_losses s')).
    { rewrite Eb, El, MinFacts.list_min_app, <- H1. reflexivity. }
    unfold best_after in Eb. unfold Training.store_after in Ew.
    destruct (Qltb loss (st_best_eval_loss s)) eqn:Hlt.
    + (* a new best loss *)
      assert (Hlt0 : Qltb loss best0 = true).
      { apply Qltb_lt. apply Qltb_lt in Hlt.
        now apply Qlt_le_trans with (st_best_eval_loss s). }
      assert (Hnew : list_index loss (st_losses s ++ [loss])
                     = length (st_losses s)).
      { apply MinFacts.list_index_app_new. intros y Hy.
        destruct (Qeq_bool y loss) eqn:Ey; [exfalso|reflexivity].
        apply Qeq_bool_iff in Ey. apply Qltb_lt in Hlt.
        apply (Qlt_irrefl loss). apply Qlt_le_trans with (1 := Hlt).
        rewrite H1, <- Ey. now apply MinFacts.list_min_le_all. }
      cbn [andb] in Ew. constructor; [exact Hbest| |].
      * intros Hne. rewrite Eb. split; [exact Hlt0|].
        destruct (below_threshold loss) eqn:Hb; [reflexivity|].
        rewrite Ew in Hne. destruct (H2 Hne) as [_ Hb2].
        rewrite (below_threshold_lt _ _ Hlt Hb2) in Hb. discriminate.
      * rewrite Eb, El, Hnew. intros _ Hb. rewrite Hb in Ew. rewrite Ew.
        eexists. eexists. split; reflexivity.
    + (* no new best loss *)
      cbn [andb] in Ew. constructor; [exact Hbest| |].
      * rewrite Eb, Ew. exact H2.
      * rewrite Eb, El, Ew. intros Hb0 Hb.
        destruct (H3 Hb0 Hb) as (a & older & Ha & Hal).
        exists a, older. split; [exact Ha|]. rewrite Hal.
        rewrite MinFacts.list_index_app; [reflexivity|].
        exists (st_best_eval_loss s). split; [|apply MinFacts.Qeq_bool_refl].
        pose proof (MinFacts.list_min_In (st_losses s) best0) as Hin.
        rewrite <- H1 in Hin. destruct Hin as [Heq|Hin]; [|exact Hin].
        rewrite <- Heq in Hb0. apply Qltb_lt in Hb0.
        now apply Qlt_irrefl in Hb0.
  - destruct (train_step_raised steps (Z.of_nat (length (st_losses s)) + 1)
                s e E) as (s' & -> & _ & _ & El & Ew & Eb).
    cbn [state_of]. now apply (best_checkpoint_inv_ext best0 s).
Qed.

Lemma run_steps_best_checkpoint_inv (best0 : Q) (steps : Z) (n : nat) :
  forall s : state,
    best_checkpoint_inv best0 s ->
    best_checkpoint_inv best0
      (state_of
         (run_steps steps (map Z.of_nat (seq (S (length (st_losses s))) n))
            s)).
Proof.
  induction n as [|n IH]; intros s Hinv; [exact Hinv|].
  cbn [seq map Training.run_steps].
  replace (Z.of_nat (S (length (st_losses s))))
    with (Z.of_nat (length (st_losses s)) + 1) by lia.
  pose proof (best_checkpoint_inv_step best0 steps s Hinv) as Hstep.
  pose proof (train_step_trace steps
                (Z.of_nat (length (st_losses s)) + 1) s) as Htrace.
  cbn zeta in Htrace.
  destruct (train_step steps (Z.of_nat (length (st_losses s)) + 1) s)
    as [s1|e s1]; cbn [state_of] in *; [|exact Hstep].
  destruct Htrace as [(_ & _ & _ & _ & e & He)|Htrace]; [discriminate|].
  destruct Htrace as (loss & ll & Hl & _).
  replace (S (S (length (st_losses s)))) with (S (length (st_losses s1)))
    by (rewrite Hl, length_app; cbn; lia).
  now apply IH.
Qed.

(** ** The statements *)

(** X8.  Every step that gets through [update] adds one loss and one
    log-likelihood, and every step pulls one batch: where the loop ends, it
    has added as many losses as log-likelihoods, at most one per step, and
    has pulled that many batches, or one more when the last [update] has
    raised; a loop that completes has added exactly one per step. *)
Theorem training_loop_bookkeeping (steps : Z) (s0 : state) :
  let o := training_loop steps s0 in
  exists new_losses new_log_liks : list Q,
    st_losses (state_of o) = st_losses s0 ++ new_losses /\
    st_log_liks (state_of o) = st_log_liks s0 ++ new_log_liks /\
    length new_log_liks = length new_losses /\
    (length new_losses <= Z.to_nat steps)%nat /\
    (st_pulled s0 + length new_losses <= st_pulled (state_of o)
     <= st_pulled s0 + length new_losses + 1)%nat /\
    (forall s, o = Done s ->
       length new_losses = Z.to_nat steps /\
       st_pulled s = (st_pulled s0 + Z.to_nat steps)%nat).
Proof.
  unfold Training.training_loop. cbn zeta.
  destruct (run_steps_trace steps (step_range steps) s0)
    as (nl & nll & Hl & Hll & Hlen & _ & Ho).
  assert (Hr : length (step_range steps) = Z.to_nat steps).
  { unfold step_range. now rewrite length_map, length_seq. }
  rewrite Hr in Ho. exists nl, nll.
  split; [exact Hl|]. split; [exact Hll|]. split; [exact Hlen|].
  destruct (run_steps steps (step_range steps) s0) as [s|e s];
    cbn [state_of] in *.
  - split; [lia|]. split; [lia|]. intros s' [= <-]. lia.
  - split; [lia|]. split; [lia|]. intros s' [=].
Qed.

(** X9.  Where the loop ends, [best_eval_loss] is the smallest of its value at
    the start and the losses that the loop has recorded. *)
Theorem best_eval_loss_running_minimum (steps : Z) (s0 : state) :
  let s := state_of (training_loop steps s0) in
  exists new_losses : list Q,
    st_losses s = st_losses s0 ++ new_losses /\
    st_best_eval_loss s = list_min (st_best_eval_loss s0) new_losses /\
    (st_best_eval_loss s <= st_best_eval_loss s0)%Q /\
    (forall loss, In loss new_losses -> (st_best_eval_loss s <= loss)%Q).
Proof.
  unfold Training.training_loop. cbn zeta.
  destruct (run_steps_trace steps (step_range steps) s0)
    as (nl & _ & Hl & _ & _ & Hb & _).
  exists nl. split; [exact Hl|]. split; [exact Hb|]. rewrite Hb. split.
  - apply MinFacts.list_min_le_init.
  - intros loss Hin. now apply MinFacts.list_min_le_all.
Qed.

(** X10.  A loop of at least one step that completes has evaluated the held-out
    split [steps // (steps // 50)] times, which is between 50 and 99 times,
    and each evaluation has added one entry to each of the three traces of
    the held-out split. *)
Theorem training_loop_evaluations (steps : Z) (s0 s : state)
  (Hsteps : 1 <= steps)
  (Hdone : training_loop steps s0 = Done s) :
  let evaluations := Z.to_nat (steps / (steps / 50)) in
  (50 <= evaluations <= 99)%nat /\
  length (st_losses_test s) = (length (st_losses_test s0) + evaluations)%nat /\
  length (st_losses_test_step s)
  = (length (st_losses_test_step s0) + evaluations)%nat /\
  length (st_log_liks_test s)
  = (length (st_log_liks_test s0) + evaluations)%nat.
Proof.
  destruct (training_loop_completes steps s0 s Hdone) as [|H50]; [lia|].
  pose proof (evaluations_between steps H50) as Hbetween.
  unfold Training.training_loop in Hdone.
  destruct (run_steps_done_eval steps _ _ _ Hdone) as (_ & H1 & H2 & H3 & _).
  cbn zeta in *. unfold step_range in H1, H2, H3.
  assert (Hc : 0 < steps / 50) by (apply Z.div_str_pos; lia).
  rewrite (count_multiples (steps / 50) (Z.to_nat steps) Hc) in H1, H2, H3.
  rewrite Z2Nat.id in H1, H2, H3 by lia.
  split; [lia|]. now split; [|split].
Qed.

(** X11.  With an empty held-out split no loop of at least one step completes:
    the first evaluation stops it. *)
Theorem empty_test_split_stops_the_loop (steps : Z) (s0 : state)
  (Hsteps : 1 <= steps)
  (Hempty : test_split = []) :
  exists e s, training_loop steps s0 = Crashed e s.
Proof.
  destruct (training_loop steps s0) as [s|e s] eqn:Hdone;
    [exfalso|now exists e, s].
  destruct (training_loop_completes steps s0 s Hdone) as [|H50]; [lia|].
  pose proof (evaluations_between steps H50) as Hbetween.
  unfold Training.training_loop in Hdone.
  destruct (run_steps_done_eval steps _ _ _ Hdone) as (_ & _ & _ & _ & H0).
  specialize (H0 Hempty). unfold step_range in H0.
  assert (Hc : 0 < steps / 50) by (apply Z.div_str_pos; lia).
  rewrite (count_multiples (steps / 50) (Z.to_nat steps) Hc) in H0.
  rewrite Z2Nat.id in H0 by lia. lia.
Qed.

Lemma run_steps_app (steps : Z) (r1 r2 : list Z) :
  forall s : state,
    run_steps steps (r1 ++ r2) s
    = match run_steps steps r1 s with
      | Done s' => run_steps steps r2 s'
      | Crashed e s' => Crashed e s'
      end.
Proof.
  induction r1 as [|step r1 IH]; intros s; cbn [app Training.run_steps];
    [reflexivity|].
  destruct (train_step steps step s); [apply IH|reflexivity].
Qed.

(** A step whose [update] returns, by what [step % (steps // 50)] is. *)
Lemma train_step_by_cadence (steps step : Z) (s : state) :
  (exists r, loss_fn (st_params s) (snd (random_split (st_rng s)))
               (train_stream (st_pulled s)) reg_value = Ok r) ->
  steps / 50 <> 0 ->
  exists loss,
    st_losses (state_of (train_step steps step s)) = st_losses s ++ [loss] /\
    (step mod (steps / 50) <> 0 ->
     exists s',
       train_step steps step s = Done s' /\
       st_losses_test s' = st_losses_test s /\
       st_losses_test_step s' = st_losses_test_step s /\
       st_log_liks_test s' = st_log_liks_test s) /\
    (step mod (steps / 50) = 0 -> test_split = [] ->
     exists s',
       train_step steps step s = Crashed UnboundLocalError s' /\
       st_losses_test s' = st_losses_test s ++ [None] /\
       st_losses_test_step s' = st_losses_test_step s ++ [step] /\
       st_log_liks_test s' = st_log_liks_test s).
Proof.
  intros [[loss ll] Hr] Hz. unfold Training.train_step.
  destruct (random_split (st_rng s)) as [rng rng_1]. cbn [snd] in Hr.
  unfold Training.update. rewrite Hr. cbn [bind].
  destruct (optimizer_update _ _ _) as [updates new_opt_state].
  rewrite save_best_checkpoint_eq.
  destruct (Z.eqb_spec (steps / 50) 0) as [|_]; [contradiction|].
  exists loss.
  destruct (Z.eqb_spec (step mod (steps / 50)) 0) as [Hm|Hm].
  - match goal with |- context [evaluate step ?t] =>
      destruct (evaluate_preserves step t) as (_ & _ & _ & E4 & _)
    end.
    cbn zeta in E4. split; [exact E4|]. split; [contradiction|].
    intros _ ->. unfold Training.evaluate. cbn [Training.eval_batches].
    eexists. split; [reflexivity|]. cbn. now repeat split.
  - split; [reflexivity|]. split; [|contradiction].
    intros _. eexists. split; [reflexivity|]. cbn. now repeat split.
Qed.

Lemma run_steps_between_evaluations (steps : Z) (range : list Z) :
  (forall params key i,
      exists r, loss_fn params key (train_stream i) reg_value = Ok r) ->
  steps / 50 <> 0 ->
  Forall (fun step => step mod (steps / 50) <> 0) range ->
  forall s : state,
    exists s',
      run_steps steps range s = Done s' /\
      length (st_losses s') = (length (st_losses s) + length range)%nat /\
      st_losses_test s' = st_losses_test s /\
      st_losses_test_step s' = st_losses_test_step s /\
      st_log_liks_test s' = st_log_liks_test s.
Proof.
  intros Htotal Hz. induction 1 as [|step range Hstep _ IH]; intros s.
  - exists s. cbn. split; [reflexivity|]. split; [lia|]. now repeat split.
  - cbn [Training.run_steps].
    destruct (train_step_by_cadence steps step s (Htotal _ _ _) Hz)
      as (loss & Hl & Hdone & _).
    destruct (Hdone Hstep) as (s1 & E1 & T1 & T2 & T3).
    rewrite E1 in *. cbn [state_of] in Hl.
    destruct (IH s1) as (s' & E' & Hlen & T1' & T2' & T3').
    exists s'. split; [exact E'|].
    split; [rewrite Hlen, Hl, length_app; cbn; lia|].
    rewrite T1', T2', T3'. now repeat split.
Qed.

(** X12.  With an empty held-out split, at least 50 steps and a [loss_fn]
    that returns on every batch of the training stream, the loop stops in
    step [steps // 50], its first evaluation, with [UnboundLocalError] (the
    loop over the split has bound no [log_likelihood_test]), after
    [steps // 50] losses have been recorded; by then the evaluation has
    appended NaN, the mean of no loss, to the test losses and the step to
    their steps, and nothing to the test log-likelihoods. *)
Theorem empty_test_split_unbound_local (steps : Z) (s0 : state)
  (Hsteps : 50 <= steps)
  (Hempty : test_split = [])
  (Htotal : forall params key i,
      exists r, loss_fn params key (train_stream i) reg_value = Ok r) :
  exists s,
    training_loop steps s0 = Crashed UnboundLocalError s /\
    length (st_losses s)
    = (length (st_losses s0) + Z.to_nat (steps / 50))%nat /\
    st_losses_test s = st_losses_test s0 ++ [None] /\
    st_losses_test_step s = st_losses_test_step s0 ++ [steps / 50] /\
    st_log_liks_test s = st_log_liks_test s0.
Proof.
  assert (Hc : 1 <= steps / 50) by (apply Z.div_le_lower_bound; lia).
  assert (Hcs : steps / 50 <= steps).
  { apply Z.div_le_upper_bound; lia. }
  set (c := Z.to_nat (steps / 50)).
  assert (Hrange : step_range steps
                   = map Z.of_nat (seq 1 (c - 1)) ++ [steps / 50]
                     ++ map Z.of_nat (seq (S c) (Z.to_nat steps - c))).
  { unfold step_range.
    replace (Z.to_nat steps) with ((c - 1) + (1 + (Z.to_nat steps - c)))%nat
      at 1 by lia.
    rewrite !seq_app, !map_app. cbn [seq map].
    replace (1 + (c - 1))%nat with c by lia.
    replace (Z.of_nat c) with (steps / 50) by lia.
    replace (c + 1)%nat with (S c) by lia. reflexivity. }
  unfold Training.training_loop. rewrite Hrange, run_steps_app.
  destruct (run_steps_between_evaluations steps
              (map Z.of_nat (seq 1 (c - 1))) Htotal ltac:(lia)) with (s := s0)
    as (s1 & E1 & Hlen & T1 & T2 & T3).
  { apply Forall_forall. intros step Hin. apply in_map_iff in Hin
      as (k & <- & Hk). apply in_seq in Hk.
    rewrite Z.mod_small by lia. lia. }
  rewrite E1. cbn [app Training.run_steps].
  destruct (train_step_by_cadence steps (steps / 50) s1 (Htotal _ _ _)
              ltac:(lia)) as (loss & Hl & _ & Hcrash).
  destruct (Hcrash (Z_mod_same_full _) Hempty) as (s2 & E2 & U1 & U2 & U3).
  rewrite E2 in *. cbn [state_of] in Hl. exists s2. split; [reflexivity|].
  split; [rewrite Hl, length_app, Hlen, length_map, length_seq; cbn; lia|].
  rewrite U1, U2, U3, T1, T2, T3. now repeat split.
Qed.

(** X13.  A step that completes with an evaluation has called [loss_fn] once on
    every batch of the held-out split, with the parameters that the update
    of this step has returned; the test loss it records is the mean of the
    losses of all batches, and the test log-likelihood it records is the
    one of the last batch. *)
Theorem evaluation_records (steps step : Z) (s s' : state)
  (Hdone : train_step steps step s = Done s')
  (Hstep : step mod (steps / 50) = 0) :
  (forall loss ll params opt_state,
      step_update s = Ok (loss, ll, params, opt_state) ->
      st_params s' = params) /\
  exists results : list (Q * Q),
    Forall2 (fun img r =>
               exists key, loss_fn (st_params s') key img reg_value = Ok r)
      test_split results /\
    results <> [] /\
    st_losses_test s' = st_losses_test s ++ [Some (Qmean (map fst results))] /\
    st_losses_test_step s' = st_losses_test_step s ++ [step] /\
    st_log_liks_test s'
    = st_log_liks_test s ++ [snd (List.last results (0, 0)%Q)].
Proof.
  split.
  - intros loss ll params opt_state E.
    destruct (train_step_updated steps step s _ _ _ _ E) as [Heff _].
    rewrite Hdone in Heff. apply Heff.
  - apply train_step_done_eval in Hdone as [_ Hev].
    rewrite Hstep in Hev. cbn [Z.eqb] in Hev.
    destruct Hev as (rng & rng_1 & means & ll & Ee & E1 & E2 & E3).
    destruct (eval_batches_spec _ _ _ _ _ _ _ _ _ _ Ee)
      as (results & Hall & Hm & Hl).
    exists results. split; [exact Hall|].
    assert (Hne : results <> []).
    { intros ->. discriminate Hl. }
    split; [exact Hne|]. cbn [app] in Hm. subst means.
    split; [exact E1|]. split; [exact E2|]. rewrite E3. do 2 f_equal.
    destruct results as [|r results]; [contradiction|].
    clear -Hl. revert r Hl. induction results as [|r' results IH]; intros r.
    + cbn. now intros [= ->].
    + intros Hl. apply (IH r'). exact Hl.
Qed.

(** X14.  From the start of a run (no loss recorded, no checkpoint logged), where
    the loop ends: there is a checkpoint exactly when the smallest loss is
    below the initial best loss and below the activation threshold, and
    then the newest version carries, next to the alias "best", the alias of
    the step that [main] reports as the best step. *)
Theorem best_checkpoint_is_best_step (steps : Z) (s0 : state)
  (Hlosses : st_losses s0 = [])
  (Hstore : artifacts (st_store s0) = []) :
  let s := state_of (training_loop steps s0) in
  let best := st_best_eval_loss s in
  (artifacts (st_store s) <> [] <->
   Qltb best (st_best_eval_loss s0) = true /\ below_threshold best = true) /\
  (forall k,
      best_step_of (st_losses s) = Ok k ->
      Qltb best (st_best_eval_loss s0) = true ->
      below_threshold best = true ->
      exists a older,
        artifacts (st_store s) = a :: older /\
        art_aliases a = ["best"; "step_" ++ str_of_int (Z.of_nat k)]%string).
Proof.
  assert (Hinv0 : best_checkpoint_inv (st_best_eval_loss s0) s0).
  { constructor.
    - now rewrite Hlosses.
    - intros Hne. now rewrite Hstore in Hne.
    - intros Hlt. apply Qltb_lt in Hlt. now apply Qlt_irrefl in Hlt. }
  pose proof (run_steps_best_checkpoint_inv (st_best_eval_loss s0) steps
                (Z.to_nat steps) s0 Hinv0) as Hinv.
  rewrite Hlosses in Hinv. cbn [length] in Hinv.
  unfold Training.training_loop, step_range. cbn zeta.
  destruct Hinv as [H1 H2 H3].
  generalize dependent
    (state_of (run_steps steps (map Z.of_nat (seq 1 (Z.to_nat steps))) s0)).
  intros s H1 H2 H3. split; [split|].
  - exact H2.
  - intros [Hlt Hb]. destruct (H3 Hlt Hb) as (a & older & -> & _).
    discriminate.
  - intros k Hk Hlt Hb. destruct (H3 Hlt Hb) as (a & older & Ha & Hal).
    exists a, older. split; [exact Ha|]. rewrite Hal. do 3 f_equal.
    destruct (st_losses s) as [|x rest] eqn:El; [discriminate|].
    assert (Hk' : k = (list_index (list_min x rest) (x :: rest) + 1)%nat).
    { unfold best_step_of in Hk. congruence. }
    assert (Hmin : list_min x rest = st_best_eval_loss s).
    { rewrite H1 in Hlt |- *. cbn [list_min] in *.
      destruct (Qltb x (st_best_eval_loss s0)) eqn:Ex; [reflexivity|].
      apply Qltb_ge in Ex. now apply MinFacts.list_min_start. }
    rewrite Hk', Hmin. f_equal. lia.
Qed.

End Loop.

End LoopFacts.

(** * Runs of the loop in the small worlds *)
Module LoopExamples.
Import Store Training.

Notation sd_stream := (Toy.sd_stream Toy.spec_trace (9 # 10)).
Notation sd_start := (Toy.initial_state (Toy.counter 0)).
Notation sd_loop test_split steps :=
  (Training.training_loop unit N VAE_SD_C.Batch unit unit Toy.random_split
     sd_stream test_split (Toy.sd_loss_fn "Pixel") (fun _ _ _ _ => tt)
     (fun _ opt_state _ => (tt, opt_state))
     (fun params _ => Toy.bump params) 1%Q None steps sd_start).
Notation sd_step test_split steps :=
  (Training.train_step unit N VAE_SD_C.Batch unit unit Toy.random_split
     sd_stream test_split (Toy.sd_loss_fn "Pixel") (fun _ _ _ _ => tt)
     (fun _ opt_state _ => (tt, opt_state))
     (fun params _ => Toy.bump params) 1%Q None steps).
Notation sd_fact thm test_split :=
  (thm Tree.ptree _ unit N VAE_SD_C.Batch unit unit Toy.random_split
     sd_stream test_split (Toy.sd_loss_fn "Pixel") (fun _ _ _ _ => tt)
     (fun _ opt_state _ => (tt, opt_state))
     (fun params _ => Toy.bump params) 1%Q None).

(** A run of 50 steps whose first losses are 5, 2, 3, 0.8, 0.9. *)
Lemma training_loop_bookkeeping_witness :
  exists new_losses new_log_liks : list Q,
    st_losses (state_of (sd_loop [Toy.sd_batch 1] 50)) = [] ++ new_losses /\
    st_log_liks (state_of (sd_loop [Toy.sd_batch 1] 50))
    = [] ++ new_log_liks /\
    length new_log_liks = length new_losses /\
    (length new_losses <= 50)%nat /\
    (1 + length new_losses
     <= st_pulled (state_of (sd_loop [Toy.sd_batch 1] 50))
     <= 1 + length new_losses + 1)%nat /\
    (forall s, sd_loop [Toy.sd_batch 1] 50 = Done s ->
       length new_losses = 50%nat /\ st_pulled s = 51%nat).
Proof.
  exact (sd_fact (@LoopFacts.training_loop_bookkeeping) [Toy.sd_batch 1]
           50 sd_start).
Defined.

Lemma best_eval_loss_running_minimum_witness :
  exists new_losses : list Q,
    st_losses (state_of (sd_loop [Toy.sd_batch 1] 50)) = [] ++ new_losses /\
    st_best_eval_loss (state_of (sd_loop [Toy.sd_batch 1] 50))
    = list_min 1000000 new_losses /\
    (st_best_eval_loss (state_of (sd_loop [Toy.sd_batch 1] 50))
     <= 1000000)%Q /\
    (forall loss, In loss new_losses ->
       (st_best_eval_loss (state_of (sd_loop [Toy.sd_batch 1] 50))
        <= loss)%Q).
Proof.
  exact (sd_fact (@LoopFacts.best_eval_loss_running_minimum)
           [Toy.sd_batch 1] 50 sd_start).
Defined.

Lemma training_loop_evaluations_witness :
  (50 <= Z.to_nat (50 / (50 / 50)) <= 99)%nat /\
  length (st_losses_test (state_of (sd_loop [Toy.sd_batch 1] 50)))
  = (0 + Z.to_nat (50 / (50 / 50)))%nat /\
  length (st_losses_test_step (state_of (sd_loop [Toy.sd_batch 1] 50)))
  = (0 + Z.to_nat (50 / (50 / 50)))%nat /\
  length (st_log_liks_test (state_of (sd_loop [Toy.sd_batch 1] 50)))
  = (0 + Z.to_nat (50 / (50 / 50)))%nat.
Proof.
  apply (sd_fact (@LoopFacts.training_loop_evaluations) [Toy.sd_batch 1]
           50 sd_start); [lia|vm_compute; reflexivity].
Defined.

(** The same run with nothing in the held-out split. *)
Lemma empty_test_split_stops_the_loop_witness :
  exists e s, sd_loop [] 50 = Crashed e s.
Proof.
  apply (sd_fact (@LoopFacts.empty_test_split_stops_the_loop) []);
    [lia|reflexivity].
Defined.

(** The first step of the run, with two batches in the held-out split. *)
Lemma evaluation_records_witness :
  let test_split := [Toy.sd_batch 1; Toy.sd_batch 3] in
  let s' := state_of (sd_step test_split 50 1 sd_start) in
  (forall loss ll params opt_state,
      Training.step_update unit N VAE_SD_C.Batch unit unit Toy.random_split
        sd_stream (Toy.sd_loss_fn "Pixel") (fun _ _ _ _ => tt)
        (fun _ opt_state _ => (tt, opt_state))
        (fun params _ => Toy.bump params) 1%Q sd_start
      = Ok (loss, ll, params, opt_state) ->
      st_params s' = params) /\
  exists results : list (Q * Q),
    Forall2 (fun img r =>
               exists key,
                 Toy.sd_loss_fn "Pixel" (st_params s') key img 1%Q = Ok r)
      test_split results /\
    results <> [] /\
    st_losses_test s' = [] ++ [Some (Qmean (map fst results))] /\
    st_losses_test_step s' = [] ++ [1] /\
    st_log_liks_test s' = [] ++ [snd (List.last results (0, 0)%Q)].
Proof.
  apply (sd_fact (@LoopFacts.evaluation_records)
           [Toy.sd_batch 1; Toy.sd_batch 3] 50 1 sd_start);
    [vm_compute; reflexivity|reflexivity].
Defined.

Lemma best_checkpoint_is_best_step_witness :
  let s := state_of (sd_loop [Toy.sd_batch 1] 50) in
  let best := st_best_eval_loss s in
  (artifacts (st_store s) <> [] <->
   Qltb best 1000000 = true /\
   Training.below_activation_threshold None best = true) /\
  (forall k,
      best_step_of (st_losses s) = Ok k ->
      Qltb best 1000000 = true ->
      Training.below_activation_threshold None best = true ->
      exists a older,
        artifacts (st_store s) = a :: older /\
        art_aliases a = ["best"; "step_" ++ str_of_int (Z.of_nat k)]%string).
Proof.
  apply (sd_fact (@LoopFacts.best_checkpoint_is_best_step) [Toy.sd_batch 1]
           50 sd_start); reflexivity.
Defined.

Lemma empty_test_split_unbound_local_witness :
  exists s,
    sd_loop [] 100 = Crashed UnboundLocalError s /\
    length (st_losses s) = (0 + Z.to_nat (100 / 50))%nat /\
    st_losses_test s = [] ++ [None] /\
    st_losses_test_step s = [] ++ [100 / 50] /\
    st_log_liks_test s = [].
Proof.
  apply (sd_fact (@LoopFacts.empty_test_split_unbound_local) []);
    [lia|reflexivity|].
  intros params key i. eexists. reflexivity.
Defined.

End LoopExamples.

(** * The objective: sign and decomposition *)
Module ObjectiveShape.

Lemma square_nonneg (v : Q) : (0 <= Qabs v ^ 2)%Q.
Proof.
  rewrite Qabs_square. change (v ^ 2)%Q with (v * v)%Q.
  destruct (Qlt_le_dec v 0) as [Hneg|Hpos].
  - setoid_replace (v * v)%Q with ((- v) * (- v))%Q by ring.
    apply Qmult_le_0_compat; apply (Qopp_le_compat v 0), Qlt_le_weak, Hneg.
  - now apply Qmult_le_0_compat.
Qed.

Lemma sum_squares_nonneg (d : list Q) :
  (0 <= Qsum (map (fun v => Qabs v ^ 2) d))%Q.
Proof.
  induction d as [|v d IH]; [apply Qle_refl|].
  unfold Qsum in *. cbn [map fold_right].
  apply Qle_trans with (0 + 0)%Q; [unfold Qle; cbn; lia|].
  apply Qplus_le_compat; [apply square_nonneg|exact IH].
Qed.

Lemma sum_squares_zero (d : list Q) :
  (Qsum (map (fun v => Qabs v ^ 2) d) == 0)%Q -> Forall (fun v => v == 0)%Q d.
Proof.
  induction d as [|v d IH]; [constructor|].
  unfold Qsum in *. cbn [map fold_right]. intros Hsum.
  pose proof (square_nonneg v) as Hv.
  pose proof (sum_squares_nonneg d) as Hd. unfold Qsum in Hd.
  assert (Hv0 : (Qabs v ^ 2 == 0)%Q).
  { apply Qle_antisym; [|exact Hv].
    rewrite <- Hsum. apply Qle_trans with (Qabs v ^ 2 + 0)%Q.
    - rewrite Qplus_0_r. apply Qle_refl.
    - apply Qplus_le_compat; [apply Qle_refl|exact Hd]. }
  constructor.
  - rewrite Qabs_square in Hv0. change (v ^ 2)%Q with (v * v)%Q in Hv0.
    destruct (Qmult_integral _ _ Hv0); assumption.
  - apply IH. rewrite Hv0, Qplus_0_l in Hsum. exact Hsum.
Qed.

Lemma zip_minus_zero (x : tensor) :
  forall y, length x = length y ->
    Forall (fun v => v == 0)%Q (zip_with Qminus x y) -> Forall2 Qeq x y.
Proof.
  induction x as [|a x IH]; intros [|b y] Hlen; try discriminate;
    cbn [zip_with]; intros Hall; constructor; inversion Hall; subst.
  - setoid_replace a with ((a - b) + b)%Q by ring.
    rewrite H1. ring.
  - apply IH; [now injection Hlen|assumption].
Qed.

Section Pixel.
Variable fourier_loglikelihood : tensor -> tensor -> tensor -> Q.

Notation loglikelihood_fn :=
  (VAE_SD_C.loglikelihood_fn fourier_loglikelihood).

(** X15.  On tensors of one shape the pixel log-likelihood is never positive,
    and it is zero only when the observed and the predicted tensor
    agree in every element. *)
Theorem pixel_loglikelihood_nonpositive (x y noise : tensor)
  (Hshape : length x = length y) :
  exists v : Q,
    loglikelihood_fn x y noise "Pixel" = Ok v /\
    (v <= 0)%Q /\
    ((v == 0)%Q -> Forall2 Qeq x y).
Proof.
  unfold VAE_SD_C.loglikelihood_fn.
  change (String.eqb "Pixel" "Fourier") with false.
  change (String.eqb "Pixel" "Pixel") with true. cbv iota.
  rewrite (elementwise_Ok Qminus x y Hshape). cbn [bind].
  eexists. split; [reflexivity|].
  pose proof (sum_squares_nonneg (zip_with Qminus x y)) as Hs.
  set (S := Qsum (map (fun v => (Qabs v ^ 2)%Q) (zip_with Qminus x y))) in *.
  assert (E : (- (1 # 2) * S / (5 # 1000) ^ 2 == - (20000 * S))%Q).
  { field. }
  split.
  - rewrite E. apply (Qopp_le_compat 0 (20000 * S)).
    apply Qmult_le_0_compat; [discriminate|exact Hs].
  - intros Hz. rewrite E in Hz.
    apply zip_minus_zero; [exact Hshape|]. apply sum_squares_zero.
    fold S. setoid_replace S with ((1 # 20000) * (- - (20000 * S)))%Q
      by field.
    rewrite Hz. ring.
Qed.

End Pixel.

Lemma pixel_loglikelihood_nonpositive_witness :
  exists v : Q,
    VAE_SD_C.loglikelihood_fn (fun _ _ _ => 0%Q) [1; 2 # 1]%Q [1; 1]%Q
      [7 # 1]%Q "Pixel" = Ok v /\
    (v <= 0)%Q /\
    ((v == 0)%Q -> Forall2 Qeq [1; 2 # 1]%Q [1; 1]%Q).
Proof.
  apply (pixel_loglikelihood_nonpositive (fun _ _ _ => 0%Q)
           [1; 2 # 1]%Q [1; 1]%Q [7 # 1]%Q).
  reflexivity.
Defined.

Lemma Qsum_elbo (r : Q) (ll : tensor) :
  forall kl, length ll = length kl ->
    (Qsum (zip_with Qminus ll (map (Qmult r) kl))
     == Qsum ll - r * Qsum kl)%Q.
Proof.
  induction ll as [|a ll IH]; intros [|b kl] Hlen; try discriminate.
  - cbn. ring.
  - unfold Qsum in *. cbn [map zip_with fold_right].
    rewrite IH by now injection Hlen. ring.
Qed.

Lemma zip_elbo_length (r : Q) (ll : tensor) :
  forall kl, length ll = length kl ->
    length (zip_with Qminus ll (map (Qmult r) kl)) = length ll.
Proof.
  induction ll as [|a ll IH]; intros [|b kl] Hlen; try discriminate;
    [reflexivity|]. cbn. f_equal. apply IH. now injection Hlen.
Qed.

(** The loss of an ELBO with the coefficient [r]: the negative mean
    log-likelihood plus [r] times the mean of the KL term. *)
Lemma neg_mean_elbo (r : Q) (ll kl elbo : tensor) :
  elementwise Qminus ll (map (Qmult r) kl) = Ok elbo ->
  (- Qmean elbo == - Qmean ll + r * Qmean kl)%Q.
Proof.
  intros H. apply elementwise_inv in H as [Hlen ->].
  rewrite length_map in Hlen. unfold Qmean.
  rewrite (zip_elbo_length r ll kl Hlen), (Qsum_elbo r ll kl Hlen), <- Hlen.
  destruct ll as [|a ll].
  - destruct kl; [|discriminate]. unfold Qsum, Qdiv. cbn [length Z.of_nat fold_right].
    change (/ inject_Z 0)%Q with 0%Q. ring.
  - field. cbn [length]. rewrite Nat2Z.inj_succ. unfold Qeq. cbn. lia.
Qed.

Section SD.
Variables Params Key Posterior Code : Type.
Variable Autoencoder_apply :
  Params -> list tensor -> Key -> list tensor * Posterior * Code.
Variable posterior_log_prob : Posterior -> Code -> list tensor.
Variable MultivariateNormalDiag_log_prob :
  Code -> list Q -> Code -> list tensor.
Variable zeros_like : Code -> Code.
Variable convolve_kpsf : tensor -> tensor * tensor -> tensor.
Variable fourier_loglikelihood : tensor -> tensor -> tensor -> Q.

Notation loss_fn :=
  (VAE_SD_C.loss_fn Params Key Posterior Code Autoencoder_apply
     posterior_log_prob MultivariateNormalDiag_log_prob zeros_like
     convolve_kpsf fourier_loglikelihood).
Notation kl_term :=
  (VAE_SD_C.kl_term Params Key Posterior Code Autoencoder_apply
     posterior_log_prob MultivariateNormalDiag_log_prob zeros_like).

(** X16.  When [loss_fn] of [VAE_SD_C.py] returns [(loss, aux)] for a
    coefficient, it returns for every coefficient [reg], with the same
    second output [aux] and with the loss [aux + reg * mean(kl)], where
    [kl] is the KL term of the batch: the loss is affine in the
    coefficient. *)
Theorem sd_loss_affine_in_reg (noise_flag : string) (params : Params)
  (rng_key : Key) (batch : VAE_SD_C.Batch) (reg_term loss aux : Q)
  (Hreturns : loss_fn noise_flag params rng_key batch reg_term
              = Ok (loss, aux)) :
  exists kl : list Q,
    kl_term params rng_key batch = Ok kl /\
    (loss == aux + reg_term * Qmean kl)%Q /\
    forall reg : Q,
      exists loss' : Q,
        loss_fn noise_flag params rng_key batch reg = Ok (loss', aux) /\
        (loss' == aux + reg * Qmean kl)%Q.
Proof.
  revert Hreturns. unfold VAE_SD_C.loss_fn, VAE_SD_C.kl_term.
  destruct (vmap2 pair _ _) as [kpsf|]; cbn [bind]; [|discriminate].
  destruct (Autoencoder_apply params (VAE_SD_C.image batch) rng_key)
    as [[q posterior] code].
  destruct (vmap2 convolve_kpsf q kpsf) as [p|]; cbn [bind]; [|discriminate].
  match goal with
  | |- bind ?r _ = _ -> _ => destruct r as [log_likelihood|]
  end; cbn [bind]; [|discriminate].
  destruct (vmap2 (elementwise Qminus) _ _) as [diff|]; cbn [bind];
    [|discriminate].
  destruct (sequence diff) as [rows|]; cbn [bind]; [|discriminate].
  intros H0.
  destruct (elementwise Qminus log_likelihood
              (map (Qmult reg_term) (map Qsum rows))) as [elbo|] eqn:E;
    cbn [bind] in H0; [|discriminate H0].
  injection H0 as <- <-.
  exists (map Qsum rows). split; [reflexivity|].
  split; [now apply neg_mean_elbo|]. intros reg.
  apply elementwise_inv in E as [Hlen _]. rewrite length_map in Hlen.
  rewrite elementwise_Ok by now rewrite length_map.
  cbn [bind]. eexists. split; [reflexivity|].
  apply neg_mean_elbo. apply elementwise_Ok. now rewrite length_map.
Qed.

End SD.

Section Resnet.
Variables EncParams DecParams Key Dist Latent : Type.
Variable Encoder_apply : EncParams -> list tensor -> Dist.
Variable sample : Dist -> Key -> Latent.
Variable Decoder_apply : DecParams -> Latent -> list tensor.
Variable convolve : tensor -> tensor -> tensor.
Variable MultivariateNormalDiag : list tensor -> option (list Q) -> Dist.
Variable kl_divergence : Dist -> Dist -> tensor.
Variable log_prob : Dist -> list tensor -> tensor.

Notation loss_fn :=
  (VAE_Resnet_train_C.loss_fn EncParams DecParams Key Dist Latent
     Encoder_apply sample Decoder_apply convolve MultivariateNormalDiag
     kl_divergence log_prob).
Notation kl_term :=
  (VAE_Resnet_train_C.kl_term EncParams DecParams Key Dist Latent
     Encoder_apply sample Decoder_apply convolve MultivariateNormalDiag
     kl_divergence).

(** X17.  When [loss_fn] of [VAE_Resnet_train_C.py] returns [(loss, aux)] for a
    coefficient, it returns for every coefficient [reg], with the same
    second output [aux] and with the loss [aux + reg * mean(kl)], where
    [kl] is the term that this script scales by the coefficient. *)
Theorem resnet_loss_affine_in_reg (params : EncParams * DecParams)
  (rng_key : Key) (batch : VAE_Resnet_train_C.Batch) (reg_term loss aux : Q)
  (Hreturns : loss_fn params rng_key batch reg_term = Ok (loss, aux)) :
  exists kl : list Q,
    kl_term params rng_key batch = Ok kl /\
    (loss == aux + reg_term * Qmean kl)%Q /\
    forall reg : Q,
      exists loss' : Q,
        loss_fn params rng_key batch reg = Ok (loss', aux) /\
        (loss' == aux + reg * Qmean kl)%Q.
Proof.
  revert Hreturns.
  unfold VAE_Resnet_train_C.loss_fn, VAE_Resnet_train_C.kl_term.
  destruct params as [params_enc params_dec].
  destruct (vmap2 convolve _ _) as [p|]; cbn [bind]; [|discriminate].
  intros H0.
  match type of H0 with
  | bind ?r _ = _ => destruct r as [elbo|] eqn:E
  end; cbn [bind] in H0; [|discriminate H0].
  injection H0 as <- <-.
  eexists. split; [reflexivity|].
  split; [now apply neg_mean_elbo|]. intros reg.
  apply elementwise_inv in E as [Hlen _]. rewrite length_map in Hlen.
  rewrite elementwise_Ok by now rewrite length_map.
  cbn [bind]. eexists. split; [reflexivity|].
  apply neg_mean_elbo. apply elementwise_Ok. now rewrite length_map.
Qed.

End Resnet.

(** The batch of one pixel with the value 3 in the world of
    [VAE_SD_C.py]: the loss is 3 times the coefficient. *)
Lemma sd_loss_affine_in_reg_witness :
  exists kl : list Q,
    VAE_SD_C.kl_term Tree.ptree N (list tensor) (list tensor)
      Toy.Autoencoder_apply Toy.posterior_log_prob Toy.prior_log_prob
      Toy.zeros_like (Toy.counter 0) 0%N (Toy.sd_batch 3) = Ok kl /\
    ((150 # 50) == (0 # 50) + 1 * Qmean kl)%Q /\
    forall reg : Q,
      exists loss' : Q,
        Toy.sd_loss_fn "Pixel" (Toy.counter 0) 0%N (Toy.sd_batch 3) reg
        = Ok (loss', (0 # 50)%Q) /\
        (loss' == (0 # 50) + reg * Qmean kl)%Q.
Proof.
  apply (sd_loss_affine_in_reg Tree.ptree N (list tensor) (list tensor)
           Toy.Autoencoder_apply Toy.posterior_log_prob Toy.prior_log_prob
           Toy.zeros_like Toy.convolve_kpsf Toy.fourier_loglikelihood
           "Pixel" (Toy.counter 0) 0%N (Toy.sd_batch 3) 1).
  reflexivity.
Defined.

(** A batch of one pixel in the world of [VAE_Resnet_train_C.py], after
    two updates of the decoder. *)
Lemma resnet_loss_affine_in_reg_witness :
  exists kl : list Q,
    Toy.resnet_kl_term (Toy.counter 0, Toy.counter 2) 0%N
      (Toy.resnet_batch [1%Q]) = Ok kl /\
    ((10 # 4) == (1 # 2) + 1 * Qmean kl)%Q /\
    forall reg : Q,
      exists loss' : Q,
        Toy.resnet_loss_fn (Toy.counter 0, Toy.counter 2) 0%N
          (Toy.resnet_batch [1%Q]) reg
        = Ok (loss', (1 # 2)%Q) /\
        (loss' == (1 # 2) + reg * Qmean kl)%Q.
Proof.
  apply (resnet_loss_affine_in_reg Tree.ptree Tree.ptree N Toy.Dist
           (list tensor) Toy.Encoder_apply Toy.sample Toy.Decoder_apply
           Toy.convolve Toy.MultivariateNormalDiag Toy.kl_divergence
           Toy.log_prob (Toy.counter 0, Toy.counter 2) 0%N
           (Toy.resnet_batch [1%Q]) 1).
  reflexivity.
Defined.

End ObjectiveShape.

(** * The learning-rate schedule from step to step *)
Module ScheduleFacts.
Import Utils.

(** X18.  From one step to the next the multiplier stays as it is, except right
    after a boundary (the steps 17120, 42800 and 68480), where it is
    divided by ten; the schedule has a value at every step. *)
Theorem lr_schedule_next_step (step : Z) :
  exists m m' : Q,
    lr_schedule step = Some m /\ lr_schedule (step + 1) = Some m' /\
    (In step boundaries -> (m' == m * (1 # 10))%Q) /\
    (~ In step boundaries -> m' = m).
Proof.
  assert (Hb : In step boundaries <->
               step = 17120 \/ step = 42800 \/ step = 68480).
  { cbn. intuition lia. }
  destruct (UtilsFacts.lr_schedule_cases step)
    as [[Hs Es]|[[Hs Es]|[[Hs Es]|[Hs Es]]]];
  destruct (UtilsFacts.lr_schedule_cases (step + 1))
    as [[Ht Et]|[[Ht Et]|[[Ht Et]|[Ht Et]]]];
    try lia; rewrite Es, Et; eexists; eexists;
    (split; [reflexivity|]); (split; [reflexivity|]);
    rewrite Hb; split; intros Hin; try reflexivity; try lia;
    exfalso; apply Hin; lia.
Qed.

Lemma lr_schedule_next_step_witness :
  exists m m' : Q,
    lr_schedule 17120 = Some m /\ lr_schedule 17121 = Some m' /\
    (m' == m * (1 # 10))%Q.
Proof.
  destruct (lr_schedule_next_step 17120) as (m & m' & E & E' & Hdrop & _).
  exists m, m'. split; [exact E|]. split; [exact E'|].
  apply Hdrop. now left.
Defined.

End ScheduleFacts.

(** * The file name of a checkpoint *)
Module FileNameFacts.
Import Store.

Lemma basename_from_lacks (name : string) :
  forall acc, PyString.lacks slash name = true ->
    basename_from name acc = (acc ++ name)%string.
Proof.
  induction name as [|c name IH]; intros acc; cbn [PyString.lacks basename_from].
  - intros _. induction acc as [|a acc IHa]; [reflexivity|].
    cbn. now rewrite <- IHa.
  - intros Hl. apply andb_prop in Hl as [Hc Hl].
    apply negb_true_iff in Hc. rewrite Hc, (IH _ Hl).
    clear. induction acc as [|a acc IHa]; [reflexivity|].
    cbn. now rewrite IHa.
Qed.

Lemma basename_from_dir (dir name : string) :
  forall acc,
    basename_from (dir ++ String slash name) acc = basename_from name "".
Proof.
  induction dir as [|c dir IH]; intros acc; cbn [append basename_from].
  - now rewrite Ascii.eqb_refl.
  - destruct (Ascii.eqb c slash); apply IH.
Qed.

(** [os.path.basename] of a file name and of a file name in a
    directory. *)
Lemma basename_name (name : string) :
  PyString.lacks slash name = true -> basename name = name.
Proof. intros Hl. unfold basename. now rewrite basename_from_lacks. Qed.

Lemma basename_dir_name (dir name : string) :
  PyString.lacks slash name = true -> basename (dir ++ String slash name) = name.
Proof.
  intros Hl. unfold basename. rewrite basename_from_dir.
  now rewrite basename_from_lacks.
Qed.

Section Generic.
Context {State : Type} `{Serialization State}.

(** X19.  A checkpoint saved under a file name, in whatever directory, is found
    again under that file name and under no other one: loading with
    another file name raises [FileNotFoundError]. *)
Theorem load_checkpoint_by_file_name (path dir name other : string)
  (saved template : State) (step : Z) (w w' : store)
  (Hname : PyString.lacks slash name = true)
  (Hother : PyString.lacks slash other = true)
  (Hdiffer : String.eqb name other = false)
  (Hpath : path = name \/ path = (dir ++ String slash name)%string)
  (Hsaved : save_checkpoint path saved step w = Ok w') :
  load_checkpoint name template w'
  = from_bytes template (msgpack_serialize_state_dict saved) /\
  load_checkpoint other template w' = Raise FileNotFoundError.
Proof.
  rewrite StoreFacts.save_checkpoint_Ok in Hsaved. injection Hsaved as <-.
  assert (Hbase : basename path = name).
  { destruct Hpath as [->| ->];
      [now apply basename_name|now apply basename_dir_name]. }
  unfold load_checkpoint, saved_store. cbn [artifacts].
  change (checkpoint_name _) with (checkpoint_name w).
  rewrite !StoreFacts.use_artifact_saved.
  cbn [bind saved_artifact art_files read_file].
  rewrite Hbase, String.eqb_refl, Hdiffer. now split.
Qed.

End Generic.

Lemma load_checkpoint_by_file_name_witness :
  load_checkpoint "checkpoint.msgpack" (Toy.counter 0)
    (saved_store "runs/toy/checkpoint.msgpack" (Toy.counter 2) 7
       Toy.empty_store)
  = from_bytes (Toy.counter 0)
      (msgpack_serialize_state_dict (Toy.counter 2)) /\
  load_checkpoint "checkpoint.pkl" (Toy.counter 0)
    (saved_store "runs/toy/checkpoint.msgpack" (Toy.counter 2) 7
       Toy.empty_store)
  = Raise FileNotFoundError.
Proof.
  apply (load_checkpoint_by_file_name "runs/toy/checkpoint.msgpack"
           "runs/toy" "checkpoint.msgpack" "checkpoint.pkl" (Toy.counter 2)
           (Toy.counter 0) 7 Toy.empty_store);
    try reflexivity. now right.
Defined.

End FileNameFacts.

(** * The key of a plot *)
Module PlottingFacts.
Import Plotting.

Lemma before_first_dot_stem (stem rest : string) :
  PyString.lacks "."%char stem = true ->
  before_first_dot (stem ++ String "."%char rest) = stem.
Proof.
  induction stem as [|c stem IH]; cbn [PyString.lacks append before_first_dot].
  - reflexivity.
  - intros Hl. apply andb_prop in Hl as [Hc Hl].
    apply negb_true_iff in Hc. rewrite Hc. now rewrite IH.
Qed.

(** X20.  With one of its five plot types [save_plot_as_image] writes one image
    and logs it under what precedes the first dot of the file name, so
    that file names that differ only after their first dot are logged
    under the same key; with any other plot type it writes no image and
    logs nothing. *)
Theorem save_plot_as_image_key (folder_path plot_type stem ext ext' : string)
  (w : plot_world)
  (Hstem : PyString.lacks "."%char stem = true) :
  let w1 := save_plot_as_image folder_path plot_type
              (stem ++ String "."%char ext) w in
  let w2 := save_plot_as_image folder_path plot_type
              (stem ++ String "."%char ext') w in
  (mem_string plot_type plot_types = true ->
   logged_keys w1 = logged_keys w ++ [stem] /\
   logged_keys w2 = logged_keys w ++ [stem] /\
   length (saved_images w1) = S (length (saved_images w))) /\
  (mem_string plot_type plot_types = false ->
   logged_keys w1 = logged_keys w /\ saved_images w1 = saved_images w).
Proof.
  unfold save_plot_as_image. cbn zeta.
  destruct (mem_string plot_type plot_types); cbn; split;
    try (intros; discriminate); intros _.
  - rewrite !before_first_dot_stem by assumption.
    rewrite length_app. cbn. repeat split. lia.
  - now split.
Qed.

Lemma save_plot_as_image_key_witness :
  let w := {| saved_images := []; logged_keys := []; printed := [] |} in
  let w1 := save_plot_as_image "results/run-7" "loglog" "loss.train.png" w in
  let w2 := save_plot_as_image "results/run-7" "loglog" "loss.test.png" w in
  logged_keys w1 = ["loss"%string] /\
  logged_keys w2 = ["loss"%string] /\
  length (saved_images w1) = 1%nat.
Proof.
  apply (save_plot_as_image_key "results/run-7" "loglog" "loss" "train.png"
           "test.png"
           {| saved_images := []; logged_keys := []; printed := [] |});
    reflexivity.
Defined.

End PlottingFacts.
